(** * The sync dispatch pipeline of portcullis-app

    A shallow embedding of the route handlers that validate a sync request,
    read the source warehouse, create the job row and trigger the
    provisioning workflow, together with the credential registry of the
    source-registration route.

    - [Route]        the validating handler (first document of
                     src/unnamed/part_002, lines 1-194);
    - [RouteEarly]   its earlier revision, which hands the request to the
                     helpers (second document of src/unnamed/part_002,
                     lines 194-398);
    - [RouteLegacy]  the handler of src/unnamed/part_003;
    - [Sources]      [validateCredentials] and the POST handler of
                     src/unnamed/part_001.

    Everything outside the repository (the request object, the ClickHouse
    client, the Supabase client, Octokit, fetch, Clerk, and the JavaScript
    built-ins the handlers call) is gathered in one record, [World], over
    which the statements quantify.  A handler is a function of the world and
    of an explicit state that holds the record store, the log of external
    calls and the handler's mutable local; it ends in a response or in a
    throw that leaves the handler.

    Not modelled: console output, and [createClient()] of
    [@/lib/supabase/server], which only builds the client object and is
    taken to return. *)

From Stdlib Require Import String Ascii List ZArith QArith Bool Lia.
From Stdlib Require Import DecimalString.
Import ListNotations.
Local Close Scope Q_scope.
Local Open Scope nat_scope.
Local Open Scope string_scope.
Local Open Scope list_scope.
Set Warnings "-register-all".

(** ** JavaScript values *)

(** A JSON value as [JSON.parse] and [result.json()] produce it.  A number
    is the rational a finite double denotes; the handlers pass numbers on
    and never compute with them.  A literal beyond the range of a double,
    which [JSON.parse] reads as [Infinity], has no counterpart here: the
    statements below range over bodies whose numbers are finite.  An object
    lists its own properties in the order JavaScript enumerates them
    (array-index keys in ascending order, then the other keys in order of
    creation), with distinct keys; [undefined] is [None] of [option JSON]. *)
Inductive JSON : Type :=
| JNull
| JBool (b : bool)
| JNum (q : Q)
| JStr (s : string)
| JArr (items : list JSON)
| JObj (props : list (string * JSON)).

Definition JsValue := option JSON.

(** [obj[k]] on the own properties of an object. *)
Fixpoint lookup (k : string) (props : list (string * JSON)) : JsValue :=
  match props with
  | [] => None
  | (k', v) :: rest => if String.eqb k k' then Some v else lookup k rest
  end.

(** One entry of an object literal; a property whose value is [undefined]
    does not survive serialisation and is left out. *)
Definition prop (k : string) (v : JsValue) : list (string * JSON) :=
  match v with
  | Some x => [(k, x)]
  | None => []
  end.

(** *** Own properties and their order

    A key is an array index when it is the canonical decimal form of an
    integer below 2^32 - 1; JavaScript enumerates such keys first, in
    ascending order, whatever the order of creation. *)
Definition digit (c : ascii) : option N :=
  let n := N_of_ascii c in
  if N.leb 48 n && N.leb n 57 then Some (n - 48)%N else None.

Fixpoint digits_value (s : string) (acc : N) : option N :=
  match s with
  | EmptyString => Some acc
  | String c rest =>
      match digit c with
      | Some d => digits_value rest (10 * acc + d)%N
      | None => None
      end
  end.

Definition array_index (k : string) : option N :=
  match k with
  | EmptyString => None
  | String c rest =>
      if N.eqb (N_of_ascii c) 48 && negb (String.eqb rest EmptyString)
      then None
      else match digits_value k 0 with
           | Some n => if N.ltb n 4294967295 then Some n else None
           | None => None
           end
  end.

Fixpoint has_key (k : string) (props : list (string * JSON)) : bool :=
  match props with
  | [] => false
  | (k', _) :: rest => String.eqb k k' || has_key k rest
  end.

(** The value of an existing own property changes in place. *)
Fixpoint replace_prop (k : string) (v : JSON) (props : list (string * JSON))
  : list (string * JSON) :=
  match props with
  | [] => []
  | (k', v') :: rest =>
      if String.eqb k k' then (k, v) :: rest
      else (k', v') :: replace_prop k v rest
  end.

(** A new array-index key takes its place among the array-index keys. *)
Fixpoint insert_index (n : N) (k : string) (v : JSON)
  (props : list (string * JSON)) : list (string * JSON) :=
  match props with
  | [] => [(k, v)]
  | (k', v') :: rest =>
      match array_index k' with
      | Some n' =>
          if N.ltb n' n then (k', v') :: insert_index n k v rest
          else (k, v) :: props
      | None => (k, v) :: props
      end
  end.

(** Creating or updating the own data property [k]. *)
Definition define_own (k : string) (v : JSON) (props : list (string * JSON))
  : list (string * JSON) :=
  if has_key k props then replace_prop k v props
  else match array_index k with
       | Some n => insert_index n k v props
       | None => props ++ [(k, v)]
       end.

(** The entries of an object other than an own [__proto__] key. *)
Definition without_proto (props : list (string * JSON))
  : list (string * JSON) :=
  filter (fun kv : string * JSON => negb (String.eqb (fst kv) "__proto__"))
    props.

(** An object under construction: its own properties, and whether a write
    to [__proto__] still reaches the accessor of [Object.prototype] (it
    does for an object literal). *)
Record JsObject : Type :=
  { own_props : list (string * JSON);
    proto_accessor : bool }.

(** [{}] *)
Definition empty_object : JsObject :=
  {| own_props := []; proto_accessor := true |}.

(** [obj[k] = v].  Any key but [__proto__] creates or updates an own
    property.  A write to [__proto__] that reaches the accessor adds no
    own property: it replaces the prototype when [v] is an object, an array
    or [null], and does nothing otherwise.  The accessor is out of reach
    afterwards when the new prototype is [null] or an object with an own
    [__proto__] property; the next such write then creates an own
    property. *)
Definition set_prop (k : string) (v : JSON) (o : JsObject) : JsObject :=
  if String.eqb k "__proto__" then
    if proto_accessor o then
      match v with
      | JNull => {| own_props := own_props o; proto_accessor := false |}
      | JObj props =>
          {| own_props := own_props o; proto_accessor := negb (has_key "__proto__" props) |}
      | _ => o
      end
    else {| own_props := define_own k v (own_props o); proto_accessor := false |}
  else {| own_props := define_own k v (own_props o); proto_accessor := proto_accessor o |}.

(** What a [throw] carries: an [Error] instance with its message, or any
    other value. *)
Inductive Thrown : Type :=
| ErrorObj (message : string)
| NonError (v : JSON).

Inductive Outcome (A : Type) : Type :=
| Ok (a : A)
| Throw (e : Thrown).
Arguments Ok {A} a.
Arguments Throw {A} e.

(** Reading a property of [undefined] or [null] raises a TypeError (V8's
    wording of the message). *)
Definition TypeError_read (of_what k : string) : Thrown :=
  ErrorObj ("Cannot read properties of " ++ of_what ++ " (reading '" ++ k ++ "')").

(** [v.k] for [v : any], with [k] the name of no built-in member. *)
Definition get_prop (v : JsValue) (k : string) : Outcome JsValue :=
  match v with
  | None => Throw (TypeError_read "undefined" k)
  | Some JNull => Throw (TypeError_read "null" k)
  | Some (JObj props) => Ok (lookup k props)
  | Some _ => Ok None
  end.

(** [error instanceof Error ? error.message : 'Unknown error occurred'] *)
Definition error_message (e : Thrown) : string :=
  match e with
  | ErrorObj m => m
  | NonError _ => "Unknown error occurred"
  end.

(** ** External collaborators *)

(** part_002, lines 9-15. *)
Record Table : Type := { name : string }.
Record ShowTablesResponse : Type := { data : list Table }.

(** [{ data, error }] of a Supabase [insert(..).select().single()]; the row
    is represented by its generated id. *)
Record PostgrestError : Type := { pg_message : string }.
Record PostgrestSingle : Type :=
  { pg_data : option string; pg_error : option PostgrestError }.

(** The parameters of [octokit.request] (part_002, lines 157-169). *)
Record DispatchRequest : Type :=
  { route : string;
    owner : string;
    repo : string;
    workflow_id : string;
    ref : string;
    inputs_org_id : string;
    inputs_data : string;
    api_version : string }.

(** [fetch(url, init)] of part_003, lines 40-46, and the part of its
    response the handler reads. *)
Record FetchInit : Type :=
  { fetch_method : string;
    fetch_content_type : string;
    fetch_body : option string }.
Record FetchResponse : Type := { ok : bool; statusText : string }.

(** [auth()] of Clerk, part_001 lines 29-30. *)
Record ClerkAuth : Type :=
  { userId : option string; orgId : option string; orgSlug : JsValue }.

(** All that one request sees of its environment.  [ToPropertyKey] is the
    conversion of a value that is not a string to a property name.
    [request_json k] is the
    outcome of the call of [request.json()] that follows [k] earlier ones;
    [show_tables k] and [select_rows k sql] are the outcome of the statement
    that follows [k] earlier statements sent to the source ([clickhouse.query]
    and [result.json()] together), the first typed by the declared interface
    [ShowTablesResponse]. *)
Record World : Type :=
  { String_toLowerCase : string -> string;
    String_trim : string -> string;
    JSON_stringify : JSON -> string;
    ToPropertyKey : JSON -> string;
    request_json : nat -> Outcome JSON;
    ClickhouseClient : list (string * JSON) -> Outcome unit;
    show_tables : nat -> Outcome ShowTablesResponse;
    select_rows : nat -> string -> Outcome JSON;
    supabase_insert : string -> JSON -> Outcome PostgrestSingle;
    octokit_request : DispatchRequest -> Outcome unit;
    fetch : string -> FetchInit -> Outcome FetchResponse;
    auth : ClerkAuth }.

(** ** State *)

Record Row : Type :=
  { row_table : string; row_id : string; row_fields : JSON }.

Inductive Event : Type :=
| EvQuery (sql : string)
| EvInsert (table : string) (payload : JSON)
| EvDispatch (req : DispatchRequest)
| EvFetch (url : string) (init : FetchInit).

(** [db] is the record store, [log] the external calls in the order they
    were made, [reads] and [queries] count the body reads and the statements
    sent so far, [syncId] is the handler's [let syncId]. *)
Record State : Type :=
  { db : list Row;
    log : list Event;
    reads : nat;
    queries : nat;
    syncId : option string }.

Definition initial (rows : list Row) : State :=
  {| db := rows; log := []; reads := 0; queries := 0; syncId := None |}.

Definition log_event (e : Event) (s : State) : State :=
  {| db := db s; log := log s ++ [e]; reads := reads s;
     queries := queries s; syncId := syncId s |}.

Definition add_row (r : Row) (s : State) : State :=
  {| db := db s ++ [r]; log := log s; reads := reads s;
     queries := queries s; syncId := syncId s |}.

Definition count_read (s : State) : State :=
  {| db := db s; log := log s; reads := S (reads s);
     queries := queries s; syncId := syncId s |}.

Definition count_query (s : State) : State :=
  {| db := db s; log := log s; reads := reads s;
     queries := S (queries s); syncId := syncId s |}.

Definition set_syncId (id : option string) (s : State) : State :=
  {| db := db s; log := log s; reads := reads s;
     queries := queries s; syncId := id |}.

(** ** The handler monad: state, and exceptions that keep the state *)

Definition M (A : Type) : Type := State -> Outcome A * State.

Definition ret {A} (a : A) : M A := fun s => (Ok a, s).

Definition throw {A} (e : Thrown) : M A := fun s => (Throw e, s).

Definition bind {A B} (m : M A) (k : A -> M B) : M B :=
  fun s =>
    match m s with
    | (Ok a, s') => k a s'
    | (Throw e, s') => (Throw e, s')
    end.

(** [try { m } catch (e) { h e }] *)
Definition try_catch {A} (m : M A) (h : Thrown -> M A) : M A :=
  fun s =>
    match m s with
    | (Ok a, s') => (Ok a, s')
    | (Throw e, s') => h e s'
    end.

Definition lift {A} (o : Outcome A) : M A := fun s => (o, s).

(** Reading and assigning the handler's [syncId]. *)
Definition get_syncId : M (option string) := fun s => (Ok (syncId s), s).

Definition assign_syncId (id : option string) : M unit :=
  fun s => (Ok tt, set_syncId id s).

Declare Scope js_scope.
Delimit Scope js_scope with js.
Notation "x <- m ;; k" := (bind m (fun x => k))
  (at level 100, m at next level, right associativity) : js_scope.
Notation "m ;;; k" := (bind m (fun _ => k))
  (at level 100, right associativity) : js_scope.
Local Open Scope js_scope.

(** *** Effects *)

(** [await request.json()] *)
Definition request_json_call (w : World) : M JSON :=
  fun s => (request_json w (reads s), count_read s).

(** [await clickhouse.query({ query: 'SHOW TABLES', format: 'JSON' })]
    followed by [await result.json()]. *)
Definition query_show_tables (w : World) : M ShowTablesResponse :=
  fun s =>
    (show_tables w (queries s), count_query (log_event (EvQuery "SHOW TABLES") s)).

(** [await clickhouse.query({ query })] followed by [await result.json()]. *)
Definition query_select (w : World) (sql : string) : M JSON :=
  fun s =>
    (select_rows w (queries s) sql, count_query (log_event (EvQuery sql) s)).

(** [await supabase.from(table).insert(payload).select().single()]: the row
    is in the table exactly when the call reports it without an error. *)
Definition insert_single (w : World) (table : string) (payload : JSON)
  : M PostgrestSingle :=
  fun s =>
    let s1 := log_event (EvInsert table payload) s in
    match supabase_insert w table payload with
    | Ok r =>
        match pg_error r, pg_data r with
        | None, Some id =>
            (Ok r, add_row {| row_table := table; row_id := id;
                               row_fields := payload |} s1)
        | _, _ => (Ok r, s1)
        end
    | Throw e => (Throw e, s1)
    end.

(** [await octokit.request(route, params)] *)
Definition octokit_call (w : World) (req : DispatchRequest) : M unit :=
  fun s => (octokit_request w req, log_event (EvDispatch req) s).

(** [await fetch(url, init)] *)
Definition fetch_call (w : World) (url : string) (init : FetchInit)
  : M FetchResponse :=
  fun s => (fetch w url init, log_event (EvFetch url init) s).

(** ** Responses *)

Record NextResponse : Type := { status : nat; body : JSON }.

(** [NextResponse.json(body)] and [NextResponse.json(body, { status })] *)
Definition NextResponse_json (b : list (string * JSON)) (st : option nat)
  : NextResponse :=
  {| status := match st with Some n => n | None => 200 end; body := JObj b |}.

Definition json_of_id (id : option string) : JSON :=
  match id with
  | Some i => JStr i
  | None => JNull
  end.

(** The field of a response body; [None] when the body has no such key. *)
Definition field (k : string) (r : NextResponse) : JsValue :=
  match body r with
  | JObj props => lookup k props
  | _ => None
  end.

(** ** Request validation (zod schemas of part_002, lines 17-35) *)

Module Zod.

Inductive IssueCode : Type :=
| invalid_type
| too_small
| invalid_enum_value
| unrecognized_keys (keys : list string).

(** An issue is kept as its code and path; the library's message text is
    not modelled. *)
Record ZodIssue : Type := { code : IssueCode; path : list string }.

Inductive SafeParse (A : Type) : Type :=
| ParseOk (parsed : A)
| ParseFail (issues : list ZodIssue).
Arguments ParseOk {A} parsed.
Arguments ParseFail {A} issues.

Definition issues_of {A} (r : SafeParse A) : list ZodIssue :=
  match r with
  | ParseOk _ => []
  | ParseFail i => i
  end.

Definition issue (c : IssueCode) (p : list string) : ZodIssue :=
  {| code := c; path := p |}.

(** [z.string()] *)
Definition string_ (p : list string) (v : JsValue) : SafeParse string :=
  match v with
  | Some (JStr s) => ParseOk s
  | _ => ParseFail [issue invalid_type p]
  end.

(** [z.string().min(1)] *)
Definition string_min1 (p : list string) (v : JsValue) : SafeParse string :=
  match v with
  | Some (JStr s) =>
      if Nat.ltb (String.length s) 1 then ParseFail [issue too_small p]
      else ParseOk s
  | _ => ParseFail [issue invalid_type p]
  end.

(** [z.record(z.any())]: the result is a new object that receives the
    entries of the input one by one, an own [__proto__] key excepted
    (zod leaves that key out of every object it builds). *)
Definition record_any (p : list string) (v : JsValue)
  : SafeParse (list (string * JSON)) :=
  match v with
  | Some (JObj props) => ParseOk (without_proto props)
  | _ => ParseFail [issue invalid_type p]
  end.

(** The keys of the input that the shape does not know, for [.strict()]. *)
Definition extra_keys (shape : list string) (props : list (string * JSON))
  : list string :=
  filter (fun k => negb (existsb (String.eqb k) shape)) (map fst props).

Definition strict (shape : list string) (p : list string)
  (props : list (string * JSON)) : list ZodIssue :=
  match extra_keys shape props with
  | [] => []
  | ks => [issue (unrecognized_keys ks) p]
  end.

Definition code_name (c : IssueCode) : string :=
  match c with
  | invalid_type => "invalid_type"
  | too_small => "too_small"
  | invalid_enum_value => "invalid_enum_value"
  | unrecognized_keys _ => "unrecognized_keys"
  end.

Definition issue_json (i : ZodIssue) : JSON :=
  JObj ([("code", JStr (code_name (code i)))]
        ++ match code i with
           | unrecognized_keys ks => [("keys", JArr (map JStr ks))]
           | _ => []
           end
        ++ [("path", JArr (map JStr (path i)))]).

End Zod.
Import Zod.

Inductive Mode : Type := stream | batch.

Record Options : Type := { mode : Mode; batchSize : Q }.

Record DestinationConfig : Type :=
  { type : string;
    credentials : list (string * JSON);
    options : Options }.

Record RequestBody : Type :=
  { organization : string;
    internal_warehouse : string;
    link_type : string;
    internal_credentials : list (string * JSON);
    destination_config : DestinationConfig }.

(** [.default({ mode: "stream", batchSize: 10000 })] *)
Definition default_options : Options :=
  {| mode := stream; batchSize := inject_Z 10000 |}.

(** [z.enum(["stream", "batch"]).default("stream")] *)
Definition mode_schema (p : list string) (v : JsValue) : SafeParse Mode :=
  match v with
  | None => ParseOk stream
  | Some (JStr s) =>
      if String.eqb s "stream" then ParseOk stream
      else if String.eqb s "batch" then ParseOk batch
      else ParseFail [issue invalid_enum_value p]
  | Some _ => ParseFail [issue invalid_type p]
  end.

(** [z.number().default(10000)] *)
Definition batchSize_schema (p : list string) (v : JsValue) : SafeParse Q :=
  match v with
  | None => ParseOk (inject_Z 10000)
  | Some (JNum q) => ParseOk q
  | Some _ => ParseFail [issue invalid_type p]
  end.

(** [z.object({ mode, batchSize }).default({...})]: not strict, unknown keys
    are dropped. *)
Definition options_schema (p : list string) (v : JsValue) : SafeParse Options :=
  match v with
  | None => ParseOk default_options
  | Some (JObj props) =>
      let m := mode_schema (p ++ ["mode"]) (lookup "mode" props) in
      let b := batchSize_schema (p ++ ["batchSize"]) (lookup "batchSize" props) in
      match m, b with
      | ParseOk m', ParseOk b' => ParseOk {| mode := m'; batchSize := b' |}
      | _, _ => ParseFail (issues_of m ++ issues_of b)
      end
  | Some _ => ParseFail [issue invalid_type p]
  end.

Definition destinationConfig_keys : list string :=
  ["type"; "credentials"; "options"].

Definition destinationConfigSchema (p : list string) (v : JsValue)
  : SafeParse DestinationConfig :=
  match v with
  | Some (JObj props) =>
      let t := string_ (p ++ ["type"]) (lookup "type" props) in
      let c := record_any (p ++ ["credentials"]) (lookup "credentials" props) in
      let o := options_schema (p ++ ["options"]) (lookup "options" props) in
      let x := strict destinationConfig_keys p props in
      match t, c, o, x with
      | ParseOk t', ParseOk c', ParseOk o', [] =>
          ParseOk {| type := t'; credentials := c'; options := o' |}
      | _, _, _, _ =>
          ParseFail (issues_of t ++ issues_of c ++ issues_of o ++ x)
      end
  | _ => ParseFail [issue invalid_type p]
  end.

Definition request_keys : list string :=
  ["organization"; "internal_warehouse"; "link_type"; "internal_credentials";
   "destination_config"].

(** [requestSchema.safeParse(rawBody)] *)
Definition requestSchema_safeParse (rawBody : JSON) : SafeParse RequestBody :=
  match rawBody with
  | JObj props =>
      let o := string_min1 ["organization"] (lookup "organization" props) in
      let h := string_min1 ["internal_warehouse"]
                 (lookup "internal_warehouse" props) in
      let l := string_min1 ["link_type"] (lookup "link_type" props) in
      let c := record_any ["internal_credentials"]
                 (lookup "internal_credentials" props) in
      let d := destinationConfigSchema ["destination_config"]
                 (lookup "destination_config" props) in
      let x := strict request_keys [] props in
      match o, h, l, c, d, x with
      | ParseOk o', ParseOk h', ParseOk l', ParseOk c', ParseOk d', [] =>
          ParseOk {| organization := o'; internal_warehouse := h';
                     link_type := l'; internal_credentials := c';
                     destination_config := d' |}
      | _, _, _, _, _, _ =>
          ParseFail (issues_of o ++ issues_of h ++ issues_of l ++ issues_of c
                     ++ issues_of d ++ x)
      end
  | _ => ParseFail [issue invalid_type []]
  end.

(** The validated body as the object handed to the store. *)
Definition Mode_json (m : Mode) : JSON :=
  match m with
  | stream => JStr "stream"
  | batch => JStr "batch"
  end.

Definition Options_json (o : Options) : JSON :=
  JObj [("mode", Mode_json (mode o)); ("batchSize", JNum (batchSize o))].

Definition DestinationConfig_json (d : DestinationConfig) : JSON :=
  JObj [("type", JStr (type d));
        ("credentials", JObj (credentials d));
        ("options", Options_json (options d))].

(** ** The validating handler (part_002, lines 1-194) *)

Module Route.

(** The client options built from the credentials (lines 43-48, 67-72). *)
Definition client_options (credentials : list (string * JSON))
  : list (string * JSON) :=
  prop "url" (lookup "host" credentials)
  ++ prop "username" (lookup "username" credentials)
  ++ prop "password" (lookup "password" credentials)
  ++ prop "database" (lookup "database" credentials).

(** Lines 41-63. *)
Definition getAllTables (w : World) (credentials : list (string * JSON))
  : M (list string) :=
  try_catch
    (lift (ClickhouseClient w (client_options credentials)) ;;;
     tables <- query_show_tables w ;;
     let tableNames := map name (data tables) in
     ret tableNames)
    (fun error => throw error).

(** Line 82. *)
Definition select_query (table : string) : string :=
  "SELECT * FROM " ++ table ++ " FORMAT JSONCompactEachRowWithNamesAndTypes".

(** The loop of lines 81-86 over [allTableData]; when it ends, the
    object is represented by the own properties it then has, which is all
    that [JSON.stringify] reads of it. *)
Fixpoint for_each_table (w : World) (tables : list string)
  (allTableData : JsObject) : M (list (string * JSON)) :=
  match tables with
  | [] => ret (own_props allTableData)
  | table :: rest =>
      tableData <- query_select w (select_query table) ;;
      for_each_table w rest (set_prop table tableData allTableData)
  end.

(** Lines 65-94. *)
Definition getTableData (w : World) (credentials : list (string * JSON))
  : M (list (string * JSON)) :=
  try_catch
    (lift (ClickhouseClient w (client_options credentials)) ;;;
     tables <- getAllTables w credentials ;;
     allTableData <- for_each_table w tables empty_object ;;
     ret allTableData)
    (fun error => throw error).

(** The object passed to [insert] (lines 128-134). *)
Definition sync_record (w : World) (body : RequestBody) : JSON :=
  let linkType := String_toLowerCase w (link_type body) in
  JObj [("organization", JStr (organization body));
        ("internal_warehouse", JStr (internal_warehouse body));
        ("link_type", JStr linkType);
        ("internal_credentials", JObj (internal_credentials body));
        ("destination_config",
          DestinationConfig_json (destination_config body))].

(** The workflow dispatch of lines 157-169. *)
Definition dispatch_request (w : World) (body : RequestBody)
  (data : list (string * JSON)) : DispatchRequest :=
  {| route := "POST /repos/{owner}/{repo}/actions/workflows/{workflow_id}/dispatches";
     owner := "portcullis-co";
     repo := "portcullis-app";
     workflow_id := "deploy-bulker.yml";
     ref := "bulker";
     inputs_org_id := organization body;
     inputs_data := JSON_stringify w (JObj data);
     api_version := "2022-11-28" |}.

(** [githubError.message] for [githubError: any]. *)
Definition thrown_message (e : Thrown) : Outcome JsValue :=
  match e with
  | ErrorObj m => Ok (Some (JStr m))
  | NonError v => get_prop (Some v) "message"
  end.

Definition validation_failed (issues : list ZodIssue) : NextResponse :=
  NextResponse_json
    [("success", JBool false);
     ("error", JStr "Validation failed");
     ("details", JArr (map issue_json issues))]
    (Some 400).

Definition database_error (syncError : PostgrestError) : NextResponse :=
  NextResponse_json
    [("success", JBool false);
     ("error", JStr "Database error");
     ("details", JStr (pg_message syncError))]
    (Some 500).

Definition no_data_returned : NextResponse :=
  NextResponse_json
    [("success", JBool false);
     ("error", JStr "Failed to create sync record: No data returned")]
    (Some 500).

Definition github_error (id : option string) (details : JsValue)
  : NextResponse :=
  NextResponse_json
    ([("success", JBool false);
      ("syncId", json_of_id id);
      ("error", JStr "GitHub API error")]
     ++ prop "details" details)
    (Some 422).

Definition initiated (id : option string) : NextResponse :=
  NextResponse_json
    [("success", JBool true);
     ("syncId", json_of_id id);
     ("message",
       JStr "ETL process and container provisioning initiated successfully")]
    None.

Definition process_failed (id : option string) (error : Thrown)
  : NextResponse :=
  NextResponse_json
    [("success", JBool false);
     ("syncId", json_of_id id);
     ("error", JStr (error_message error))]
    (Some 500).

(** Lines 156-184: the dispatch with its own handler, then the success
    response.  The handler's [return] is the [Some] of the inner block. *)
Definition dispatch (w : World) (body : RequestBody)
  (data : list (string * JSON)) : M NextResponse :=
  early <- try_catch
             (octokit_call w (dispatch_request w body data) ;;;
              ret None)
             (fun githubError =>
                details <- lift (thrown_message githubError) ;;
                id <- get_syncId ;;
                ret (Some (github_error id details))) ;;
  match early with
  | Some response => ret response
  | None => id <- get_syncId ;; ret (initiated id)
  end.

(** Lines 116-184, the work on a validated body. *)
Definition process (w : World) (body : RequestBody) : M NextResponse :=
  data <- getTableData w (internal_credentials body) ;;
  tables <- getAllTables w (internal_credentials body) ;;
  r <- insert_single w "syncs" (sync_record w body) ;;
  match pg_error r with
  | Some syncError => ret (database_error syncError)
  | None =>
      match pg_data r with
      | None => ret no_data_returned
      | Some id =>
          assign_syncId (Some id) ;;;
          dispatch w body data
      end
  end.

(** Lines 96-194. *)
Definition POST (w : World) : M NextResponse :=
  assign_syncId None ;;;
  try_catch
    (rawBody <- request_json_call w ;;
     match requestSchema_safeParse rawBody with
     | ParseFail issues => ret (validation_failed issues)
     | ParseOk body => process w body
     end)
    (fun error => id <- get_syncId ;; ret (process_failed id error)).

End Route.

(** ** The earlier revision (part_002, lines 194-398)

    Its helpers take the request and read its body themselves, and the
    snapshot is extracted before the handler's [try] begins. *)

Module RouteEarly.

Definition and_then {A B} (o : Outcome A) (k : A -> Outcome B) : Outcome B :=
  match o with
  | Ok a => k a
  | Throw e => Throw e
  end.

(** The client options read from [body.internal_credentials]
    (lines 240-245, 265-270). *)
Definition client_options (body : JSON) : Outcome (list (string * JSON)) :=
  and_then (get_prop (Some body) "internal_credentials") (fun c =>
  and_then (get_prop c "host") (fun h =>
  and_then (get_prop c "username") (fun u =>
  and_then (get_prop c "password") (fun p =>
  and_then (get_prop c "database") (fun d =>
  Ok (prop "host" h ++ prop "username" u ++ prop "password" p
      ++ prop "database" d)))))).

(** Lines 237-260. *)
Definition getAllTables (w : World) : M (list string) :=
  try_catch
    (body <- request_json_call w ;;
     opts <- lift (client_options body) ;;
     lift (ClickhouseClient w opts) ;;;
     tables <- query_show_tables w ;;
     let tableNames := map name (data tables) in
     ret tableNames)
    (fun error => throw error).

(** Lines 262-292. *)
Definition getTableData (w : World) : M (list (string * JSON)) :=
  try_catch
    (body <- request_json_call w ;;
     opts <- lift (client_options body) ;;
     lift (ClickhouseClient w opts) ;;;
     tables <- getAllTables w ;;
     allTableData <- Route.for_each_table w tables empty_object ;;
     ret allTableData)
    (fun error => throw error).

(** Lines 317-387, the work on a validated body. *)
Definition process (w : World) (body : RequestBody)
  (data : list (string * JSON)) : M NextResponse :=
  r <- insert_single w "syncs" (Route.sync_record w body) ;;
  match pg_error r with
  | Some syncError => ret (Route.database_error syncError)
  | None =>
      match pg_data r with
      | None => ret Route.no_data_returned
      | Some id =>
          assign_syncId (Some id) ;;;
          tables <- getAllTables w ;;
          Route.dispatch w body data
      end
  end.

(** Lines 295-398. *)
Definition POST (w : World) : M NextResponse :=
  assign_syncId None ;;;
  data <- getTableData w ;;
  try_catch
    (rawBody <- try_catch (request_json_call w)
                  (fun _ => throw (ErrorObj "Invalid JSON in request body")) ;;
     match requestSchema_safeParse rawBody with
     | ParseFail issues => ret (Route.validation_failed issues)
     | ParseOk body => process w body data
     end)
    (fun error => id <- get_syncId ;; ret (Route.process_failed id error)).

End RouteEarly.

(** ** The handler of part_003 *)

Module RouteLegacy.

(** [body.link_type.toLowerCase()] for [body: any] (line 19). *)
Definition call_toLowerCase (w : World) (v : JsValue) : Outcome string :=
  match v with
  | Some (JStr s) => Ok (String_toLowerCase w s)
  | None => Throw (TypeError_read "undefined" "toLowerCase")
  | Some JNull => Throw (TypeError_read "null" "toLowerCase")
  | Some _ => Throw (ErrorObj "body.link_type.toLowerCase is not a function")
  end.

(** The object passed to [insert] (lines 24-31). *)
Definition sync_record (body : list (string * JSON)) : JSON :=
  JObj (prop "organization" (lookup "organization" body)
        ++ prop "internal_warehouse" (lookup "internal_warehouse" body)
        ++ prop "link_type" (lookup "link_type" body)
        ++ prop "internal_credentials" (lookup "internal_credentials" body)
        ++ prop "destination_config" (lookup "destinationConfig" body)
        ++ [("status", JStr "active")]).

Definition props_of (body : JSON) : list (string * JSON) :=
  match body with
  | JObj props => props
  | _ => []
  end.

Definition dispatch_url : string :=
  "https://api.github.com/repos/portcullis-co/portcullis-app/actions/workflows/11474765079/dispatches".

(** Lines 40-46. *)
Definition dispatch_init (w : World) (body : list (string * JSON))
  : FetchInit :=
  {| fetch_method := "POST";
     fetch_content_type := "application/json";
     fetch_body := option_map (JSON_stringify w) (lookup "destinationConfig" body) |}.

Definition completed (id : option string) : NextResponse :=
  NextResponse_json
    [("success", JBool true);
     ("syncId", json_of_id id);
     ("message",
       JStr "ETL process and container provisioning completed successfully")]
    None.

(** What lines 40-50 throw when the trigger does not go through: the
    rejection of [fetch], or the error built from a response that is not
    ok. *)
Definition dispatch_failure (o : Outcome FetchResponse) : option Thrown :=
  match o with
  | Throw e => Some e
  | Ok provisionBulker =>
      if ok provisionBulker then None
      else Some (ErrorObj ("Failed to send data to Bulker: "
                           ++ statusText provisionBulker))
  end.

(** Lines 12-68. *)
Definition POST (w : World) : M NextResponse :=
  assign_syncId None ;;;
  try_catch
    (body <- request_json_call w ;;
     link <- lift (get_prop (Some body) "link_type") ;;
     linkType <- lift (call_toLowerCase w link) ;;
     r <- insert_single w "syncs" (sync_record (props_of body)) ;;
     match pg_error r with
     | Some syncError =>
         throw (ErrorObj ("Failed to create sync record: " ++ pg_message syncError))
     | None =>
         match pg_data r with
         | None => throw (TypeError_read "null" "id")
         | Some id =>
             assign_syncId (Some id) ;;;
             provisionBulker <- fetch_call w dispatch_url
                                  (dispatch_init w (props_of body)) ;;
             if ok provisionBulker then
               id' <- get_syncId ;; ret (completed id')
             else
               throw (ErrorObj ("Failed to send data to Bulker: "
                                ++ statusText provisionBulker))
         end
     end)
    (fun error => id <- get_syncId ;; ret (Route.process_failed id error)).

End RouteLegacy.

(** ** The source-registration route (part_001) *)

Module Sources.

Definition truthy (v : JsValue) : bool :=
  match v with
  | None => false
  | Some JNull => false
  | Some (JBool b) => b
  | Some (JNum q) => negb (Qeq_bool q (inject_Z 0))
  | Some (JStr s) => negb (String.eqb s EmptyString)
  | Some (JArr _) => true
  | Some (JObj _) => true
  end.

(** Lines 69-74. *)
Definition requiredFields : list (string * list string) :=
  [("snowflake",
     ["account"; "username"; "password"; "warehouse"; "database"; "schema"]);
   ("bigquery", ["project_id"; "private_key"; "client_email"]);
   ("redshift", ["host"; "port"; "database"; "user"; "password"]);
   ("clickhouse", ["host"; "port"; "database"; "user"; "password"])].

Fixpoint own (k : string) (table : list (string * list string))
  : option (list string) :=
  match table with
  | [] => None
  | (k', fs) :: rest => if String.eqb k k' then Some fs else own k rest
  end.

(** The names every object literal inherits; under one of them
    [requiredFields[type]] is a function or an object, not a list. *)
Definition inherited : list string :=
  ["constructor"; "__proto__"; "hasOwnProperty"; "isPrototypeOf";
   "propertyIsEnumerable"; "toLocaleString"; "toString"; "valueOf";
   "__defineGetter__"; "__defineSetter__"; "__lookupGetter__";
   "__lookupSetter__"].

(** [fields.every(field => credentials[field] &&
                           credentials[field].trim() !== '')],
    which stops at the first field that fails. *)
Fixpoint every_field (w : World) (credentials : JsValue)
  (fields : list string) : Outcome bool :=
  match fields with
  | [] => Ok true
  | field :: rest =>
      match get_prop credentials field with
      | Throw e => Throw e
      | Ok v =>
          if truthy v then
            match v with
            | Some (JStr s) =>
                if String.eqb (String_trim w s) EmptyString then Ok false
                else every_field w credentials rest
            | _ => Throw (ErrorObj "credentials[field].trim is not a function")
            end
          else Ok false
      end
  end.

(** Lines 68-80. *)
Definition validateCredentials (w : World) (type : string)
  (credentials : JsValue) : Outcome bool :=
  match own type requiredFields with
  | Some fields => every_field w credentials fields
  | None =>
      if existsb (String.eqb type) inherited
      then Throw (ErrorObj "fields.every is not a function")
      else Ok false
  end.

Definition error_response (message : string) (st : nat) : NextResponse :=
  NextResponse_json [("error", JStr message)] (Some st).

Definition property_key (w : World) (v : JsValue) : string :=
  match v with
  | Some (JStr s) => s
  | Some x => ToPropertyKey w x
  | None => "undefined"
  end.

Definition truthy_string (v : option string) : bool :=
  match v with
  | Some s => negb (String.eqb s EmptyString)
  | None => false
  end.

(** The row a successful insert returns, kept as its id. *)
Definition row_json (id : option string) : JSON :=
  match id with
  | Some i => JObj [("id", JStr i)]
  | None => JNull
  end.

(** Lines 27-65. *)
Definition POST (w : World) : M NextResponse :=
  let userId := userId (auth w) in
  let orgId := orgId (auth w) in
  let slug := orgSlug (auth w) in
  if negb (truthy_string userId) || negb (truthy_string orgId) then
    ret (error_response "Unauthorized" 401)
  else
    try_catch
      (json <- request_json_call w ;;
       type <- lift (get_prop (Some json) "type") ;;
       credentials <- lift (get_prop (Some json) "credentials") ;;
       if negb (truthy type) || negb (truthy credentials) then
         ret (error_response "Type and credentials are required" 400)
       else
         valid <- lift (validateCredentials w (property_key w type) credentials) ;;
         if negb valid then
           ret (error_response "Invalid credentials for the selected type" 400)
         else
           r <- insert_single w "sources"
                  (JObj (prop "type" type ++ prop "credentials" credentials
                         ++ prop "organization" (option_map JStr orgId)
                         ++ prop "slug" slug)) ;;
           match pg_error r with
           | Some _ => ret (error_response "Failed to insert source" 500)
           | None =>
               ret (NextResponse_json [("data", row_json (pg_data r))] None)
           end)
      (fun error => ret (error_response "An unexpected error occurred" 500)).

End Sources.

(** ** The built-ins on strings of code units below 256, and sample worlds *)

Module Latin1.

Local Open Scope string_scope.

Definition between (lo hi n : N) : bool := (N.leb lo n && N.leb n hi)%bool.

(** Upper-case letters are A-Z and U+00C0-U+00DE without U+00D7. *)
Definition lower (c : ascii) : ascii :=
  let n := N_of_ascii c in
  if (between 65 90 n || (between 192 222 n && negb (N.eqb n 215)))%bool
  then ascii_of_N (n + 32)
  else c.

Fixpoint toLowerCase (s : string) : string :=
  match s with
  | EmptyString => EmptyString
  | String c rest => String (lower c) (toLowerCase rest)
  end.

(** Tab, line feed, vertical tab, form feed, carriage return, space and
    no-break space. *)
Definition is_space (c : ascii) : bool :=
  let n := N_of_ascii c in
  (between 9 13 n || N.eqb n 32 || N.eqb n 160)%bool.

Fixpoint trimStart (l : list ascii) : list ascii :=
  match l with
  | [] => []
  | c :: rest => if is_space c then trimStart rest else l
  end.

Definition trim (s : string) : string :=
  string_of_list_ascii
    (rev (trimStart (rev (trimStart (list_ascii_of_string s))))).

Definition hex (n : N) : ascii :=
  if N.ltb n 10 then ascii_of_N (48 + n) else ascii_of_N (87 + n).

Definition backslash : ascii := ascii_of_N 92.
Definition quote : ascii := ascii_of_N 34.

Definition escape (c : ascii) : string :=
  let n := N_of_ascii c in
  if N.eqb n 34 then String backslash (String quote EmptyString)
  else if N.eqb n 92 then String backslash (String backslash EmptyString)
  else if N.eqb n 8 then String backslash "b"
  else if N.eqb n 9 then String backslash "t"
  else if N.eqb n 10 then String backslash "n"
  else if N.eqb n 12 then String backslash "f"
  else if N.eqb n 13 then String backslash "r"
  else if N.ltb n 32 then
    String backslash
      ("u00" ++ String (hex (N.div n 16)) (String (hex (N.modulo n 16)) EmptyString))
  else String c EmptyString.

Fixpoint escaped (s : string) : string :=
  match s with
  | EmptyString => EmptyString
  | String c rest => escape c ++ escaped rest
  end.

Definition quoted (s : string) : string :=
  String quote (escaped s ++ String quote EmptyString).

(** Whole numbers print as their decimal digits, as JavaScript prints them
    below 10^21.  No sample world serialises another number; for one, the
    text below is a placeholder. *)
Definition number_text (q : Q) : string :=
  let r := Qred q in
  match Qden r with
  | xH => NilZero.string_of_int (Z.to_int (Qnum r))
  | _ => NilZero.string_of_int (Z.to_int (Qnum r)) ++ "/"
         ++ NilZero.string_of_int (Z.to_int (Zpos (Qden r)))
  end.

Fixpoint join (sep : string) (l : list string) : string :=
  match l with
  | [] => EmptyString
  | [x] => x
  | x :: rest => x ++ sep ++ join sep rest
  end.

Fixpoint stringify (v : JSON) : string :=
  match v with
  | JNull => "null"
  | JBool true => "true"
  | JBool false => "false"
  | JNum q => number_text q
  | JStr s => quoted s
  | JArr items => "[" ++ join "," (map stringify items) ++ "]"
  | JObj props =>
      "{" ++ join "," (map (fun kv : string * JSON => let (k, x) := kv in
                                      quoted k ++ ":" ++ stringify x) props)
      ++ "}"
  end.

(** [String(v)] of a value that is not a string. *)
Fixpoint toString (v : JSON) : string :=
  match v with
  | JNull => "null"
  | JBool true => "true"
  | JBool false => "false"
  | JNum q => number_text q
  | JStr s => s
  | JArr items =>
      join "," (map (fun x => match x with JNull => EmptyString | _ => toString x end)
                    items)
  | JObj _ => "[object Object]"
  end.

End Latin1.

Module Sample.

Definition world
  (req : nat -> Outcome JSON)
  (tables : nat -> Outcome ShowTablesResponse)
  (rows : nat -> string -> Outcome JSON)
  (ins : string -> JSON -> Outcome PostgrestSingle)
  (gh : DispatchRequest -> Outcome unit)
  (ft : string -> FetchInit -> Outcome FetchResponse)
  (who : ClerkAuth) : World :=
  {| String_toLowerCase := Latin1.toLowerCase;
     String_trim := Latin1.trim;
     JSON_stringify := Latin1.stringify;
     ToPropertyKey := Latin1.toString;
     request_json := req;
     ClickhouseClient := fun _ => Ok tt;
     show_tables := tables;
     select_rows := rows;
     supabase_insert := ins;
     octokit_request := gh;
     fetch := ft;
     auth := who |}.

Definition created (id : string) : Outcome PostgrestSingle :=
  Ok {| pg_data := Some id; pg_error := None |}.

Definition member : ClerkAuth :=
  {| userId := Some "user_1"; orgId := Some "org_1";
     orgSlug := Some (JStr "acme") |}.

Definition accepted : FetchResponse := {| ok := true; statusText := "No Content" |}.

(** The request of the end-to-end scenario, with the given credentials
    and destination options. *)
Definition request (link : string) (creds : list (string * JSON))
  (opts : list (string * JSON)) : JSON :=
  JObj [("organization", JStr "org_1");
        ("internal_warehouse", JStr "wh_1");
        ("link_type", JStr link);
        ("internal_credentials", JObj creds);
        ("destination_config",
          JObj ([("type", JStr "warehouse"); ("credentials", JObj [])] ++ opts))].

Definition clickhouse_credentials : list (string * JSON) :=
  [("host", JStr "h"); ("username", JStr "u"); ("password", JStr "p");
   ("database", JStr "d")].

Definition scenario_request : JSON :=
  request "ClickHouse" clickhouse_credentials [].

Definition events_table : Outcome ShowTablesResponse :=
  Ok {| data := [ {| name := "events" |} ] |}.

Definition no_tables : Outcome ShowTablesResponse := Ok {| data := [] |}.

Definition refused {A} : Outcome A :=
  Throw (ErrorObj "connect ECONNREFUSED 127.0.0.1:8123").

(** The scenario as it goes well: one empty table, the row is created as
    [job-1], the workflow is accepted. *)
Definition happy (req : JSON) : World :=
  world (fun _ => Ok req) (fun _ => events_table) (fun _ _ => Ok (JArr []))
        (fun _ _ => created "job-1") (fun _ => Ok tt) (fun _ _ => Ok accepted)
        member.

(** The scenario with a [batchSize] among the destination options. *)
Definition with_batchSize (v : JSON) : World :=
  happy (request "ClickHouse" clickhouse_credentials
           [("options", JObj [("batchSize", v)])]).

(** The source exposes no table. *)
Definition empty_source : World :=
  world (fun _ => Ok scenario_request) (fun _ => no_tables)
        (fun _ _ => Ok (JArr [])) (fun _ _ => created "job-1")
        (fun _ => Ok tt) (fun _ _ => Ok accepted) member.

(** The source refuses every statement. *)
Definition unreachable (req : JSON) : World :=
  world (fun _ => Ok req) (fun _ => refused) (fun _ _ => refused)
        (fun _ _ => created "job-1") (fun _ => Ok tt) (fun _ _ => Ok accepted)
        member.

(** The body is not JSON. *)
Definition malformed : World :=
  world (fun _ => Throw (ErrorObj "Unexpected token < in JSON at position 0"))
        (fun _ => events_table) (fun _ _ => Ok (JArr []))
        (fun _ _ => created "job-1") (fun _ => Ok tt) (fun _ _ => Ok accepted)
        member.

(** The workflow trigger is rejected, through Octokit and through fetch. *)
Definition dispatch_rejected : World :=
  world (fun _ => Ok scenario_request) (fun _ => events_table)
        (fun _ _ => Ok (JArr [])) (fun _ _ => created "job-1")
        (fun _ => Throw (ErrorObj "Not Found"))
        (fun _ _ => Ok {| ok := false; statusText := "Not Found" |})
        member.

(** The store answers with neither a row nor an error. *)
Definition silent_store : World :=
  world (fun _ => Ok scenario_request) (fun _ => events_table)
        (fun _ _ => Ok (JArr []))
        (fun _ _ => Ok {| pg_data := None; pg_error := None |})
        (fun _ => Ok tt) (fun _ _ => Ok accepted) member.

End Sample.

(** ** Vocabulary of the statements *)

(** What a run between [s] and [s'] may do when it only talks to the source:
    statements are logged and counted, nothing else moves. *)
Definition source_only (s s' : State) : Prop :=
  db s' = db s /\ syncId s' = syncId s /\ reads s' = reads s
  /\ queries s <= queries s'
  /\ exists sqls, log s' = log s ++ map EvQuery sqls.

(** The log of [s'] continues the log of [s]. *)
Definition extends (s s' : State) : Prop :=
  exists events, log s' = log s ++ events.

(** The value under a path of keys. *)
Fixpoint at_path (p : list string) (v : JSON) : JsValue :=
  match p with
  | [] => Some v
  | k :: rest =>
      match v with
      | JObj props =>
          match lookup k props with
          | Some x => at_path rest x
          | None => None
          end
      | _ => None
      end
  end.


(** A number is a positive integer. *)
Definition positive_integer (q : Q) : Prop :=
  exists n : positive, Qeq q (inject_Z (Zpos n)).

(** The row the store holds after a successful insert. *)
Definition sync_row (id : string) (fields : JSON) : Row :=
  {| row_table := "syncs"; row_id := id; row_fields := fields |}.

(** The state in which the validating handler starts its work on the body. *)
Definition after_read (s : State) : State := count_read (set_syncId None s).

(** ** The other handlers of the source-registration route (part_001) *)

Module SourcesRest.

(** The calls the two handlers make on the store. *)
Inductive StoreCall : Type :=
| SelectEq (table column value : string)
| DeleteEq (table column : string) (value : JsValue).

(** [{ data, error }] of a select that may return many rows. *)
Record PostgrestMany : Type :=
  { many_data : option (list JSON); many_error : option PostgrestError }.

(** The store as these handlers see it:
    [from(table).select('*').eq(column, value)] and
    [from(table).delete().eq(column, value)]. *)
Record Store : Type :=
  { select_eq : string -> string -> string -> Outcome PostgrestMany;
    delete_eq : string -> string -> JsValue -> Outcome (option PostgrestError) }.

(** [searchParams.get(k)]: the first value under [k], or null. *)
Fixpoint searchParams_get (k : string) (params : list (string * string))
  : option string :=
  match params with
  | [] => None
  | (k', v) :: rest => if String.eqb k k' then Some v else searchParams_get k rest
  end.

Definition rows_json (rows : option (list JSON)) : JSON :=
  match rows with
  | Some l => JArr l
  | None => JNull
  end.

(** Lines 6-25: the response or the throw, and the store calls made. *)
Definition GET (st : Store) (searchParams : list (string * string))
  : Outcome NextResponse * list StoreCall :=
  let organizationId := searchParams_get "organizationId" searchParams in
  if negb (Sources.truthy_string organizationId) then
    (Ok (Sources.error_response "Organization ID is required" 400), [])
  else
    match organizationId with
    | None => (Ok (Sources.error_response "Organization ID is required" 400), [])
    | Some id =>
        let calls := [SelectEq "sources" "organization" id] in
        match select_eq st "sources" "organization" id with
        | Throw e => (Throw e, calls)
        | Ok r =>
            match many_error r with
            | Some error => (Ok (Sources.error_response (pg_message error) 500), calls)
            | None =>
                (Ok (NextResponse_json [("sources", rows_json (many_data r))] None),
                 calls)
            end
        end
    end.


End SourcesRest.

(** ** Further vocabulary and sample worlds *)

(** The credentials hold a string under [f] that is neither empty nor
    blank. *)
Definition filled (w : World) (creds : list (string * JSON)) (f : string) : Prop :=
  exists v,
    lookup f creds = Some (JStr v)
    /\ v <> EmptyString /\ String_trim w v <> EmptyString.

(** A key that an assignment appends to the own properties of an object
    literal: it is neither [__proto__] nor an array index. *)
Definition plain_key (k : string) : Prop :=
  k <> "__proto__" /\ array_index k = None.

(** The end of a handler after its insert: the response built from what the
    store reported, or the catch-all outcome when the insert rejected. *)
Definition insert_then (respond : PostgrestSingle -> NextResponse)
  (caught : Outcome NextResponse) (run : Outcome PostgrestSingle * State)
  : Outcome NextResponse * State :=
  match run with
  | (Ok r, s') => (Ok (respond r), s')
  | (Throw _, s') => (caught, s')
  end.

(** Between [s] and [s'] the store kept every row, in place, and gained at
    most one. *)
Definition grows (s s' : State) : Prop :=
  exists rows, db s' = db s ++ rows /\ length rows <= 1.

(** The statements that read the tables, one per name. *)
Definition select_events (names : list string) : list Event :=
  map (fun table => EvQuery (Route.select_query table)) names.

Module Cases.

(** A request whose body can be read once. *)
Definition single_read : World :=
  Sample.world
    (fun k => match k with
              | O => Ok Sample.scenario_request
              | S _ => Throw (ErrorObj "Body is unusable: Body has already been read")
              end)
    (fun _ => Sample.events_table) (fun _ _ => Ok (JArr []))
    (fun _ _ => Sample.created "job-1") (fun _ => Ok tt)
    (fun _ _ => Ok Sample.accepted) Sample.member.

(** The source lists [events] and [users]; reading [users] fails. *)
Definition second_table_fails : World :=
  Sample.world
    (fun _ => Ok Sample.scenario_request)
    (fun _ => Ok {| data := [ {| name := "events" |}; {| name := "users" |};
                              {| name := "orders" |} ] |})
    (fun k _ => match k with
                | 2 => Throw (ErrorObj "Table default.users does not exist")
                | _ => Ok (JArr [])
                end)
    (fun _ _ => Sample.created "job-1") (fun _ => Ok tt)
    (fun _ _ => Ok Sample.accepted) Sample.member.

(** The store refuses the insert. *)
Definition store_refuses : World :=
  Sample.world
    (fun _ => Ok Sample.scenario_request) (fun _ => Sample.events_table)
    (fun _ _ => Ok (JArr []))
    (fun _ _ => Ok {| pg_data := None;
                      pg_error := Some {| pg_message := "permission denied" |} |})
    (fun _ => Ok tt) (fun _ _ => Ok Sample.accepted) Sample.member.

(** The source answers the first SHOW TABLES and refuses the later ones. *)
Definition source_goes_away : World :=
  Sample.world
    (fun _ => Ok Sample.scenario_request)
    (fun k => match k with
              | O => Sample.events_table
              | S _ => Sample.refused
              end)
    (fun _ _ => Ok (JArr []))
    (fun _ _ => Sample.created "job-1") (fun _ => Ok tt)
    (fun _ _ => Ok Sample.accepted) Sample.member.

(** A registration of a ClickHouse source. *)
Definition registration (creds : list (string * JSON)) : World :=
  Sample.happy (JObj [("type", JStr "clickhouse"); ("credentials", JObj creds);
                      ("organization", JStr "org_other")]).

Definition full_credentials : list (string * JSON) :=
  [("host", JStr "h"); ("port", JStr "8123"); ("database", JStr "d");
   ("user", JStr "u"); ("password", JStr "p")].

Definition numeric_port : list (string * JSON) :=
  [("host", JStr "h"); ("port", JNum (inject_Z 8123)); ("database", JStr "d");
   ("user", JStr "u"); ("password", JStr "p")].


End Cases.

(** * Properties *)

(** ** The scenario of the specification, run *)

Example toLowerCase_ClickHouse : Latin1.toLowerCase "ClickHouse" = "clickhouse".
Proof. reflexivity. Qed.

Example trim_spaces : Latin1.trim "  a b  " = "a b".
Proof. reflexivity. Qed.

(** The request of the scenario against a source with the one empty table
    [events]: the row has [link_type] "clickhouse" and the default options,
    the dispatch carries the snapshot with the one empty table, the answer
    is the success response with the id of the row. *)
Example scenario_end_to_end :
  exists s' fields req,
    Route.POST (Sample.happy Sample.scenario_request) (initial [])
    = (Ok (Route.initiated (Some "job-1")), s')
    /\ db s' = [sync_row "job-1" fields]
    /\ at_path ["link_type"] fields = Some (JStr "clickhouse")
    /\ at_path ["destination_config"; "options"] fields
       = Some (Options_json default_options)
    /\ last (log s') (EvQuery EmptyString) = EvDispatch req
    /\ inputs_data req = ("{" ++ Latin1.quoted "events" ++ ":[]}")%string.
Proof.
  do 3 eexists. split; [vm_compute; reflexivity|].
  repeat split; reflexivity.
Qed.

(** The validator gives every issue at once: an empty organization and a
    key outside the schema are both reported. *)
Example issues_are_collected :
  requestSchema_safeParse
    (JObj [("organization", JStr EmptyString); ("extra", JNull)])
  = ParseFail
      [issue too_small ["organization"];
       issue invalid_type ["internal_warehouse"];
       issue invalid_type ["link_type"];
       issue invalid_type ["internal_credentials"];
       issue invalid_type ["destination_config"];
       issue (unrecognized_keys ["extra"]) []].
Proof. reflexivity. Qed.

(** ** The source helpers only talk to the source *)

Lemma source_only_refl : forall s, source_only s s.
Proof.
  intro s. repeat split; auto. exists []. cbn. now rewrite app_nil_r.
Qed.

Lemma source_only_trans :
  forall s1 s2 s3, source_only s1 s2 -> source_only s2 s3 -> source_only s1 s3.
Proof.
  intros s1 s2 s3 (D1 & I1 & R1 & Q1 & l1 & L1) (D2 & I2 & R2 & Q2 & l2 & L2).
  repeat split; try congruence; try lia.
  exists (l1 ++ l2). rewrite L2, L1, map_app, app_assoc. reflexivity.
Qed.

Lemma source_only_query :
  forall s sql, source_only s (count_query (log_event (EvQuery sql) s)).
Proof.
  intros s sql. repeat split; cbn; auto. exists [sql]. reflexivity.
Qed.

(** [getAllTables], step by step. *)
Lemma getAllTables_eq :
  forall w credentials s,
    Route.getAllTables w credentials s =
    match ClickhouseClient w (Route.client_options credentials) with
    | Throw e => (Throw e, s)
    | Ok _ =>
        (match show_tables w (queries s) with
         | Ok tables => Ok (map name (data tables))
         | Throw e => Throw e
         end,
         count_query (log_event (EvQuery "SHOW TABLES") s))
    end.
Proof.
  intros w credentials s.
  unfold Route.getAllTables, try_catch, bind, lift, query_show_tables, ret, throw.
  destruct (ClickhouseClient w _); [|reflexivity].
  destruct (show_tables w (queries s)); reflexivity.
Qed.

Lemma getAllTables_source_only :
  forall w credentials s o s',
    Route.getAllTables w credentials s = (o, s') -> source_only s s'.
Proof.
  intros w credentials s o s' H. rewrite getAllTables_eq in H.
  destruct (ClickhouseClient w _); inversion H; subst.
  - apply source_only_query.
  - apply source_only_refl.
Qed.

Lemma for_each_table_cons :
  forall w table rest acc s,
    Route.for_each_table w (table :: rest) acc s =
    let s1 := count_query (log_event (EvQuery (Route.select_query table)) s) in
    match select_rows w (queries s) (Route.select_query table) with
    | Ok tableData =>
        Route.for_each_table w rest (set_prop table tableData acc) s1
    | Throw e => (Throw e, s1)
    end.
Proof. reflexivity. Qed.

Lemma for_each_table_source_only :
  forall w tables acc s o s',
    Route.for_each_table w tables acc s = (o, s') -> source_only s s'.
Proof.
  intros w tables. induction tables as [|table rest IH]; intros acc s o s' H.
  - inversion H; subst. apply source_only_refl.
  - rewrite for_each_table_cons in H.
    destruct (select_rows w (queries s) (Route.select_query table)).
    + eapply source_only_trans; [apply source_only_query|]. eapply IH, H.
    + inversion H; subst. apply source_only_query.
Qed.

(** [getTableData], step by step. *)
Lemma getTableData_eq :
  forall w credentials s,
    Route.getTableData w credentials s =
    match ClickhouseClient w (Route.client_options credentials) with
    | Throw e => (Throw e, s)
    | Ok _ =>
        match Route.getAllTables w credentials s with
        | (Ok tables, s1) => Route.for_each_table w tables empty_object s1
        | (Throw e, s1) => (Throw e, s1)
        end
    end.
Proof.
  intros w credentials s.
  unfold Route.getTableData, try_catch, bind, lift, ret, throw.
  destruct (ClickhouseClient w _); [|reflexivity].
  destruct (Route.getAllTables w credentials s) as [[tables|e] s1]; [|reflexivity].
  destruct (Route.for_each_table w tables empty_object s1) as [[d|e] s2]; reflexivity.
Qed.

Lemma getTableData_source_only :
  forall w credentials s o s',
    Route.getTableData w credentials s = (o, s') -> source_only s s'.
Proof.
  intros w credentials s o s' H. rewrite getTableData_eq in H.
  destruct (ClickhouseClient w _).
  - destruct (Route.getAllTables w credentials s) as [[tables|e] s1] eqn:E.
    + eapply source_only_trans.
      * eapply getAllTables_source_only, E.
      * eapply for_each_table_source_only, H.
    + inversion H; subst. eapply getAllTables_source_only, E.
  - inversion H; subst. apply source_only_refl.
Qed.

Lemma source_only_inserts :
  forall s s' table payload,
    source_only s s' ->
    In (EvInsert table payload) (log s') -> In (EvInsert table payload) (log s).
Proof.
  intros s s' table payload (_ & _ & _ & _ & sqls & L) H.
  rewrite L in H. apply in_app_or in H. destruct H as [H|H]; [exact H|].
  apply in_map_iff in H. destruct H as (sql & E & _). discriminate E.
Qed.

Lemma source_only_dispatches :
  forall s s' req,
    source_only s s' ->
    In (EvDispatch req) (log s') -> In (EvDispatch req) (log s).
Proof.
  intros s s' req (_ & _ & _ & _ & sqls & L) H.
  rewrite L in H. apply in_app_or in H. destruct H as [H|H]; [exact H|].
  apply in_map_iff in H. destruct H as (sql & E & _). discriminate E.
Qed.

(** ** The validating handler, step by step *)

Lemma dispatch_eq :
  forall w body data s,
    Route.dispatch w body data s =
    let req := Route.dispatch_request w body data in
    let s1 := log_event (EvDispatch req) s in
    match octokit_request w req with
    | Ok _ => (Ok (Route.initiated (syncId s)), s1)
    | Throw githubError =>
        match Route.thrown_message githubError with
        | Ok details => (Ok (Route.github_error (syncId s) details), s1)
        | Throw e => (Throw e, s1)
        end
    end.
Proof.
  intros w body data s.
  unfold Route.dispatch, bind, try_catch, octokit_call, lift, ret, get_syncId.
  cbv zeta.
  destruct (octokit_request w _) as [[]|ge]; [reflexivity|].
  destruct (Route.thrown_message ge); reflexivity.
Qed.

Lemma process_eq :
  forall w body s,
    Route.process w body s =
    match Route.getTableData w (internal_credentials body) s with
    | (Throw e, s1) => (Throw e, s1)
    | (Ok data, s1) =>
        match Route.getAllTables w (internal_credentials body) s1 with
        | (Throw e, s2) => (Throw e, s2)
        | (Ok _, s2) =>
            let record := Route.sync_record w body in
            let s3 := log_event (EvInsert "syncs" record) s2 in
            match supabase_insert w "syncs" record with
            | Throw e => (Throw e, s3)
            | Ok r =>
                match pg_error r with
                | Some syncError => (Ok (Route.database_error syncError), s3)
                | None =>
                    match pg_data r with
                    | None => (Ok Route.no_data_returned, s3)
                    | Some id =>
                        Route.dispatch w body data
                          (set_syncId (Some id) (add_row (sync_row id record) s3))
                    end
                end
            end
        end
    end.
Proof.
  intros w body s. unfold Route.process, bind, assign_syncId.
  destruct (Route.getTableData w _ s) as [[data|e] s1]; [|reflexivity].
  destruct (Route.getAllTables w _ s1) as [[tables|e] s2]; [|reflexivity].
  unfold insert_single. cbv zeta.
  destruct (supabase_insert w "syncs" _) as [[d er]|e]; [|reflexivity].
  destruct er, d; reflexivity.
Qed.

Lemma POST_eq :
  forall w s,
    Route.POST w s =
    match request_json w (reads s) with
    | Throw e => (Ok (Route.process_failed None e), after_read s)
    | Ok rawBody =>
        match requestSchema_safeParse rawBody with
        | ParseFail issues => (Ok (Route.validation_failed issues), after_read s)
        | ParseOk body =>
            match Route.process w body (after_read s) with
            | (Ok response, s') => (Ok response, s')
            | (Throw e, s') => (Ok (Route.process_failed (syncId s') e), s')
            end
        end
    end.
Proof.
  intros w s.
  unfold Route.POST, bind, try_catch, request_json_call, ret, get_syncId,
    assign_syncId.
  cbn [reads set_syncId]. fold (after_read s).
  destruct (request_json w (reads s)) as [rawBody|e]; [|reflexivity].
  destruct (requestSchema_safeParse rawBody) as [body|issues]; [|reflexivity].
  destruct (Route.process w body (after_read s)) as [[response|e] s']; reflexivity.
Qed.

(** The validating handler answers every request: whatever the world does,
    the run ends in a response. *)
Lemma POST_always_responds :
  forall w s, exists response s', Route.POST w s = (Ok response, s').
Proof.
  intros w s. rewrite POST_eq.
  destruct (request_json w (reads s)) as [rawBody|e]; [|eauto].
  destruct (requestSchema_safeParse rawBody) as [body|issues]; [|eauto].
  destruct (Route.process w body (after_read s)) as [[response|e] s']; eauto.
Qed.

(** X22.  When the snapshot cannot be extracted, or the table list cannot be
    read again, the validating handler answers 500 with a null [syncId] and
    the thrown message, and has not touched the store. *)
Lemma extraction_failure_response :
  forall w s rawBody body e s',
    request_json w (reads s) = Ok rawBody ->
    requestSchema_safeParse rawBody = ParseOk body ->
    (Route.getTableData w (internal_credentials body) (after_read s) = (Throw e, s')
     \/ exists data s1,
          Route.getTableData w (internal_credentials body) (after_read s)
          = (Ok data, s1)
          /\ Route.getAllTables w (internal_credentials body) s1 = (Throw e, s')) ->
    Route.POST w s = (Ok (Route.process_failed None e), s')
    /\ status (Route.process_failed None e) = 500
    /\ field "syncId" (Route.process_failed None e) = Some JNull
    /\ db s' = db s
    /\ forall table payload,
         In (EvInsert table payload) (log s') -> In (EvInsert table payload) (log s).
Proof.
  intros w s rawBody body e s' Hreq Hparse Hfail.
  assert (Hs : source_only (after_read s) s').
  { destruct Hfail as [H|(data & s1 & H1 & H2)].
    - eapply getTableData_source_only, H.
    - eapply source_only_trans.
      + eapply getTableData_source_only, H1.
      + eapply getAllTables_source_only, H2. }
  assert (Hid : syncId s' = None) by (destruct Hs as (_ & I & _); exact I).
  split; [|split; [reflexivity|split; [reflexivity|split]]].
  - rewrite POST_eq, Hreq, Hparse, process_eq.
    destruct Hfail as [H|(data & s1 & H1 & H2)].
    + rewrite H, Hid. reflexivity.
    + rewrite H1, H2, Hid. reflexivity.
  - destruct Hs as (D & _). exact D.
  - intros table payload H. apply (source_only_inserts _ _ _ _ Hs) in H. exact H.
Qed.

(** ** The earlier revision: what precedes its [try] is not caught *)

Lemma early_getAllTables_eq :
  forall w s,
    RouteEarly.getAllTables w s =
    match request_json w (reads s) with
    | Throw e => (Throw e, count_read s)
    | Ok body =>
        match RouteEarly.client_options body with
        | Throw e => (Throw e, count_read s)
        | Ok opts =>
            match ClickhouseClient w opts with
            | Throw e => (Throw e, count_read s)
            | Ok _ =>
                (match show_tables w (queries s) with
                 | Ok tables => Ok (map name (data tables))
                 | Throw e => Throw e
                 end,
                 count_query (log_event (EvQuery "SHOW TABLES") (count_read s)))
            end
        end
    end.
Proof.
  intros w s.
  unfold RouteEarly.getAllTables, try_catch, bind, request_json_call, lift,
    query_show_tables, ret, throw.
  destruct (request_json w (reads s)) as [body|e]; [|reflexivity].
  destruct (RouteEarly.client_options body) as [opts|e]; [|reflexivity].
  destruct (ClickhouseClient w opts); [|reflexivity].
  cbn [queries count_read].
  destruct (show_tables w (queries s)); reflexivity.
Qed.

Lemma early_getTableData_eq :
  forall w s,
    RouteEarly.getTableData w s =
    match request_json w (reads s) with
    | Throw e => (Throw e, count_read s)
    | Ok body =>
        match RouteEarly.client_options body with
        | Throw e => (Throw e, count_read s)
        | Ok opts =>
            match ClickhouseClient w opts with
            | Throw e => (Throw e, count_read s)
            | Ok _ =>
                match RouteEarly.getAllTables w (count_read s) with
                | (Ok tables, s1) => Route.for_each_table w tables empty_object s1
                | (Throw e, s1) => (Throw e, s1)
                end
            end
        end
    end.
Proof.
  intros w s.
  unfold RouteEarly.getTableData, try_catch, bind, request_json_call, lift,
    ret, throw.
  destruct (request_json w (reads s)) as [body|e]; [|reflexivity].
  destruct (RouteEarly.client_options body) as [opts|e]; [|reflexivity].
  destruct (ClickhouseClient w opts); [|reflexivity].
  destruct (RouteEarly.getAllTables w (count_read s)) as [[tables|e] s1];
    [|reflexivity].
  destruct (Route.for_each_table w tables empty_object s1) as [[d|e] s2]; reflexivity.
Qed.

(** A failure of the extraction leaves the earlier revision's handler as a
    throw: line 298 stands before the [try] of line 299. *)
Lemma early_POST_extraction_throw :
  forall w s e s',
    RouteEarly.getTableData w (set_syncId None s) = (Throw e, s') ->
    RouteEarly.POST w s = (Throw e, s').
Proof.
  intros w s e s' H. unfold RouteEarly.POST, bind, assign_syncId.
  rewrite H. reflexivity.
Qed.

Lemma early_getAllTables_db :
  forall w s o s', RouteEarly.getAllTables w s = (o, s') -> db s' = db s.
Proof.
  intros w s o s' H. rewrite early_getAllTables_eq in H.
  destruct (request_json w (reads s)) as [body|e]; [|now inversion H].
  destruct (RouteEarly.client_options body) as [opts|e]; [|now inversion H].
  destruct (ClickhouseClient w opts); now inversion H.
Qed.

(** C1 on the earlier revision.  While the source refuses SHOW TABLES, every
    request to the earlier revision's handler ends in a throw out of [POST]:
    no response is built, with or without a job id.  The store is left as it
    was. *)
Theorem early_extraction_failure_unhandled :
  forall w s,
    (forall k, exists e, show_tables w k = Throw e) ->
    exists e s', RouteEarly.POST w s = (Throw e, s') /\ db s' = db s.
Proof.
  intros w s Hdown.
  assert (H : exists e s',
             RouteEarly.getTableData w (set_syncId None s) = (Throw e, s')
             /\ db s' = db s).
  { rewrite early_getTableData_eq.
    destruct (request_json w _) as [body|e]; [|eauto].
    destruct (RouteEarly.client_options body) as [opts|e]; [|eauto].
    destruct (ClickhouseClient w opts); [|eauto].
    destruct (RouteEarly.getAllTables w _) as [[tables|e] s1] eqn:E.
    - exfalso. rewrite early_getAllTables_eq in E.
      destruct (request_json w _) as [body'|e]; [|discriminate E].
      destruct (RouteEarly.client_options body') as [opts'|e]; [|discriminate E].
      destruct (ClickhouseClient w opts'); [|discriminate E].
      destruct (Hdown (queries (count_read (set_syncId None s)))) as (e & He).
      rewrite He in E. discriminate E.
    - exists e, s1. split; [reflexivity|].
      apply early_getAllTables_db in E. exact E. }
  destruct H as (e & s' & H & D).
  exists e, s'. split; [|exact D]. apply early_POST_extraction_throw, H.
Qed.

Lemma early_extraction_failure_unhandled_witness :
  exists e s',
    RouteEarly.POST (Sample.unreachable Sample.scenario_request) (initial [])
    = (Throw e, s')
    /\ db s' = db (initial []).
Proof.
  apply early_extraction_failure_unhandled.
  intro k. exists (ErrorObj "connect ECONNREFUSED 127.0.0.1:8123"). reflexivity.
Defined.

(** C3 on the earlier revision.  A body that cannot be parsed makes the
    earlier revision's handler throw: the error of [request.json()] raised
    at line 264 leaves [POST], and the response prepared for it inside the
    [try] is never built. *)
Theorem early_malformed_body_unhandled :
  forall w s e,
    request_json w (reads s) = Throw e ->
    RouteEarly.POST w s = (Throw e, after_read s).
Proof.
  intros w s e H. apply early_POST_extraction_throw.
  rewrite early_getTableData_eq. cbn [reads set_syncId]. rewrite H. reflexivity.
Qed.

Lemma early_malformed_body_unhandled_witness :
  RouteEarly.POST Sample.malformed (initial [])
  = (Throw (ErrorObj "Unexpected token < in JSON at position 0"),
     after_read (initial [])).
Proof.
  apply early_malformed_body_unhandled. reflexivity.
Defined.

(** X24.  When the body can be read once only, as a request body is, no
    request gets a response from the earlier revision: the second
    [request.json()] rejects inside the extraction, before the [try]. *)
Lemma early_single_read_unhandled :
  forall w s,
    (forall k, reads s < k -> exists e, request_json w k = Throw e) ->
    exists e s', RouteEarly.POST w s = (Throw e, s').
Proof.
  intros w s Honce.
  assert (H : exists e s',
             RouteEarly.getTableData w (set_syncId None s) = (Throw e, s')).
  { rewrite early_getTableData_eq.
    destruct (request_json w _) as [body|e]; [|eauto].
    destruct (RouteEarly.client_options body) as [opts|e]; [|eauto].
    destruct (ClickhouseClient w opts); [|eauto].
    rewrite early_getAllTables_eq. cbn [reads count_read set_syncId].
    destruct (Honce (S (reads s))) as (e & He); [lia|].
    rewrite He. eauto. }
  destruct H as (e & s' & H). exists e, s'.
  apply early_POST_extraction_throw, H.
Qed.

(** ** The handler of part_003, step by step *)

Lemma legacy_POST_eq :
  forall w s,
    RouteLegacy.POST w s =
    let fail := fun id e s' => (Ok (Route.process_failed id e), s') in
    match request_json w (reads s) with
    | Throw e => fail None e (after_read s)
    | Ok body =>
        match get_prop (Some body) "link_type" with
        | Throw e => fail None e (after_read s)
        | Ok link =>
            match RouteLegacy.call_toLowerCase w link with
            | Throw e => fail None e (after_read s)
            | Ok _ =>
                let record := RouteLegacy.sync_record (RouteLegacy.props_of body) in
                let s1 := log_event (EvInsert "syncs" record) (after_read s) in
                match supabase_insert w "syncs" record with
                | Throw e => fail None e s1
                | Ok r =>
                    match pg_error r, pg_data r with
                    | Some syncError, _ =>
                        fail None
                          (ErrorObj ("Failed to create sync record: "
                                     ++ pg_message syncError)) s1
                    | None, None => fail None (TypeError_read "null" "id") s1
                    | None, Some id =>
                        let init :=
                          RouteLegacy.dispatch_init w (RouteLegacy.props_of body) in
                        let s2 :=
                          log_event (EvFetch RouteLegacy.dispatch_url init)
                            (set_syncId (Some id)
                               (add_row (sync_row id record) s1)) in
                        match RouteLegacy.dispatch_failure
                                (fetch w RouteLegacy.dispatch_url init) with
                        | Some e => fail (Some id) e s2
                        | None => (Ok (RouteLegacy.completed (Some id)), s2)
                        end
                    end
                end
            end
        end
    end.
Proof.
  intros w s.
  unfold RouteLegacy.POST, bind, try_catch, request_json_call, lift, ret, throw,
    get_syncId, assign_syncId, insert_single, fetch_call,
    RouteLegacy.dispatch_failure.
  cbn [reads set_syncId]. fold (after_read s). cbv zeta.
  destruct (request_json w (reads s)) as [body|e]; [|reflexivity].
  destruct (get_prop (Some body) "link_type") as [link|e]; [|reflexivity].
  destruct (RouteLegacy.call_toLowerCase w link) as [l|e]; [|reflexivity].
  destruct (supabase_insert w "syncs" _) as [[d er]|e]; [|reflexivity].
  destruct er as [er|], d as [id|]; try reflexivity.
  cbn [pg_error pg_data].
  destruct (fetch w _ _) as [[isok txt]|e]; [|reflexivity].
  destruct isok; reflexivity.
Qed.

(** ** Dispatch failure after the row is created *)

(** C2, as amended.  When the trigger fails after the row was created, both
    handlers answer [success: false] with the id of the row and leave the row
    in the store.  The validating handler answers 422 with the error
    'GitHub API error' and the message of the failure as details; the handler
    of part_003 answers 500 with the message as the error and no details. *)
Theorem dispatch_failure_keeps_job :
  (forall w s rawBody body data s1 tables s2 id m,
      request_json w (reads s) = Ok rawBody ->
      requestSchema_safeParse rawBody = ParseOk body ->
      Route.getTableData w (internal_credentials body) (after_read s)
      = (Ok data, s1) ->
      Route.getAllTables w (internal_credentials body) s1 = (Ok tables, s2) ->
      supabase_insert w "syncs" (Route.sync_record w body)
      = Ok {| pg_data := Some id; pg_error := None |} ->
      octokit_request w (Route.dispatch_request w body data)
      = Throw (ErrorObj m) ->
      exists response s',
        Route.POST w s = (Ok response, s')
        /\ status response = 422
        /\ field "success" response = Some (JBool false)
        /\ field "syncId" response = Some (JStr id)
        /\ field "error" response = Some (JStr "GitHub API error")
        /\ field "details" response = Some (JStr m)
        /\ db s' = db s ++ [sync_row id (Route.sync_record w body)])
  /\
  (forall w s body link lower id e,
      request_json w (reads s) = Ok body ->
      get_prop (Some body) "link_type" = Ok link ->
      RouteLegacy.call_toLowerCase w link = Ok lower ->
      supabase_insert w "syncs" (RouteLegacy.sync_record (RouteLegacy.props_of body))
      = Ok {| pg_data := Some id; pg_error := None |} ->
      RouteLegacy.dispatch_failure
        (fetch w RouteLegacy.dispatch_url
           (RouteLegacy.dispatch_init w (RouteLegacy.props_of body)))
      = Some e ->
      exists response s',
        RouteLegacy.POST w s = (Ok response, s')
        /\ status response = 500
        /\ field "success" response = Some (JBool false)
        /\ field "syncId" response = Some (JStr id)
        /\ field "error" response = Some (JStr (error_message e))
        /\ field "details" response = None
        /\ db s' = db s
                   ++ [sync_row id
                         (RouteLegacy.sync_record (RouteLegacy.props_of body))]).
Proof.
  split.
  - intros w s rawBody body data s1 tables s2 id m Hreq Hparse Hdata Htables
      Hins Hgh.
    assert (D1 : db s1 = db s).
    { apply getTableData_source_only in Hdata. destruct Hdata as (D & _).
      exact D. }
    assert (D2 : db s2 = db s1).
    { apply getAllTables_source_only in Htables. destruct Htables as (D & _).
      exact D. }
    rewrite POST_eq, Hreq, Hparse, process_eq, Hdata, Htables. cbv zeta.
    rewrite Hins. cbn [pg_error pg_data]. rewrite dispatch_eq. cbv zeta.
    rewrite Hgh. cbn [Route.thrown_message].
    eexists. eexists. split; [reflexivity|].
    repeat (split; [reflexivity|]).
    cbn. rewrite D2, D1. reflexivity.
  - intros w s body link lower id e Hreq Hlink Hlower Hins Hfail.
    rewrite legacy_POST_eq. cbv zeta.
    rewrite Hreq, Hlink, Hlower, Hins. cbn [pg_error pg_data].
    rewrite Hfail.
    eexists. eexists. split; [reflexivity|].
    repeat (split; [reflexivity|]). reflexivity.
Qed.

Lemma dispatch_failure_keeps_job_witness :
  (exists response s',
      Route.POST Sample.dispatch_rejected (initial []) = (Ok response, s')
      /\ status response = 422
      /\ field "success" response = Some (JBool false)
      /\ field "syncId" response = Some (JStr "job-1")
      /\ field "error" response = Some (JStr "GitHub API error")
      /\ field "details" response = Some (JStr "Not Found")
      /\ exists fields, db s' = db (initial []) ++ [sync_row "job-1" fields])
  /\
  (exists response s',
      RouteLegacy.POST Sample.dispatch_rejected (initial []) = (Ok response, s')
      /\ status response = 500
      /\ field "syncId" response = Some (JStr "job-1")
      /\ field "details" response = None
      /\ exists fields, db s' = db (initial []) ++ [sync_row "job-1" fields]).
Proof.
  split.
  - destruct (proj1 dispatch_failure_keeps_job
                Sample.dispatch_rejected (initial []) _ _ _ _ _ _ "job-1" "Not Found"
                eq_refl eq_refl eq_refl eq_refl eq_refl eq_refl)
      as (response & s' & H & H1 & H2 & H3 & H4 & H5 & H6).
    exists response, s'. repeat (split; [assumption|]). eexists. exact H6.
  - destruct (proj2 dispatch_failure_keeps_job
                Sample.dispatch_rejected (initial []) _ _ _ "job-1" _
                eq_refl eq_refl eq_refl eq_refl eq_refl)
      as (response & s' & H & H1 & H2 & H3 & H4 & H5 & H6).
    exists response, s'. repeat (split; [assumption|]). eexists. exact H6.
Defined.

(** C2 as stated fails on the handler of part_003: with the row [job-1]
    created and the trigger answered 'Not Found', the response carries the
    id but its status is 500 and it has no details. *)
Lemma legacy_dispatch_failure_is_500 :
  exists response s',
    RouteLegacy.POST Sample.dispatch_rejected (initial []) = (Ok response, s')
    /\ (exists fields, db s' = [sync_row "job-1" fields])
    /\ field "syncId" response = Some (JStr "job-1")
    /\ ~ (status response = 422 /\ field "details" response <> None).
Proof.
  eexists. eexists. split; [vm_compute; reflexivity|].
  split; [eexists; reflexivity|].
  split; [reflexivity|].
  cbn. intros [H _]. discriminate H.
Qed.

(** ** What the validator returns *)

Lemma destinationConfigSchema_inv :
  forall p v d,
    destinationConfigSchema p v = ParseOk d ->
    exists props,
      v = Some (JObj props)
      /\ options_schema (p ++ ["options"]) (lookup "options" props)
         = ParseOk (options d).
Proof.
  intros p v d H. unfold destinationConfigSchema in H.
  destruct v as [[| | | | |props]|]; try discriminate H.
  exists props. split; [reflexivity|].
  destruct (string_ _ _), (record_any _ _), (options_schema _ _),
    (strict _ _ _); try discriminate H.
  inversion H; subst. reflexivity.
Qed.

Lemma requestSchema_safeParse_inv :
  forall rawBody body,
    requestSchema_safeParse rawBody = ParseOk body ->
    exists props,
      rawBody = JObj props
      /\ lookup "link_type" props = Some (JStr (link_type body))
      /\ (exists creds,
            lookup "internal_credentials" props = Some (JObj creds)
            /\ internal_credentials body = without_proto creds)
      /\ destinationConfigSchema ["destination_config"]
           (lookup "destination_config" props)
         = ParseOk (destination_config body).
Proof.
  intros rawBody body H. unfold requestSchema_safeParse in H.
  destruct rawBody as [| | | | |props]; try discriminate H.
  exists props. split; [reflexivity|].
  destruct (string_min1 ["organization"] _); try discriminate H.
  destruct (string_min1 ["internal_warehouse"] _); try discriminate H.
  destruct (string_min1 ["link_type"] _) as [l|] eqn:El; try discriminate H.
  destruct (record_any _ _) as [c|] eqn:Ec; try discriminate H.
  destruct (destinationConfigSchema _ _) as [d|] eqn:Ed; try discriminate H.
  destruct (strict _ _ _); try discriminate H.
  inversion H; subst. cbn [link_type internal_credentials destination_config].
  repeat split.
  - unfold string_min1 in El.
    destruct (lookup "link_type" props) as [[| | |x| |]|]; try discriminate El.
    destruct (Nat.ltb _ _); [discriminate El|]. now inversion El.
  - unfold record_any in Ec.
    destruct (lookup "internal_credentials" props) as [[| | | | |x]|];
      try discriminate Ec.
    exists x. split; [reflexivity|]. now inversion Ec.
Qed.

(** ** What the handlers store *)

(** A run of the validating handler leaves the store as it was or adds the
    one row built from the validated body. *)
Lemma POST_store :
  forall w s response s',
    Route.POST w s = (Ok response, s') ->
    db s' = db s
    \/ exists rawBody body id,
         request_json w (reads s) = Ok rawBody
         /\ requestSchema_safeParse rawBody = ParseOk body
         /\ db s' = db s ++ [sync_row id (Route.sync_record w body)].
Proof.
  intros w s response s' H. rewrite POST_eq in H.
  destruct (request_json w (reads s)) as [rawBody|e] eqn:Hreq;
    [|inversion H; subst; now left].
  destruct (requestSchema_safeParse rawBody) as [body|issues] eqn:Hparse;
    [|inversion H; subst; now left].
  rewrite process_eq in H.
  destruct (Route.getTableData w _ _) as [[data|e] s1] eqn:Hdata.
  2:{ apply getTableData_source_only in Hdata. destruct Hdata as (D & _).
      inversion H; subst. now left. }
  apply getTableData_source_only in Hdata. destruct Hdata as (D1 & _).
  change (db (after_read s)) with (db s) in D1.
  destruct (Route.getAllTables w _ s1) as [[tables|e] s2] eqn:Htables.
  2:{ apply getAllTables_source_only in Htables. destruct Htables as (D & _).
      inversion H; subst. left. congruence. }
  apply getAllTables_source_only in Htables. destruct Htables as (D2 & _).
  cbv zeta in H.
  destruct (supabase_insert w "syncs" _) as [[d er]|e];
    [|inversion H; subst; left; cbn; congruence].
  cbn [pg_error pg_data] in H.
  destruct er as [er|]; [inversion H; subst; left; cbn; congruence|].
  destruct d as [id|]; [|inversion H; subst; left; cbn; congruence].
  right. exists rawBody, body, id. split; [reflexivity|]. split; [exact Hparse|].
  rewrite dispatch_eq in H. cbv zeta in H.
  destruct (octokit_request w _) as [[]|ge].
  - inversion H; subst. cbn. congruence.
  - destruct (Route.thrown_message ge); inversion H; subst; cbn; congruence.
Qed.

(** With the snapshot extracted and the row reported by the store, the row
    is in the store when the handler returns. *)
Lemma POST_persists :
  forall w s rawBody body data s1 tables s2 id response s',
    request_json w (reads s) = Ok rawBody ->
    requestSchema_safeParse rawBody = ParseOk body ->
    Route.getTableData w (internal_credentials body) (after_read s)
    = (Ok data, s1) ->
    Route.getAllTables w (internal_credentials body) s1 = (Ok tables, s2) ->
    supabase_insert w "syncs" (Route.sync_record w body)
    = Ok {| pg_data := Some id; pg_error := None |} ->
    Route.POST w s = (Ok response, s') ->
    db s' = db s ++ [sync_row id (Route.sync_record w body)].
Proof.
  intros w s rawBody body data s1 tables s2 id response s'
    Hreq Hparse Hdata Htables Hins H.
  rewrite POST_eq, Hreq, Hparse, process_eq, Hdata, Htables in H.
  cbv zeta in H. rewrite Hins in H. cbn [pg_error pg_data] in H.
  apply getTableData_source_only in Hdata. destruct Hdata as (D1 & _).
  change (db (after_read s)) with (db s) in D1.
  apply getAllTables_source_only in Htables. destruct Htables as (D2 & _).
  rewrite dispatch_eq in H. cbv zeta in H.
  destruct (octokit_request w _) as [[]|ge].
  - inversion H; subst. cbn. congruence.
  - destruct (Route.thrown_message ge); inversion H; subst; cbn; congruence.
Qed.

(** X23.  The validating handler stores the link type in lower case: every
    row it adds carries the lower-cased [link_type] of the request. *)
Lemma link_type_lowered :
  forall w s rawBody props lt body response s' row,
    request_json w (reads s) = Ok rawBody ->
    rawBody = JObj props ->
    lookup "link_type" props = Some (JStr lt) ->
    requestSchema_safeParse rawBody = ParseOk body ->
    Route.POST w s = (Ok response, s') ->
    In row (db s') ->
    In row (db s)
    \/ at_path ["link_type"] (row_fields row)
       = Some (JStr (String_toLowerCase w lt)).
Proof.
  intros w s rawBody props lt body response s' row Hreq Hraw Hlt Hparse H Hin.
  destruct (requestSchema_safeParse_inv _ _ Hparse) as (props' & E & L & _).
  rewrite Hraw in E. inversion E; subst props'. rewrite Hlt in L.
  inversion L; subst lt.
  destruct (POST_store _ _ _ _ H) as [D|(rawBody' & body' & id & R & P & D)].
  - left. now rewrite <- D.
  - rewrite Hreq in R. inversion R; subst rawBody'.
    rewrite Hparse in P. inversion P; subst body'.
    rewrite D in Hin. apply in_app_or in Hin. destruct Hin as [Hin|[Hin|[]]].
    + now left.
    + right. subst row. reflexivity.
Qed.

(** C4 on the handler of part_003.  The handler computes the lower-case
    link type and then stores the one it received: the row it creates
    carries [link_type] exactly as the request had it. *)
Theorem legacy_link_type_stored_as_received :
  forall w s props lt id,
    request_json w (reads s) = Ok (JObj props) ->
    lookup "link_type" props = Some (JStr lt) ->
    supabase_insert w "syncs" (RouteLegacy.sync_record props)
    = Ok {| pg_data := Some id; pg_error := None |} ->
    exists response s' fields,
      RouteLegacy.POST w s = (Ok response, s')
      /\ db s' = db s ++ [sync_row id fields]
      /\ at_path ["link_type"] fields = Some (JStr lt).
Proof.
  intros w s props lt id Hreq Hlt Hins.
  rewrite legacy_POST_eq. cbv zeta. rewrite Hreq.
  cbn [get_prop RouteLegacy.props_of]. rewrite Hlt.
  cbn [RouteLegacy.call_toLowerCase]. rewrite Hins. cbn [pg_error pg_data].
  assert (F : at_path ["link_type"] (RouteLegacy.sync_record props)
              = Some (JStr lt)).
  { unfold RouteLegacy.sync_record. rewrite Hlt.
    destruct (lookup "organization" props), (lookup "internal_warehouse" props);
      reflexivity. }
  destruct (RouteLegacy.dispatch_failure _);
    (eexists; eexists; eexists; split; [reflexivity|split; [reflexivity|exact F]]).
Qed.

Lemma legacy_link_type_stored_as_received_witness :
  String_toLowerCase (Sample.happy Sample.scenario_request) "ClickHouse"
  = "clickhouse"
  /\ exists response s' fields,
       RouteLegacy.POST (Sample.happy Sample.scenario_request) (initial [])
       = (Ok response, s')
       /\ db s' = db (initial []) ++ [sync_row "job-1" fields]
       /\ at_path ["link_type"] fields = Some (JStr "ClickHouse").
Proof.
  split; [reflexivity|].
  eapply (legacy_link_type_stored_as_received
            (Sample.happy Sample.scenario_request) (initial [])); reflexivity.
Defined.

(** ** Defaults of the destination options *)

Lemma stored_options :
  forall w body,
    at_path ["destination_config"; "options"] (Route.sync_record w body)
    = Some (Options_json (options (destination_config body))).
Proof. reflexivity. Qed.

(** C5.  For a valid request whose [destination_config] has no [options],
    every row the validating handler adds to the store has
    [destination_config.options] equal to [{mode: "stream", batchSize: 10000}];
    and the row is added once the snapshot is extracted and the store
    reports the row. *)
Theorem default_options_persisted :
  forall w s props dprops body response s',
    request_json w (reads s) = Ok (JObj props) ->
    lookup "destination_config" props = Some (JObj dprops) ->
    lookup "options" dprops = None ->
    requestSchema_safeParse (JObj props) = ParseOk body ->
    Route.POST w s = (Ok response, s') ->
    (forall row,
        In row (db s') ->
        In row (db s)
        \/ at_path ["destination_config"; "options"] (row_fields row)
           = Some (JObj [("mode", JStr "stream");
                         ("batchSize", JNum (inject_Z 10000))]))
    /\ (forall data s1 tables s2 id,
           Route.getTableData w (internal_credentials body) (after_read s)
           = (Ok data, s1) ->
           Route.getAllTables w (internal_credentials body) s1
           = (Ok tables, s2) ->
           supabase_insert w "syncs" (Route.sync_record w body)
           = Ok {| pg_data := Some id; pg_error := None |} ->
           In (sync_row id (Route.sync_record w body)) (db s')).
Proof.
  intros w s props dprops body response s' Hreq Hdest Hopts Hparse H.
  assert (O : options (destination_config body) = default_options).
  { destruct (requestSchema_safeParse_inv _ _ Hparse) as (props' & E & _ & _ & D).
    inversion E; subst props'. rewrite Hdest in D.
    destruct (destinationConfigSchema_inv _ _ _ D) as (dprops' & E' & P).
    inversion E'; subst dprops'. rewrite Hopts in P. cbn in P.
    now inversion P. }
  split.
  - intros row Hin.
    destruct (POST_store _ _ _ _ H) as [D|(rawBody' & body' & id & R & P & D)].
    + left. now rewrite <- D.
    + rewrite Hreq in R. inversion R; subst rawBody'.
      rewrite Hparse in P. inversion P; subst body'.
      rewrite D in Hin. apply in_app_or in Hin. destruct Hin as [Hin|[Hin|[]]].
      * now left.
      * right. subst row. cbn [row_fields sync_row].
        rewrite stored_options, O. reflexivity.
  - intros data s1 tables s2 id Hdata Htables Hins.
    rewrite (POST_persists _ _ _ _ _ _ _ _ _ _ _ Hreq Hparse Hdata Htables Hins H).
    apply in_or_app. right. now left.
Qed.

Lemma default_options_persisted_witness :
  exists response s',
    Route.POST (Sample.happy Sample.scenario_request) (initial [])
    = (Ok response, s')
    /\ (forall row,
           In row (db s') ->
           In row (db (initial []))
           \/ at_path ["destination_config"; "options"] (row_fields row)
              = Some (JObj [("mode", JStr "stream");
                            ("batchSize", JNum (inject_Z 10000))]))
    /\ exists fields, In (sync_row "job-1" fields) (db s').
Proof.
  eexists. eexists. split; [vm_compute; reflexivity|].
  pose proof (default_options_persisted
                (Sample.happy Sample.scenario_request) (initial [])
                _ _ _ _ _ eq_refl eq_refl eq_refl eq_refl eq_refl) as [A B].
  split; [exact A|].
  eexists. eapply B; reflexivity.
Defined.

(** ** The batch size *)

Lemma batchSize_schema_rejects :
  forall p v,
    (forall q, v <> JNum q) ->
    batchSize_schema p (Some v) = ParseFail [issue invalid_type p].
Proof.
  intros p v H. destruct v; try reflexivity. now destruct (H q).
Qed.

Lemma options_schema_rejects :
  forall p oprops v,
    lookup "batchSize" oprops = Some v ->
    (forall q, v <> JNum q) ->
    exists issues,
      options_schema p (Some (JObj oprops)) = ParseFail issues
      /\ In (issue invalid_type (p ++ ["batchSize"])) issues.
Proof.
  intros p oprops v Hb Hv. unfold options_schema.
  rewrite Hb, (batchSize_schema_rejects _ _ Hv).
  destruct (mode_schema _ _); eexists; (split; [reflexivity|]).
  - now left.
  - apply in_or_app. right. now left.
Qed.

Lemma destinationConfigSchema_rejects :
  forall p dprops oprops v,
    lookup "options" dprops = Some (JObj oprops) ->
    lookup "batchSize" oprops = Some v ->
    (forall q, v <> JNum q) ->
    exists issues,
      destinationConfigSchema p (Some (JObj dprops)) = ParseFail issues
      /\ In (issue invalid_type ((p ++ ["options"]) ++ ["batchSize"])) issues.
Proof.
  intros p dprops oprops v Ho Hb Hv. unfold destinationConfigSchema.
  rewrite Ho.
  destruct (options_schema_rejects (p ++ ["options"]) _ _ Hb Hv) as (iss & E & I).
  rewrite E.
  destruct (string_ _ _), (record_any _ _);
    (eexists; split; [reflexivity|]); cbn [issues_of];
    rewrite ?in_app_iff; auto.
Qed.

Lemma requestSchema_rejects_batchSize :
  forall props dprops oprops v,
    lookup "destination_config" props = Some (JObj dprops) ->
    lookup "options" dprops = Some (JObj oprops) ->
    lookup "batchSize" oprops = Some v ->
    (forall q, v <> JNum q) ->
    exists issues,
      requestSchema_safeParse (JObj props) = ParseFail issues
      /\ In (issue invalid_type ["destination_config"; "options"; "batchSize"])
           issues.
Proof.
  intros props dprops oprops v Hd Ho Hb Hv. unfold requestSchema_safeParse.
  rewrite Hd.
  destruct (destinationConfigSchema_rejects ["destination_config"] _ _ _ Ho Hb Hv)
    as (iss & E & I).
  rewrite E. cbn [app] in I.
  destruct (string_min1 ["organization"] _),
    (string_min1 ["internal_warehouse"] _),
    (string_min1 ["link_type"] _), (record_any _ _);
    (eexists; split; [reflexivity|]); cbn [issues_of];
    rewrite ?in_app_iff; auto 10.
Qed.

(** Where the issues of each schema are located. *)
Ltac located Hin :=
  repeat (apply in_app_or in Hin; destruct Hin as [Hin|Hin]);
  try (now destruct Hin);
  match goal with
  | P : In ?i ?l -> path ?i = _ |- _ =>
      match type of Hin with In i l => rewrite (P Hin) end;
      first [discriminate | cbn [In]; auto 6]
  | P : In ?i ?l -> path ?i <> _ |- _ =>
      match type of Hin with In i l => exact (P Hin) end
  end.

Lemma string_min1_paths :
  forall p v i, In i (issues_of (string_min1 p v)) -> path i = p.
Proof.
  intros p v i. unfold string_min1.
  destruct v as [[| | |x| |]|]; try (intros [<-|[]]; reflexivity).
  destruct (Nat.ltb _ _); [intros [<-|[]]; reflexivity|intros []].
Qed.

Lemma string_paths :
  forall p v i, In i (issues_of (string_ p v)) -> path i = p.
Proof.
  intros p v i. unfold string_.
  destruct v as [[| | |x| |]|]; try (intros [<-|[]]; reflexivity). intros [].
Qed.

Lemma record_any_paths :
  forall p v i, In i (issues_of (record_any p v)) -> path i = p.
Proof.
  intros p v i. unfold record_any.
  destruct v as [[| | | | |x]|]; try (intros [<-|[]]; reflexivity). intros [].
Qed.

Lemma mode_schema_paths :
  forall p v i, In i (issues_of (mode_schema p v)) -> path i = p.
Proof.
  intros p v i. unfold mode_schema.
  destruct v as [[| | |x| |]|]; try (intros [<-|[]]; reflexivity);
    [|intros []].
  destruct (String.eqb x "stream"); [intros []|].
  destruct (String.eqb x "batch"); [intros []|intros [<-|[]]; reflexivity].
Qed.

Lemma strict_paths :
  forall shape p props i, In i (strict shape p props) -> path i = p.
Proof.
  intros shape p props i. unfold strict.
  destruct (extra_keys shape props); [intros []|intros [<-|[]]; reflexivity].
Qed.

Lemma options_schema_paths :
  forall p oprops b i,
    batchSize_schema (p ++ ["batchSize"]) (lookup "batchSize" oprops) = ParseOk b ->
    In i (issues_of (options_schema p (Some (JObj oprops)))) ->
    path i = p ++ ["mode"].
Proof.
  intros p oprops b i Hb. unfold options_schema. rewrite Hb.
  destruct (mode_schema _ _) as [m|iss] eqn:Em; cbn [issues_of]; [intros []|].
  rewrite app_nil_r. intro Hin. apply (mode_schema_paths _ (lookup "mode" oprops)).
  now rewrite Em.
Qed.

Lemma destinationConfigSchema_paths :
  forall p dprops oprops b i,
    lookup "options" dprops = Some (JObj oprops) ->
    batchSize_schema ((p ++ ["options"]) ++ ["batchSize"])
      (lookup "batchSize" oprops) = ParseOk b ->
    In i (issues_of (destinationConfigSchema p (Some (JObj dprops)))) ->
    In (path i)
      [p ++ ["type"]; p ++ ["credentials"]; (p ++ ["options"]) ++ ["mode"]; p].
Proof.
  intros p dprops oprops b i Ho Hb. unfold destinationConfigSchema.
  rewrite Ho.
  pose proof (string_paths (p ++ ["type"]) (lookup "type" dprops) i) as Pt.
  pose proof (record_any_paths (p ++ ["credentials"])
                (lookup "credentials" dprops) i) as Pc.
  pose proof (options_schema_paths (p ++ ["options"]) oprops b i Hb) as Po.
  pose proof (strict_paths destinationConfig_keys p dprops i) as Px.
  destruct (string_ _ _), (record_any _ _), (options_schema _ _),
    (strict _ _ _); cbn [issues_of] in *; intro Hin; located Hin.
Qed.

Lemma requestSchema_paths :
  forall props dprops oprops b i,
    lookup "destination_config" props = Some (JObj dprops) ->
    lookup "options" dprops = Some (JObj oprops) ->
    batchSize_schema ["destination_config"; "options"; "batchSize"]
      (lookup "batchSize" oprops) = ParseOk b ->
    In i (issues_of (requestSchema_safeParse (JObj props))) ->
    path i <> ["destination_config"; "options"; "batchSize"].
Proof.
  intros props dprops oprops b i Hd Ho Hb. unfold requestSchema_safeParse.
  rewrite Hd.
  pose proof (string_min1_paths ["organization"] (lookup "organization" props) i)
    as P1.
  pose proof (string_min1_paths ["internal_warehouse"]
                (lookup "internal_warehouse" props) i) as P2.
  pose proof (string_min1_paths ["link_type"] (lookup "link_type" props) i) as P3.
  pose proof (record_any_paths ["internal_credentials"]
                (lookup "internal_credentials" props) i) as P4.
  pose proof (destinationConfigSchema_paths ["destination_config"] dprops oprops
                b i Ho Hb) as P5.
  pose proof (strict_paths request_keys [] props i) as P6.
  cbn [app] in P5.
  assert (P5' : In i (issues_of (destinationConfigSchema ["destination_config"]
                                   (Some (JObj dprops)))) ->
                path i <> ["destination_config"; "options"; "batchSize"]).
  { intros Hin E. apply P5 in Hin. rewrite E in Hin.
    destruct Hin as [F|[F|[F|[F|[]]]]]; discriminate F. }
  clear P5.
  destruct (string_min1 ["organization"] _),
    (string_min1 ["internal_warehouse"] _),
    (string_min1 ["link_type"] _), (record_any _ _),
    (destinationConfigSchema _ _), (strict _ _ _); cbn [issues_of] in *;
    intro Hin; located Hin.
Qed.

Lemma validated_batchSize :
  forall props dprops oprops body,
    lookup "destination_config" props = Some (JObj dprops) ->
    lookup "options" dprops = Some (JObj oprops) ->
    requestSchema_safeParse (JObj props) = ParseOk body ->
    batchSize_schema ["destination_config"; "options"; "batchSize"]
      (lookup "batchSize" oprops)
    = ParseOk (batchSize (options (destination_config body))).
Proof.
  intros props dprops oprops body Hd Ho Hparse.
  destruct (requestSchema_safeParse_inv _ _ Hparse) as (props' & E & _ & _ & D).
  inversion E; subst props'. rewrite Hd in D.
  destruct (destinationConfigSchema_inv _ _ _ D) as (dprops' & E' & P).
  inversion E'; subst dprops'. rewrite Ho in P. unfold options_schema in P.
  cbn [app] in P.
  destruct (mode_schema _ _) as [m|]; [|discriminate P].
  destruct (batchSize_schema _ _) as [b|]; [|discriminate P].
  now inversion P.
Qed.

(** C6, as amended.  A request whose [destination_config.options.batchSize]
    is present and is not a number is answered 400 'Validation failed' with
    an issue at that path, before any call to the source or to the store.
    A number, whatever its sign or fractional part, raises no issue at that
    path and is the batch size of the validated body; an options object
    without [batchSize] raises none either and gives the batch size 10000.
    For every number there is a request carrying it that passes
    validation and that the handler answers with success, the job row
    created. *)
Theorem non_numeric_batchSize_rejected :
  (forall w s props dprops oprops v,
      request_json w (reads s) = Ok (JObj props) ->
      lookup "destination_config" props = Some (JObj dprops) ->
      lookup "options" dprops = Some (JObj oprops) ->
      lookup "batchSize" oprops = Some v ->
      (forall q, v <> JNum q) ->
      exists issues s',
        Route.POST w s = (Ok (Route.validation_failed issues), s')
        /\ In (issue invalid_type ["destination_config"; "options"; "batchSize"])
             issues
        /\ status (Route.validation_failed issues) = 400
        /\ field "success" (Route.validation_failed issues) = Some (JBool false)
        /\ field "error" (Route.validation_failed issues)
           = Some (JStr "Validation failed")
        /\ db s' = db s /\ log s' = log s)
  /\ (forall props dprops oprops q,
         lookup "destination_config" props = Some (JObj dprops) ->
         lookup "options" dprops = Some (JObj oprops) ->
         lookup "batchSize" oprops = Some (JNum q) ->
         (forall issues i,
             requestSchema_safeParse (JObj props) = ParseFail issues ->
             In i issues ->
             path i <> ["destination_config"; "options"; "batchSize"])
         /\ (forall body,
                requestSchema_safeParse (JObj props) = ParseOk body ->
                batchSize (options (destination_config body)) = q))
  /\ (forall props dprops oprops,
         lookup "destination_config" props = Some (JObj dprops) ->
         lookup "options" dprops = Some (JObj oprops) ->
         lookup "batchSize" oprops = None ->
         (forall issues i,
             requestSchema_safeParse (JObj props) = ParseFail issues ->
             In i issues ->
             path i <> ["destination_config"; "options"; "batchSize"])
         /\ (forall body,
                requestSchema_safeParse (JObj props) = ParseOk body ->
                batchSize (options (destination_config body)) = inject_Z 10000))
  /\ (forall q,
         exists body s' fields,
           requestSchema_safeParse
             (Sample.request "ClickHouse" Sample.clickhouse_credentials
                [("options", JObj [("batchSize", JNum q)])])
           = ParseOk body
           /\ batchSize (options (destination_config body)) = q
           /\ Route.POST (Sample.with_batchSize (JNum q)) (initial [])
              = (Ok (Route.initiated (Some "job-1")), s')
           /\ status (Route.initiated (Some "job-1")) = 200
           /\ db s' = [sync_row "job-1" fields]).
Proof.
  split; [|split; [|split]].
  - intros w s props dprops oprops v Hreq Hd Ho Hb Hv.
    destruct (requestSchema_rejects_batchSize _ _ _ _ Hd Ho Hb Hv)
      as (issues & E & I).
    exists issues, (after_read s). rewrite POST_eq, Hreq, E.
    repeat split; auto.
  - intros props dprops oprops q Hd Ho Hb. split.
    + intros issues i E Hin.
      apply (requestSchema_paths props dprops oprops q i Hd Ho);
        [now rewrite Hb|now rewrite E].
    + intros body Hparse.
      pose proof (validated_batchSize _ _ _ _ Hd Ho Hparse) as B.
      rewrite Hb in B. now inversion B.
  - intros props dprops oprops Hd Ho Hb. split.
    + intros issues i E Hin.
      apply (requestSchema_paths props dprops oprops (inject_Z 10000) i Hd Ho);
        [now rewrite Hb|now rewrite E].
    + intros body Hparse.
      pose proof (validated_batchSize _ _ _ _ Hd Ho Hparse) as B.
      rewrite Hb in B. now inversion B.
  - intro q. do 3 eexists.
    split; [reflexivity|]. split; [reflexivity|].
    split; [reflexivity|]. split; reflexivity.
Qed.

Lemma non_numeric_batchSize_rejected_witness :
  (exists issues s',
      Route.POST (Sample.with_batchSize (JStr "10000")) (initial [])
      = (Ok (Route.validation_failed issues), s')
      /\ In (issue invalid_type ["destination_config"; "options"; "batchSize"])
           issues
      /\ db s' = [] /\ log s' = [])
  /\ (exists body,
         requestSchema_safeParse
           (Sample.request "ClickHouse" Sample.clickhouse_credentials
              [("options", JObj [("batchSize", JNum (Qmake (-5) 2))])])
         = ParseOk body
         /\ batchSize (options (destination_config body)) = Qmake (-5) 2)
  /\ (exists body,
         requestSchema_safeParse
           (Sample.request "ClickHouse" Sample.clickhouse_credentials
              [("options", JObj [("mode", JStr "batch")])])
         = ParseOk body
         /\ mode (options (destination_config body)) = batch
         /\ batchSize (options (destination_config body)) = inject_Z 10000).
Proof.
  destruct non_numeric_batchSize_rejected as (Reject & Number & Default & _).
  split; [|split].
  - destruct (Reject (Sample.with_batchSize (JStr "10000")) (initial [])
                _ _ _ (JStr "10000") eq_refl eq_refl eq_refl eq_refl
                (fun q (E : JStr "10000" = JNum q) =>
                   eq_ind (JStr "10000")
                     (fun v => match v with JStr _ => True | _ => False end)
                     I (JNum q) E))
      as (issues & s' & H & Hi & _ & _ & _ & D & L).
    exists issues, s'. auto.
  - eexists. split; [reflexivity|].
    match goal with
    | |- batchSize (options (destination_config ?body)) = _ =>
        apply (proj2 (Number
                        [("organization", JStr "org_1");
                         ("internal_warehouse", JStr "wh_1");
                         ("link_type", JStr "ClickHouse");
                         ("internal_credentials",
                           JObj Sample.clickhouse_credentials);
                         ("destination_config",
                           JObj [("type", JStr "warehouse");
                                 ("credentials", JObj []);
                                 ("options",
                                   JObj [("batchSize", JNum (Qmake (-5) 2))])])]
                        _ _ _ eq_refl eq_refl eq_refl) body eq_refl)
    end.
  - eexists. split; [reflexivity|]. split; [reflexivity|].
    match goal with
    | |- batchSize (options (destination_config ?body)) = _ =>
        apply (proj2 (Default
                        [("organization", JStr "org_1");
                         ("internal_warehouse", JStr "wh_1");
                         ("link_type", JStr "ClickHouse");
                         ("internal_credentials",
                           JObj Sample.clickhouse_credentials);
                         ("destination_config",
                           JObj [("type", JStr "warehouse");
                                 ("credentials", JObj []);
                                 ("options", JObj [("mode", JStr "batch")])])]
                        _ _ eq_refl eq_refl eq_refl) body eq_refl)
    end.
Defined.

(** C6 as stated fails: zero is not a positive integer, yet a request with
    [batchSize: 0] passes validation, the row is created with that batch
    size and the answer is the success response. *)
Lemma zero_batchSize_accepted :
  ~ positive_integer (inject_Z 0)
  /\ exists response s' fields,
       Route.POST (Sample.with_batchSize (JNum (inject_Z 0))) (initial [])
       = (Ok response, s')
       /\ status response = 200
       /\ field "success" response = Some (JBool true)
       /\ db s' = [sync_row "job-1" fields]
       /\ at_path ["destination_config"; "options"; "batchSize"] fields
          = Some (JNum (inject_Z 0)).
Proof.
  split; [intros (n & H); unfold Qeq in H; cbn in H; lia|].
  do 3 eexists. split; [vm_compute; reflexivity|]. repeat split; reflexivity.
Qed.

(** The same for a negative, fractional batch size, -5/2. *)
Lemma fractional_batchSize_accepted :
  ~ positive_integer (Qmake (-5) 2)
  /\ exists response s' fields,
       Route.POST (Sample.with_batchSize (JNum (Qmake (-5) 2))) (initial [])
       = (Ok response, s')
       /\ status response = 200
       /\ db s' = [sync_row "job-1" fields]
       /\ at_path ["destination_config"; "options"; "batchSize"] fields
          = Some (JNum (Qmake (-5) 2)).
Proof.
  split; [intros (n & H); unfold Qeq in H; cbn in H; lia|].
  do 3 eexists. split; [vm_compute; reflexivity|]. repeat split; reflexivity.
Qed.

(** ** Where credentials are checked *)

Lemma extends_refl : forall s, extends s s.
Proof. intro s. exists []. now rewrite app_nil_r. Qed.

Lemma extends_trans :
  forall s1 s2 s3, extends s1 s2 -> extends s2 s3 -> extends s1 s3.
Proof.
  intros s1 s2 s3 [l1 L1] [l2 L2]. exists (l1 ++ l2).
  now rewrite L2, L1, app_assoc.
Qed.

Lemma source_only_extends : forall s s', source_only s s' -> extends s s'.
Proof. intros s s' (_ & _ & _ & _ & sqls & L). now exists (map EvQuery sqls). Qed.

Lemma dispatch_extends :
  forall w body data s o s', Route.dispatch w body data s = (o, s') -> extends s s'.
Proof.
  intros w body data s o s' H. rewrite dispatch_eq in H. cbv zeta in H.
  exists [EvDispatch (Route.dispatch_request w body data)].
  destruct (octokit_request w _) as [[]|ge]; [now inversion H|].
  destruct (Route.thrown_message ge); now inversion H.
Qed.

Lemma process_extends :
  forall w body s o s', Route.process w body s = (o, s') -> extends s s'.
Proof.
  intros w body s o s' H. rewrite process_eq in H.
  destruct (Route.getTableData w _ s) as [[data|e] s1] eqn:Hdata;
    apply getTableData_source_only, source_only_extends in Hdata;
    [|now inversion H; subst].
  apply (extends_trans _ _ _ Hdata).
  destruct (Route.getAllTables w _ s1) as [[tables|e] s2] eqn:Htables;
    apply getAllTables_source_only, source_only_extends in Htables;
    [|now inversion H; subst].
  apply (extends_trans _ _ _ Htables).
  cbv zeta in H.
  assert (E : extends s2 (log_event (EvInsert "syncs" (Route.sync_record w body)) s2))
    by (eexists; reflexivity).
  apply (extends_trans _ _ _ E).
  destruct (supabase_insert w "syncs" _) as [[d er]|e];
    [|inversion H; subst; apply extends_refl].
  cbn [pg_error pg_data] in H.
  destruct er as [er|]; [inversion H; subst; apply extends_refl|].
  destruct d as [id|]; [|inversion H; subst; apply extends_refl].
  apply dispatch_extends in H. destruct H as [l L]. exists l. exact L.
Qed.

(** After a validated body, the first external call of the validating
    handler is the SHOW TABLES statement, whatever the credentials hold. *)
Lemma process_first_statement :
  forall w body s o s',
    ClickhouseClient w (Route.client_options (internal_credentials body)) = Ok tt ->
    Route.process w body s = (o, s') ->
    exists rest, log s' = log s ++ EvQuery "SHOW TABLES" :: rest.
Proof.
  intros w body s o s' Hc H.
  rewrite process_eq, getTableData_eq, Hc in H.
  destruct (Route.getAllTables w _ s) as [[tables|e] s1] eqn:Htables.
  - rewrite getAllTables_eq, Hc in Htables.
    assert (E1 : log s1 = log s ++ [EvQuery "SHOW TABLES"])
      by (inversion Htables; reflexivity).
    assert (E2 : extends s1 s').
    { destruct (Route.for_each_table w tables empty_object s1)
        as [[data|e] s2] eqn:Hloop;
        apply for_each_table_source_only, source_only_extends in Hloop;
        [|now inversion H; subst].
      apply (extends_trans _ _ _ Hloop).
      destruct (Route.getAllTables w _ s2) as [[tables'|e] s3] eqn:Htables';
        apply getAllTables_source_only, source_only_extends in Htables';
        [|now inversion H; subst].
      apply (extends_trans _ _ _ Htables').
      cbv zeta in H.
      assert (E : extends s3
                    (log_event (EvInsert "syncs" (Route.sync_record w body)) s3))
        by (eexists; reflexivity).
      apply (extends_trans _ _ _ E).
      destruct (supabase_insert w "syncs" _) as [[d er]|e];
        [|inversion H; subst; apply extends_refl].
      cbn [pg_error pg_data] in H.
      destruct er as [er|]; [inversion H; subst; apply extends_refl|].
      destruct d as [id|]; [|inversion H; subst; apply extends_refl].
      apply dispatch_extends in H. destruct H as [l L]. exists l. exact L. }
    destruct E2 as [l L]. exists l. rewrite L, E1, <- app_assoc. reflexivity.
  - rewrite getAllTables_eq, Hc in Htables.
    inversion H; subst s'. exists []. inversion Htables. reflexivity.
Qed.

Lemma every_field_missing :
  forall w creds fields field,
    In field fields ->
    lookup field creds = None ->
    Sources.every_field w (Some (JObj creds)) fields <> Ok true.
Proof.
  intros w creds fields field. induction fields as [|f rest IH]; intros Hin Hmiss.
  - destruct Hin.
  - cbn [Sources.every_field get_prop].
    destruct Hin as [E|Hin].
    + subst f. rewrite Hmiss. cbn. discriminate.
    + destruct (Sources.truthy (lookup f creds)); [|discriminate].
      destruct (lookup f creds) as [[| | |x| |]|]; try discriminate.
      destruct (String.eqb _ _); [discriminate|]. apply IH; assumption.
Qed.

Lemma validateCredentials_rejects :
  forall w type creds,
    (Sources.own type Sources.requiredFields = None
     \/ exists fields field,
          Sources.own type Sources.requiredFields = Some fields
          /\ In field fields /\ lookup field creds = None) ->
    Sources.validateCredentials w type (Some (JObj creds)) <> Ok true.
Proof.
  intros w type creds [H|(fields & field & H & Hin & Hmiss)];
    unfold Sources.validateCredentials; rewrite H.
  - destruct (existsb _ _); discriminate.
  - eapply every_field_missing; eassumption.
Qed.

Lemma every_field_strings :
  forall w creds fields e,
    (forall f v, lookup f creds = Some v -> exists x, v = JStr x) ->
    Sources.every_field w (Some (JObj creds)) fields <> Throw e.
Proof.
  intros w creds fields e Hs. induction fields as [|f rest IH]; [discriminate|].
  cbn [Sources.every_field get_prop].
  destruct (lookup f creds) as [v|] eqn:E; [|cbn; discriminate].
  destruct (Hs f v E) as (x & ->). cbn [Sources.truthy].
  destruct (negb _); [|discriminate].
  destruct (String.eqb _ _); [discriminate|exact IH].
Qed.

Lemma validateCredentials_strings :
  forall w type creds e,
    (forall f v, lookup f creds = Some v -> exists x, v = JStr x) ->
    existsb (String.eqb type) Sources.inherited = false ->
    Sources.validateCredentials w type (Some (JObj creds)) <> Throw e.
Proof.
  intros w type creds e Hs Hi. unfold Sources.validateCredentials.
  destruct (Sources.own type Sources.requiredFields) as [fields|].
  - now apply every_field_strings.
  - rewrite Hi. discriminate.
Qed.

(** C7, as amended.  The sync handler does not look at the shape of the
    credentials: once the body is validated, and whatever fields
    [internal_credentials] holds, its first external call is the SHOW TABLES
    statement sent to the source; when that statement fails, or the client
    cannot be built, the answer is 500 with [success: false], a null
    [syncId] and the message of the failure, and the store is untouched.
    The registry of required fields is consulted by the source-registration
    route only.  There, for a type outside the registry or credentials
    without one of the type's required fields, the route neither inserts
    nor calls anything and answers: 400 'Type and credentials are required'
    for the empty type; 400 'Invalid credentials for the selected type' when
    the check returns false; 500 'An unexpected error occurred' when, and
    only when, the check raises.  The check does not raise when every value
    in the credentials is a string and the type names no inherited member
    of the registry object. *)
Theorem credentials_checked_at_registration_only :
  (forall w s rawBody body,
      request_json w (reads s) = Ok rawBody ->
      requestSchema_safeParse rawBody = ParseOk body ->
      (ClickhouseClient w (Route.client_options (internal_credentials body))
       = Ok tt ->
       (exists response s' rest,
           Route.POST w s = (Ok response, s')
           /\ log s' = log s ++ EvQuery "SHOW TABLES" :: rest)
       /\ (forall e,
              show_tables w (queries s) = Throw e ->
              exists s',
                Route.POST w s = (Ok (Route.process_failed None e), s')
                /\ log s' = log s ++ [EvQuery "SHOW TABLES"]
                /\ db s' = db s))
      /\ (forall e,
             ClickhouseClient w (Route.client_options (internal_credentials body))
             = Throw e ->
             exists s',
               Route.POST w s = (Ok (Route.process_failed None e), s')
               /\ log s' = log s /\ db s' = db s)
      /\ (forall e,
             status (Route.process_failed None e) = 500
             /\ field "success" (Route.process_failed None e) = Some (JBool false)
             /\ field "syncId" (Route.process_failed None e) = Some JNull
             /\ field "error" (Route.process_failed None e)
                = Some (JStr (error_message e))))
  /\
  (forall w s props type creds,
      Sources.truthy_string (userId (auth w)) = true ->
      Sources.truthy_string (orgId (auth w)) = true ->
      request_json w (reads s) = Ok (JObj props) ->
      lookup "type" props = Some (JStr type) ->
      lookup "credentials" props = Some (JObj creds) ->
      (Sources.own type Sources.requiredFields = None
       \/ exists fields field,
            Sources.own type Sources.requiredFields = Some fields
            /\ In field fields /\ lookup field creds = None) ->
      exists response s',
        Sources.POST w s = (Ok response, s')
        /\ db s' = db s /\ log s' = log s
        /\ ((type = EmptyString
             /\ response
                = Sources.error_response "Type and credentials are required" 400)
            \/ (type <> EmptyString
                /\ Sources.validateCredentials w type (Some (JObj creds))
                   = Ok false
                /\ response
                   = Sources.error_response
                       "Invalid credentials for the selected type" 400)
            \/ (type <> EmptyString
                /\ (exists e,
                       Sources.validateCredentials w type (Some (JObj creds))
                       = Throw e)
                /\ response
                   = Sources.error_response "An unexpected error occurred" 500))
        /\ ((forall f v, lookup f creds = Some v -> exists x, v = JStr x) ->
            existsb (String.eqb type) Sources.inherited = false ->
            status response = 400
            /\ (type <> EmptyString ->
                field "error" response
                = Some (JStr "Invalid credentials for the selected type")))).
Proof.
  split.
  - intros w s rawBody body Hreq Hparse. split; [|split].
    + intro Hc. split.
      * rewrite POST_eq, Hreq, Hparse.
        destruct (Route.process w body (after_read s)) as [[response|e] s'] eqn:H;
          destruct (process_first_statement _ _ _ _ _ Hc H) as (rest & L);
          do 3 eexists; (split; [reflexivity|exact L]).
      * intros e He.
        rewrite POST_eq, Hreq, Hparse, process_eq, getTableData_eq, Hc,
          getAllTables_eq, Hc.
        change (queries (after_read s)) with (queries s). rewrite He.
        eexists. split; [reflexivity|]. split; reflexivity.
    + intros e He.
      rewrite POST_eq, Hreq, Hparse, process_eq, getTableData_eq, He.
      eexists. split; [reflexivity|]. split; reflexivity.
    + intro e. repeat split; reflexivity.
  - intros w s props type creds Hu Ho Hreq Htype Hcreds Hbad.
    pose proof (validateCredentials_rejects w type creds Hbad) as Hv.
    unfold Sources.POST. rewrite Hu, Ho. cbn [negb orb].
    unfold try_catch, bind, request_json_call, lift, ret. rewrite Hreq.
    cbn [get_prop]. rewrite Htype, Hcreds.
    cbn [Sources.truthy Sources.property_key negb orb].
    destruct (String.eqb_spec type EmptyString) as [E|N]; cbn [negb orb].
    + do 2 eexists. split; [reflexivity|]. split; [reflexivity|].
      split; [reflexivity|]. split; [left; now split|].
      intros _ _. split; [reflexivity|]. intro F. now destruct F.
    + destruct (Sources.validateCredentials w type (Some (JObj creds)))
        as [[|]|e] eqn:Ev.
      * now destruct Hv.
      * do 2 eexists. split; [reflexivity|]. split; [reflexivity|].
        split; [reflexivity|]. split; [right; left; now repeat split|].
        intros _ _. split; reflexivity.
      * do 2 eexists. split; [reflexivity|]. split; [reflexivity|].
        split; [reflexivity|].
        split; [right; right; repeat split; [exact N|now exists e]|].
        intros Hs Hi.
        now destruct (validateCredentials_strings w type creds e Hs Hi).
Qed.

Lemma credentials_checked_at_registration_only_witness :
  (exists s',
      Route.POST (Sample.unreachable (Sample.request "clickhouse" [] []))
        (initial [])
      = (Ok (Route.process_failed None
               (ErrorObj "connect ECONNREFUSED 127.0.0.1:8123")), s')
      /\ log s' = log (initial []) ++ [EvQuery "SHOW TABLES"]
      /\ db s' = db (initial []))
  /\
  (exists s',
      Sources.POST
        (Sample.happy
           (JObj [("type", JStr "clickhouse");
                  ("credentials", JObj [("host", JStr "h")])]))
        (initial [])
      = (Ok (Sources.error_response
               "Invalid credentials for the selected type" 400), s')
      /\ db s' = db (initial []) /\ log s' = log (initial [])).
Proof.
  split.
  - refine (proj2 (proj1 (proj1 credentials_checked_at_registration_only
                            (Sample.unreachable (Sample.request "clickhouse" [] []))
                            (initial []) _ _ eq_refl eq_refl) eq_refl)
                  (ErrorObj "connect ECONNREFUSED 127.0.0.1:8123") eq_refl).
  - destruct (proj2 credentials_checked_at_registration_only
                (Sample.happy
                   (JObj [("type", JStr "clickhouse");
                          ("credentials", JObj [("host", JStr "h")])]))
                (initial []) _ "clickhouse" [("host", JStr "h")]
                eq_refl eq_refl eq_refl eq_refl eq_refl
                (or_intror
                   (ex_intro _ ["host"; "port"; "database"; "user"; "password"]
                      (ex_intro _ "port"
                         (conj eq_refl
                            (conj (or_intror (or_introl eq_refl)) eq_refl))))))
      as (response & s' & H & D & L & [(F & _)|[(_ & _ & R)|(_ & (e & F) & _)]] & _).
    + discriminate F.
    + exists s'. subst response. auto.
    + discriminate F.
Defined.

(** C7 as stated fails on the sync handler: with empty credentials, which
    the registry rejects for [clickhouse], the handler still sends
    SHOW TABLES to the source, and what it reports is the failure of the
    connection. *)
Lemma empty_credentials_reach_the_source :
  Sources.validateCredentials
    (Sample.unreachable (Sample.request "clickhouse" [] []))
    "clickhouse" (Some (JObj []))
  = Ok false
  /\ exists response s',
       Route.POST (Sample.unreachable (Sample.request "clickhouse" [] []))
         (initial [])
       = (Ok response, s')
       /\ log s' = [EvQuery "SHOW TABLES"]
       /\ ~ (forall sql, ~ In (EvQuery sql) (log s'))
       /\ status response = 500
       /\ field "error" response
          = Some (JStr "connect ECONNREFUSED 127.0.0.1:8123").
Proof.
  split; [reflexivity|].
  do 2 eexists. split; [vm_compute; reflexivity|].
  split; [reflexivity|]. split; [|split; reflexivity].
  intro H. apply (H "SHOW TABLES"). now left.
Qed.

(** ** A source without tables *)

(** The run stops after the insert was sent: the log ends there and no row
    was reported. *)
Ltac stopped_before_dispatch :=
  do 2 eexists; split; [reflexivity|]; split;
  [exists []; cbn; now rewrite <- !app_assoc
  |split; [reflexivity|]; intros ? H; discriminate H].

(** C8.  For a valid request whose source answers SHOW TABLES with no table,
    the validating handler does not fail on that account: it sends the
    insert of the job row, and, the row being reported by the store, it
    triggers the workflow with the serialisation of the empty snapshot; the
    trigger being accepted, it answers success with the id of the row. *)
Theorem empty_source_proceeds :
  forall w s rawBody body,
    request_json w (reads s) = Ok rawBody ->
    requestSchema_safeParse rawBody = ParseOk body ->
    ClickhouseClient w (Route.client_options (internal_credentials body))
    = Ok tt ->
    (forall k, show_tables w k = Ok {| data := [] |}) ->
    let record := Route.sync_record w body in
    let req := Route.dispatch_request w body [] in
    exists response s',
      Route.POST w s = (Ok response, s')
      /\ (exists rest,
             log s' = log s ++ [EvQuery "SHOW TABLES"; EvQuery "SHOW TABLES";
                                EvInsert "syncs" record] ++ rest)
      /\ inputs_data req = JSON_stringify w (JObj [])
      /\ (forall id,
             supabase_insert w "syncs" record
             = Ok {| pg_data := Some id; pg_error := None |} ->
             log s' = log s ++ [EvQuery "SHOW TABLES"; EvQuery "SHOW TABLES";
                                EvInsert "syncs" record; EvDispatch req]
             /\ db s' = db s ++ [sync_row id record]
             /\ (octokit_request w req = Ok tt ->
                 response = Route.initiated (Some id)
                 /\ status response = 200
                 /\ field "success" response = Some (JBool true)
                 /\ field "syncId" response = Some (JStr id))).
Proof.
  intros w s rawBody body Hreq Hparse Hc Hnone record req.
  rewrite POST_eq, Hreq, Hparse, process_eq, getTableData_eq, Hc.
  rewrite !getAllTables_eq, Hc, !Hnone. cbn [data map Route.for_each_table ret own_props empty_object].
  rewrite getAllTables_eq, Hc, Hnone. cbv zeta. fold record.
  destruct (supabase_insert w "syncs" record) as [[[id0|] [er|]]|e];
    cbn [pg_error pg_data]; try stopped_before_dispatch.
  rewrite dispatch_eq. cbv zeta. fold req.
  assert (L : (((log s ++ [EvQuery "SHOW TABLES"]) ++ [EvQuery "SHOW TABLES"])
               ++ [EvInsert "syncs" record]) ++ [EvDispatch req]
              = log s ++ [EvQuery "SHOW TABLES"; EvQuery "SHOW TABLES";
                          EvInsert "syncs" record; EvDispatch req])
    by now rewrite <- !app_assoc.
  destruct (octokit_request w req) as [[]|ge];
    [|destruct (Route.thrown_message ge)];
    (do 2 eexists; split; [reflexivity|]; split;
     [exists [EvDispatch req]; cbn; now rewrite <- !app_assoc|];
     split; [reflexivity|]; intros id H; inversion H; subst id0;
     split; [cbn; exact L|]; split; [reflexivity|]).
  - intros _. repeat split; reflexivity.
  - intros H0. discriminate H0.
  - intros H0. discriminate H0.
Qed.

Lemma empty_source_proceeds_witness :
  exists s',
    Route.POST Sample.empty_source (initial [])
    = (Ok (Route.initiated (Some "job-1")), s')
    /\ exists record,
         log s' = [EvQuery "SHOW TABLES"; EvQuery "SHOW TABLES";
                   EvInsert "syncs" record;
                   EvDispatch
                     {| route := "POST /repos/{owner}/{repo}/actions/workflows/{workflow_id}/dispatches";
                        owner := "portcullis-co";
                        repo := "portcullis-app";
                        workflow_id := "deploy-bulker.yml";
                        ref := "bulker";
                        inputs_org_id := "org_1";
                        inputs_data := "{}";
                        api_version := "2022-11-28" |}]
         /\ db s' = [sync_row "job-1" record].
Proof.
  destruct (empty_source_proceeds Sample.empty_source (initial []) _ _
              eq_refl eq_refl eq_refl (fun _ => eq_refl))
    as (response & s' & H & _ & _ & F).
  destruct (F "job-1" eq_refl) as (L & D & R).
  destruct (R eq_refl) as (E & _).
  exists s'. split; [rewrite H, E; reflexivity|].
  eexists. split; [exact L|exact D].
Defined.

(** ** An insert that reports neither a row nor an error *)

(** C9.  When the snapshot is extracted and the insert comes back with no
    error and no row, the validating handler answers 500 with
    [success: false] and the error
    'Failed to create sync record: No data returned'; the body has no
    [syncId] and no [details], so it is neither the answer to a store error
    nor a success, and no workflow is triggered. *)
Theorem missing_row_response :
  forall w s rawBody body data s1 tables s2,
    request_json w (reads s) = Ok rawBody ->
    requestSchema_safeParse rawBody = ParseOk body ->
    Route.getTableData w (internal_credentials body) (after_read s)
    = (Ok data, s1) ->
    Route.getAllTables w (internal_credentials body) s1 = (Ok tables, s2) ->
    supabase_insert w "syncs" (Route.sync_record w body)
    = Ok {| pg_data := None; pg_error := None |} ->
    exists response s',
      Route.POST w s = (Ok response, s')
      /\ status response = 500
      /\ field "success" response = Some (JBool false)
      /\ field "error" response
         = Some (JStr "Failed to create sync record: No data returned")
      /\ field "syncId" response = None
      /\ field "details" response = None
      /\ (forall syncError, response <> Route.database_error syncError)
      /\ (forall id, response <> Route.initiated id)
      /\ db s' = db s
      /\ (forall req, In (EvDispatch req) (log s') -> In (EvDispatch req) (log s)).
Proof.
  intros w s rawBody body data s1 tables s2 Hreq Hparse Hdata Htables Hins.
  rewrite POST_eq, Hreq, Hparse, process_eq, Hdata, Htables. cbv zeta.
  rewrite Hins. cbn [pg_error pg_data].
  apply getTableData_source_only in Hdata.
  apply getAllTables_source_only in Htables.
  pose proof (source_only_trans _ _ _ Hdata Htables) as Hs.
  do 2 eexists. split; [reflexivity|].
  repeat (split; [reflexivity|]).
  split; [intros syncError H; discriminate H|].
  split; [intros id H; discriminate H|].
  split.
  - destruct Hs as (D & _). exact D.
  - intros req H. cbn [log log_event] in H. apply in_app_or in H.
    destruct H as [H|[H|[]]]; [|discriminate H].
    apply (source_only_dispatches _ _ _ Hs) in H. exact H.
Qed.

Lemma missing_row_response_witness :
  exists response s',
    Route.POST Sample.silent_store (initial []) = (Ok response, s')
    /\ status response = 500
    /\ field "error" response
       = Some (JStr "Failed to create sync record: No data returned")
    /\ field "syncId" response = None
    /\ db s' = [].
Proof.
  destruct (missing_row_response Sample.silent_store (initial []) _ _ _ _ _ _
              eq_refl eq_refl eq_refl eq_refl eq_refl)
    as (response & s' & H & H1 & _ & H3 & H4 & _ & _ & _ & D & _).
  exists response, s'. auto.
Defined.

(** ** The payload of the dispatch, and the second reading of the tables *)






(** * Further properties of the handlers *)

(** ** Validation *)

Lemma existsb_eqb_false :
  forall k keys, ~ In k keys -> existsb (String.eqb k) keys = false.
Proof.
  intros k keys H. induction keys as [|k' rest IH]; [reflexivity|].
  cbn [existsb]. destruct (String.eqb_spec k k') as [E|_].
  - exfalso. apply H. left. now symmetry.
  - apply IH. intro Hin. apply H. now right.
Qed.

Lemma extra_keys_in :
  forall shape props k,
    In k (map fst props) -> ~ In k shape -> In k (extra_keys shape props).
Proof.
  intros shape props k Hin Hout. unfold extra_keys. apply filter_In.
  split; [exact Hin|]. now rewrite (existsb_eqb_false _ _ Hout).
Qed.

Lemma strict_reports :
  forall shape p props k,
    In k (map fst props) -> ~ In k shape ->
    exists keys,
      strict shape p props = [issue (unrecognized_keys keys) p] /\ In k keys.
Proof.
  intros shape p props k Hin Hout. unfold strict.
  pose proof (extra_keys_in _ _ _ Hin Hout) as H.
  destruct (extra_keys shape props) as [|k0 ks]; [destruct H|].
  eexists. split; [reflexivity|exact H].
Qed.

Lemma requestSchema_collects :
  forall props i,
    In i (issues_of (destinationConfigSchema ["destination_config"]
                       (lookup "destination_config" props))
          ++ strict request_keys [] props) ->
    exists issues,
      requestSchema_safeParse (JObj props) = ParseFail issues /\ In i issues.
Proof.
  intros props i Hin. unfold requestSchema_safeParse.
  destruct (string_min1 ["organization"] _),
    (string_min1 ["internal_warehouse"] _),
    (string_min1 ["link_type"] _), (record_any _ _);
    cbn [issues_of];
    destruct (destinationConfigSchema _ _) as [d|di];
    cbn [issues_of app] in Hin |- *;
    destruct (strict request_keys [] props) as [|x xs];
    try destruct Hin;
    (eexists; split; [reflexivity|]); rewrite ?in_app_iff;
    cbn [issues_of app In] in *; rewrite ?in_app_iff in *; tauto.
Qed.

Lemma destinationConfigSchema_collects :
  forall p dprops i,
    In i (issues_of (options_schema (p ++ ["options"]) (lookup "options" dprops))
          ++ strict destinationConfig_keys p dprops) ->
    exists issues,
      destinationConfigSchema p (Some (JObj dprops)) = ParseFail issues
      /\ In i issues.
Proof.
  intros p dprops i Hin. unfold destinationConfigSchema.
  destruct (string_ _ _), (record_any _ _); cbn [issues_of];
    destruct (options_schema _ _) as [o|oi];
    cbn [issues_of app] in Hin |- *;
    destruct (strict destinationConfig_keys p dprops) as [|x xs];
    try destruct Hin;
    (eexists; split; [reflexivity|]); rewrite ?in_app_iff;
    cbn [issues_of app In] in *; rewrite ?in_app_iff in *; tauto.
Qed.

Lemma validation_failure_response :
  forall w s props issues,
    request_json w (reads s) = Ok (JObj props) ->
    requestSchema_safeParse (JObj props) = ParseFail issues ->
    Route.POST w s = (Ok (Route.validation_failed issues), after_read s).
Proof.
  intros w s props issues Hreq Hparse. now rewrite POST_eq, Hreq, Hparse.
Qed.

(** X1.  The schemas are closed: a request with a key outside the five
    recognised ones, or whose [destination_config] has a key outside
    [type], [credentials] and [options], is answered 400
    'Validation failed' with an [unrecognized_keys] issue that names the
    key, and nothing is sent to the source, the store or the dispatcher. *)
Theorem unknown_key_rejected :
  forall w s props k,
    request_json w (reads s) = Ok (JObj props) ->
    (In k (map fst props) /\ ~ In k request_keys
     \/ exists dprops,
          lookup "destination_config" props = Some (JObj dprops)
          /\ In k (map fst dprops) /\ ~ In k destinationConfig_keys) ->
    exists issues keys p s',
      Route.POST w s = (Ok (Route.validation_failed issues), s')
      /\ In (issue (unrecognized_keys keys) p) issues
      /\ In k keys
      /\ status (Route.validation_failed issues) = 400
      /\ db s' = db s /\ log s' = log s.
Proof.
  intros w s props k Hreq Hk.
  assert (H : exists issues keys p,
             requestSchema_safeParse (JObj props) = ParseFail issues
             /\ In (issue (unrecognized_keys keys) p) issues /\ In k keys).
  { destruct Hk as [[Hin Hout]|(dprops & Hd & Hin & Hout)].
    - destruct (strict_reports request_keys [] props k Hin Hout) as (keys & E & Ik).
      destruct (requestSchema_collects props (issue (unrecognized_keys keys) []))
        as (issues & P & Ii).
      { apply in_or_app. right. rewrite E. now left. }
      exists issues, keys, []. auto.
    - destruct (strict_reports destinationConfig_keys ["destination_config"]
                  dprops k Hin Hout) as (keys & E & Ik).
      destruct (destinationConfigSchema_collects ["destination_config"] dprops
                  (issue (unrecognized_keys keys) ["destination_config"]))
        as (dissues & P & Ii).
      { apply in_or_app. right. rewrite E. now left. }
      destruct (requestSchema_collects props
                  (issue (unrecognized_keys keys) ["destination_config"]))
        as (issues & P' & Ii').
      { apply in_or_app. left. rewrite Hd, P. exact Ii. }
      exists issues, keys, ["destination_config"]. auto. }
  destruct H as (issues & keys & p & P & Ii & Ik).
  exists issues, keys, p, (after_read s).
  rewrite (validation_failure_response _ _ _ _ Hreq P). repeat split; auto.
Qed.

Lemma unknown_key_rejected_witness :
  exists issues keys p s',
    Route.POST
      (Sample.happy
         (JObj [("organization", JStr "org_1"); ("internal_warehouse", JStr "wh_1");
                ("link_type", JStr "ClickHouse");
                ("internal_credentials", JObj []);
                ("destination_config",
                  JObj [("type", JStr "warehouse"); ("credentials", JObj [])]);
                ("status", JStr "completed")]))
      (initial [])
    = (Ok (Route.validation_failed issues), s')
    /\ In (issue (unrecognized_keys keys) p) issues
    /\ In "status" keys
    /\ status (Route.validation_failed issues) = 400
    /\ db s' = db (initial []) /\ log s' = log (initial []).
Proof.
  eapply unknown_key_rejected; [reflexivity|].
  left. split.
  - cbn. do 5 right. left. reflexivity.
  - cbn. intros [H|[H|[H|[H|[H|[]]]]]]; discriminate H.
Defined.

Lemma mode_schema_rejects :
  forall p v,
    v <> JStr "stream" -> v <> JStr "batch" ->
    exists c,
      mode_schema p (Some v) = ParseFail [issue c p]
      /\ (c = invalid_enum_value \/ c = invalid_type).
Proof.
  intros p v H1 H2. destruct v; try (exists invalid_type; split; [reflexivity|now right]).
  cbn [mode_schema].
  destruct (String.eqb_spec s "stream") as [E|_]; [now subst; destruct H1|].
  destruct (String.eqb_spec s "batch") as [E|_]; [now subst; destruct H2|].
  exists invalid_enum_value. split; [reflexivity|now left].
Qed.

(** X2.  A request whose [destination_config.options.mode] is present and
    is neither "stream" nor "batch" is answered 400 'Validation failed'
    with an issue at that path (an invalid enum value for another string,
    an invalid type for a value that is not a string), before anything is
    sent to the source or the store. *)
Theorem unknown_mode_rejected :
  forall w s props dprops oprops v,
    request_json w (reads s) = Ok (JObj props) ->
    lookup "destination_config" props = Some (JObj dprops) ->
    lookup "options" dprops = Some (JObj oprops) ->
    lookup "mode" oprops = Some v ->
    v <> JStr "stream" -> v <> JStr "batch" ->
    exists issues c s',
      Route.POST w s = (Ok (Route.validation_failed issues), s')
      /\ In (issue c ["destination_config"; "options"; "mode"]) issues
      /\ (c = invalid_enum_value \/ c = invalid_type)
      /\ status (Route.validation_failed issues) = 400
      /\ db s' = db s /\ log s' = log s.
Proof.
  intros w s props dprops oprops v Hreq Hd Ho Hm H1 H2.
  destruct (mode_schema_rejects (["destination_config"] ++ ["options"] ++ ["mode"])
              v H1 H2) as (c & Em & Hc).
  destruct (destinationConfigSchema_collects ["destination_config"] dprops
              (issue c ["destination_config"; "options"; "mode"]))
    as (dissues & P & Ii).
  { apply in_or_app. left. rewrite Ho. unfold options_schema. rewrite Hm.
    cbn [app] in Em |- *. rewrite Em.
    destruct (batchSize_schema _ _); cbn; auto. }
  destruct (requestSchema_collects props
              (issue c ["destination_config"; "options"; "mode"]))
    as (issues & P' & Ii').
  { apply in_or_app. left. rewrite Hd, P. exact Ii. }
  exists issues, c, (after_read s).
  rewrite (validation_failure_response _ _ _ _ Hreq P'). repeat split; auto.
Qed.

Lemma unknown_mode_rejected_witness :
  exists issues c s',
    Route.POST
      (Sample.happy
         (Sample.request "ClickHouse" Sample.clickhouse_credentials
            [("options", JObj [("mode", JStr "realtime")])]))
      (initial [])
    = (Ok (Route.validation_failed issues), s')
    /\ In (issue c ["destination_config"; "options"; "mode"]) issues
    /\ (c = invalid_enum_value \/ c = invalid_type)
    /\ status (Route.validation_failed issues) = 400
    /\ db s' = db (initial []) /\ log s' = log (initial []).
Proof.
  eapply unknown_mode_rejected; try reflexivity; intro H; discriminate H.
Defined.

Lemma string_min1_inv :
  forall p v x,
    string_min1 p v = ParseOk x -> v = Some (JStr x) /\ x <> EmptyString.
Proof.
  intros p v x H. unfold string_min1 in H.
  destruct v as [[| | |y| |]|]; try discriminate H.
  destruct y as [|c rest]; [discriminate H|].
  cbn in H. inversion H; subst. split; [reflexivity|discriminate].
Qed.

Lemma requestSchema_safeParse_ids :
  forall props body,
    requestSchema_safeParse (JObj props) = ParseOk body ->
    lookup "organization" props = Some (JStr (organization body))
    /\ organization body <> EmptyString
    /\ lookup "internal_warehouse" props = Some (JStr (internal_warehouse body))
    /\ internal_warehouse body <> EmptyString
    /\ link_type body <> EmptyString
    /\ forall k, In k (map fst props) -> In k request_keys.
Proof.
  intros props body H. unfold requestSchema_safeParse in H.
  destruct (string_min1 ["organization"] _) as [o|] eqn:Eo; try discriminate H.
  destruct (string_min1 ["internal_warehouse"] _) as [h|] eqn:Eh;
    try discriminate H.
  destruct (string_min1 ["link_type"] _) as [l|] eqn:El; try discriminate H.
  destruct (record_any _ _) as [c|]; try discriminate H.
  destruct (destinationConfigSchema _ _) as [d|]; try discriminate H.
  destruct (strict request_keys [] props) as [|x xs] eqn:Ex; try discriminate H.
  inversion H; subst. cbn [organization internal_warehouse link_type].
  apply string_min1_inv in Eo, Eh, El.
  destruct Eo as (Eo & No), Eh as (Eh & Nh), El as (_ & Nl).
  repeat split; auto.
  intros k Hin.
  destruct (in_dec string_dec k request_keys) as [Y|N]; [exact Y|].
  destruct (strict_reports request_keys [] props k Hin N) as (keys & E & _).
  rewrite E in Ex. discriminate Ex.
Qed.

Lemma lookup_without_proto :
  forall props, lookup "__proto__" (without_proto props) = None.
Proof.
  induction props as [|[k v] rest IH]; [reflexivity|].
  unfold without_proto in *. cbn [filter fst].
  destruct (String.eqb_spec k "__proto__") as [E|N]; cbn [negb]; [exact IH|].
  cbn [lookup]. destruct (String.eqb_spec "__proto__" k) as [E|_];
    [now destruct N|exact IH].
Qed.

(** X3.  Every row the validating handler adds carries the organization
    and the warehouse reference of the request as they came, the two being
    non-empty strings, and the entries of the request's credentials other
    than an own [__proto__] key; and the request had no key outside the
    schema. *)
Theorem stored_row_reflects_request :
  forall w s response s' row,
    Route.POST w s = (Ok response, s') ->
    In row (db s') ->
    In row (db s)
    \/ exists props org wh creds,
         request_json w (reads s) = Ok (JObj props)
         /\ lookup "organization" props = Some (JStr org)
         /\ org <> EmptyString
         /\ lookup "internal_warehouse" props = Some (JStr wh)
         /\ wh <> EmptyString
         /\ lookup "internal_credentials" props = Some (JObj creds)
         /\ (forall k, In k (map fst props) -> In k request_keys)
         /\ row_table row = "syncs"
         /\ at_path ["organization"] (row_fields row) = Some (JStr org)
         /\ at_path ["internal_warehouse"] (row_fields row) = Some (JStr wh)
         /\ at_path ["internal_credentials"] (row_fields row)
            = Some (JObj (without_proto creds))
         /\ at_path ["internal_credentials"; "__proto__"] (row_fields row)
            = None.
Proof.
  intros w s response s' row H Hin.
  destruct (POST_store _ _ _ _ H) as [D|(rawBody & body & id & R & P & D)].
  - left. now rewrite <- D.
  - rewrite D in Hin. apply in_app_or in Hin. destruct Hin as [Hin|[Hin|[]]].
    + now left.
    + right. subst row.
      destruct (requestSchema_safeParse_inv _ _ P)
        as (props & E & _ & (creds & C & IC) & _).
      subst rawBody.
      destruct (requestSchema_safeParse_ids _ _ P) as (O & No & Wh & Nw & _ & K).
      exists props, (organization body), (internal_warehouse body), creds.
      repeat (split; [assumption || reflexivity|]).
      split; [cbn; now rewrite IC|].
      cbn. rewrite IC. now rewrite lookup_without_proto.
Qed.

Lemma stored_row_reflects_request_witness :
  exists response s' row,
    Route.POST (Sample.happy Sample.scenario_request) (initial [])
    = (Ok response, s')
    /\ In row (db s')
    /\ at_path ["organization"] (row_fields row) = Some (JStr "org_1")
    /\ at_path ["internal_credentials"] (row_fields row)
       = Some (JObj Sample.clickhouse_credentials).
Proof.
  destruct (POST_always_responds (Sample.happy Sample.scenario_request)
              (initial [])) as (response & s' & H).
  assert (Hin : In (sync_row "job-1"
                      (Route.sync_record (Sample.happy Sample.scenario_request)
                         {| organization := "org_1";
                            internal_warehouse := "wh_1";
                            link_type := "ClickHouse";
                            internal_credentials := Sample.clickhouse_credentials;
                            destination_config :=
                              {| type := "warehouse"; credentials := [];
                                 options := default_options |} |}))
                   (db s')).
  { vm_compute in H. inversion H. left. reflexivity. }
  destruct (stored_row_reflects_request _ _ _ _ _ H Hin)
    as [[]|(props & org & wh & creds & _)].
  do 3 eexists. split; [exact H|]. split; [exact Hin|]. split; reflexivity.
Defined.

(** ** The validating handler: persistence, order of calls, job ids *)

(** X5.  When the snapshot is extracted and the store answers the insert
    with an error, or the insert itself rejects, the validating handler
    answers 500 and triggers nothing, and the store holds no new row.  For a
    reported error the body is [{success: false, error: 'Database error',
    details: <the store's message>}] with no [syncId]; for a rejection it is
    the catch-all body with a null [syncId]. *)
Theorem store_error_response :
  forall w s rawBody body snapshot s1 tables s2,
    request_json w (reads s) = Ok rawBody ->
    requestSchema_safeParse rawBody = ParseOk body ->
    Route.getTableData w (internal_credentials body) (after_read s)
    = (Ok snapshot, s1) ->
    Route.getAllTables w (internal_credentials body) s1 = (Ok tables, s2) ->
    (forall row syncError,
        supabase_insert w "syncs" (Route.sync_record w body)
        = Ok {| pg_data := row; pg_error := Some syncError |} ->
        exists response s',
          Route.POST w s = (Ok response, s')
          /\ status response = 500
          /\ field "success" response = Some (JBool false)
          /\ field "error" response = Some (JStr "Database error")
          /\ field "details" response = Some (JStr (pg_message syncError))
          /\ field "syncId" response = None
          /\ db s' = db s
          /\ forall req, In (EvDispatch req) (log s') -> In (EvDispatch req) (log s))
    /\ (forall e,
           supabase_insert w "syncs" (Route.sync_record w body) = Throw e ->
           exists response s',
             Route.POST w s = (Ok response, s')
             /\ status response = 500
             /\ field "error" response = Some (JStr (error_message e))
             /\ field "syncId" response = Some JNull
             /\ db s' = db s
             /\ forall req,
                  In (EvDispatch req) (log s') -> In (EvDispatch req) (log s)).
Proof.
  intros w s rawBody body snapshot s1 tables s2 Hreq Hparse Hdata Htables.
  pose proof (source_only_trans _ _ _
                (getTableData_source_only _ _ _ _ _ Hdata)
                (getAllTables_source_only _ _ _ _ _ Htables)) as Hs.
  assert (Hd : forall req s3,
             log s3 = log s2 ++ [EvInsert "syncs" (Route.sync_record w body)] ->
             In (EvDispatch req) (log s3) -> In (EvDispatch req) (log s)).
  { intros req s3 L H. rewrite L in H. apply in_app_or in H.
    destruct H as [H|[H|[]]]; [|discriminate H].
    apply (source_only_dispatches _ _ _ Hs) in H. exact H. }
  destruct Hs as (D & I & _).
  split.
  - intros row syncError Hins.
    rewrite POST_eq, Hreq, Hparse, process_eq, Hdata, Htables. cbv zeta.
    rewrite Hins. cbn [pg_error pg_data].
    do 2 eexists. split; [reflexivity|]. repeat (split; [reflexivity|]).
    split; [exact D|]. intros req H. eapply Hd; [|exact H]. reflexivity.
  - intros e Hins.
    rewrite POST_eq, Hreq, Hparse, process_eq, Hdata, Htables. cbv zeta.
    rewrite Hins. cbn [syncId log_event]. rewrite I.
    do 2 eexists. split; [reflexivity|]. repeat (split; [reflexivity|]).
    split; [exact D|]. intros req H. eapply Hd; [|exact H]. reflexivity.
Qed.

Lemma store_error_response_witness :
  exists response s',
    Route.POST Cases.store_refuses (initial []) = (Ok response, s')
    /\ status response = 500
    /\ field "error" response = Some (JStr "Database error")
    /\ field "details" response = Some (JStr "permission denied")
    /\ field "syncId" response = None
    /\ db s' = db (initial []).
Proof.
  destruct (proj1 (store_error_response Cases.store_refuses (initial [])
                     _ _ _ _ _ _ eq_refl eq_refl eq_refl eq_refl)
              None {| pg_message := "permission denied" |} eq_refl)
    as (response & s' & H & H1 & _ & H3 & H4 & H5 & D & _).
  exists response, s'. repeat (split; [assumption|]). exact D.
Defined.

(** X6.  In every run the validating handler talks to the source first,
    then to the store at most once, then to the dispatcher at most once: the
    log grows by statements sent to the source, followed by nothing, by one
    insert into [syncs], or by that insert and one dispatch. *)
Theorem calls_in_order :
  forall w s response s',
    Route.POST w s = (Ok response, s') ->
    exists sqls tail,
      log s' = log s ++ map EvQuery sqls ++ tail
      /\ (tail = []
          \/ (exists record, tail = [EvInsert "syncs" record])
          \/ exists record req, tail = [EvInsert "syncs" record; EvDispatch req]).
Proof.
  intros w s response s' H. rewrite POST_eq in H.
  assert (Z : forall s0, log s0 = log s ->
              exists sqls tail,
                log s0 = log s ++ map EvQuery sqls ++ tail
                /\ (tail = []
                    \/ (exists record, tail = [EvInsert "syncs" record])
                    \/ exists record req,
                         tail = [EvInsert "syncs" record; EvDispatch req])).
  { intros s0 L. exists [], []. rewrite L. cbn. rewrite app_nil_r. auto. }
  destruct (request_json w (reads s)) as [rawBody|e];
    [|inversion H; subst; now apply Z].
  destruct (requestSchema_safeParse rawBody) as [body|issues];
    [|inversion H; subst; now apply Z].
  clear Z. rewrite process_eq in H.
  destruct (Route.getTableData w _ _) as [[snapshot|e] s1] eqn:Hdata;
    apply getTableData_source_only in Hdata.
  2:{ destruct Hdata as (_ & _ & _ & _ & sqls & L). inversion H; subst.
      exists sqls, []. rewrite app_nil_r. split; [exact L|now left]. }
  destruct (Route.getAllTables w _ s1) as [[tables|e] s2] eqn:Htables;
    apply getAllTables_source_only in Htables;
    destruct (source_only_trans _ _ _ Hdata Htables) as (_ & _ & _ & _ & sqls & L);
    change (log (after_read s)) with (log s) in L.
  2:{ inversion H; subst. exists sqls, []. rewrite app_nil_r.
      split; [exact L|now left]. }
  cbv zeta in H.
  assert (One : forall s3,
             log s3 = log s2 ++ [EvInsert "syncs" (Route.sync_record w body)] ->
             exists sqls tail,
               log s3 = log s ++ map EvQuery sqls ++ tail
               /\ (tail = []
                   \/ (exists record, tail = [EvInsert "syncs" record])
                   \/ exists record req,
                        tail = [EvInsert "syncs" record; EvDispatch req])).
  { intros s3 L3. exists sqls, [EvInsert "syncs" (Route.sync_record w body)].
    rewrite L3, L, <- app_assoc. split; [reflexivity|]. right. left. eauto. }
  destruct (supabase_insert w "syncs" _) as [[[id|] [er|]]|e];
    cbn [pg_error pg_data] in H;
    try (inversion H; subst; now apply One).
  rewrite dispatch_eq in H. cbv zeta in H.
  exists sqls, [EvInsert "syncs" (Route.sync_record w body);
                EvDispatch (Route.dispatch_request w body snapshot)].
  split; [|right; right; eauto].
  destruct (octokit_request w _) as [[]|ge];
    [|destruct (Route.thrown_message ge)];
    inversion H; subst; cbn [log log_event set_syncId add_row];
    rewrite L, <- !app_assoc; reflexivity.
Qed.

(** X7.  A response of the validating handler names a job id exactly when
    the run created a row, and the id is that row's: either the store has
    one more row and [syncId] is its id, or the store is as it was and
    [syncId] is null or absent. *)
Theorem job_id_iff_row :
  forall w s response s',
    Route.POST w s = (Ok response, s') ->
    (exists id fields,
        db s' = db s ++ [sync_row id fields]
        /\ field "syncId" response = Some (JStr id))
    \/ (db s' = db s
        /\ (field "syncId" response = None
            \/ field "syncId" response = Some JNull)).
Proof.
  intros w s response s' H. rewrite POST_eq in H.
  destruct (request_json w (reads s)) as [rawBody|e];
    [|inversion H; subst; right; split; [reflexivity|now right]].
  destruct (requestSchema_safeParse rawBody) as [body|issues];
    [|inversion H; subst; right; split; [reflexivity|now left]].
  rewrite process_eq in H.
  destruct (Route.getTableData w _ _) as [[snapshot|e] s1] eqn:Hdata;
    apply getTableData_source_only in Hdata.
  2:{ destruct Hdata as (D & I & _). inversion H; subst. right.
      split; [exact D|]. right. rewrite I. reflexivity. }
  destruct (Route.getAllTables w _ s1) as [[tables|e] s2] eqn:Htables;
    apply getAllTables_source_only in Htables;
    destruct (source_only_trans _ _ _ Hdata Htables) as (D & I & _);
    change (db (after_read s)) with (db s) in D;
    change (syncId (after_read s)) with (@None string) in I.
  2:{ inversion H; subst. right. split; [exact D|]. right. rewrite I.
      reflexivity. }
  cbv zeta in H.
  destruct (supabase_insert w "syncs" _) as [[[id|] [er|]]|e];
    cbn [pg_error pg_data] in H;
    try (inversion H; subst; right; (split; [exact D|]);
         cbn [syncId log_event]; rewrite ?I; auto; fail).
  left. exists id, (Route.sync_record w body).
  rewrite dispatch_eq in H. cbv zeta in H.
  destruct (octokit_request w _) as [[]|ge];
    [|destruct (Route.thrown_message ge)];
    inversion H; subst; cbn; rewrite D; split; reflexivity.
Qed.

Lemma calls_in_order_witness :
  exists response s',
    Route.POST Sample.dispatch_rejected (initial []) = (Ok response, s')
    /\ exists sqls tail,
         log s' = log (initial []) ++ map EvQuery sqls ++ tail
         /\ (tail = []
             \/ (exists record, tail = [EvInsert "syncs" record])
             \/ exists record req,
                  tail = [EvInsert "syncs" record; EvDispatch req]).
Proof.
  do 2 eexists. split; [vm_compute; reflexivity|].
  eapply (calls_in_order Sample.dispatch_rejected (initial [])).
  vm_compute. reflexivity.
Defined.

Lemma job_id_iff_row_witness :
  exists response s',
    Route.POST Sample.dispatch_rejected (initial []) = (Ok response, s')
    /\ ((exists id fields,
            db s' = db (initial []) ++ [sync_row id fields]
            /\ field "syncId" response = Some (JStr id))
        \/ (db s' = db (initial [])
            /\ (field "syncId" response = None
                \/ field "syncId" response = Some JNull))).
Proof.
  do 2 eexists. split; [vm_compute; reflexivity|].
  eapply (job_id_iff_row Sample.dispatch_rejected (initial [])).
  vm_compute. reflexivity.
Defined.

(** X8.  When the snapshot is extracted, the store reports the new row and
    the dispatcher accepts the trigger, the validating handler answers 200
    with [success: true] and the id of the row; the row is in the store and
    the one dispatch carried the organization and the serialised
    snapshot. *)
Theorem dispatch_success_response :
  forall w s rawBody body snapshot s1 tables s2 id,
    request_json w (reads s) = Ok rawBody ->
    requestSchema_safeParse rawBody = ParseOk body ->
    Route.getTableData w (internal_credentials body) (after_read s)
    = (Ok snapshot, s1) ->
    Route.getAllTables w (internal_credentials body) s1 = (Ok tables, s2) ->
    supabase_insert w "syncs" (Route.sync_record w body)
    = Ok {| pg_data := Some id; pg_error := None |} ->
    octokit_request w (Route.dispatch_request w body snapshot) = Ok tt ->
    exists response s',
      Route.POST w s = (Ok response, s')
      /\ status response = 200
      /\ field "success" response = Some (JBool true)
      /\ field "syncId" response = Some (JStr id)
      /\ db s' = db s ++ [sync_row id (Route.sync_record w body)]
      /\ log s' = log s2 ++ [EvInsert "syncs" (Route.sync_record w body);
                             EvDispatch (Route.dispatch_request w body snapshot)]
      /\ inputs_org_id (Route.dispatch_request w body snapshot)
         = organization body
      /\ inputs_data (Route.dispatch_request w body snapshot)
         = JSON_stringify w (JObj snapshot).
Proof.
  intros w s rawBody body snapshot s1 tables s2 id Hreq Hparse Hdata Htables
    Hins Hgh.
  rewrite POST_eq, Hreq, Hparse, process_eq, Hdata, Htables. cbv zeta.
  rewrite Hins. cbn [pg_error pg_data]. rewrite dispatch_eq. cbv zeta.
  rewrite Hgh.
  destruct (source_only_trans _ _ _
              (getTableData_source_only _ _ _ _ _ Hdata)
              (getAllTables_source_only _ _ _ _ _ Htables)) as (D & _).
  do 2 eexists. split; [reflexivity|]. repeat (split; [reflexivity|]).
  split; [cbn; rewrite D; reflexivity|].
  split; [cbn; now rewrite <- app_assoc|]. split; reflexivity.
Qed.

Lemma dispatch_success_response_witness :
  exists response s',
    Route.POST (Sample.happy Sample.scenario_request) (initial [])
    = (Ok response, s')
    /\ status response = 200
    /\ field "success" response = Some (JBool true)
    /\ field "syncId" response = Some (JStr "job-1").
Proof.
  destruct (dispatch_success_response
              (Sample.happy Sample.scenario_request) (initial [])
              _ _ _ _ _ _ "job-1" eq_refl eq_refl eq_refl eq_refl eq_refl eq_refl)
    as (response & s' & H & H1 & H2 & H3 & _).
  exists response, s'. repeat (split; [assumption|]). exact H3.
Defined.

Lemma extraction_failure_response_witness :
  exists s',
    Route.POST Cases.source_goes_away (initial [])
    = (Ok (Route.process_failed None
             (ErrorObj "connect ECONNREFUSED 127.0.0.1:8123")), s')
    /\ db s' = db (initial [])
    /\ forall table payload, ~ In (EvInsert table payload) (log s').
Proof.
  destruct (extraction_failure_response Cases.source_goes_away (initial [])
              _ _ (ErrorObj "connect ECONNREFUSED 127.0.0.1:8123") _
              eq_refl eq_refl
              (or_intror (ex_intro _ _ (ex_intro _ _ (conj eq_refl eq_refl)))))
    as (H & _ & _ & D & L).
  eexists. split; [exact H|]. split; [exact D|].
  intros table payload Hin. apply (L table payload Hin).
Defined.

Lemma link_type_lowered_witness :
  exists response s' row,
    Route.POST (Sample.happy Sample.scenario_request) (initial [])
    = (Ok response, s')
    /\ In row (db s')
    /\ at_path ["link_type"] (row_fields row) = Some (JStr "clickhouse").
Proof.
  assert (H : forall response s' row,
             Route.POST (Sample.happy Sample.scenario_request) (initial [])
             = (Ok response, s') ->
             In row (db s') ->
             at_path ["link_type"] (row_fields row) = Some (JStr "clickhouse")).
  { intros response s' row H Hin.
    destruct (link_type_lowered (Sample.happy Sample.scenario_request)
                (initial []) Sample.scenario_request _ "ClickHouse" _
                response s' row eq_refl eq_refl eq_refl eq_refl H Hin)
      as [[]|E].
    exact E. }
  do 3 eexists. split; [vm_compute; reflexivity|].
  split; [left; reflexivity|].
  eapply H; [vm_compute; reflexivity|left; reflexivity].
Defined.

(** ** Extraction *)

Lemma has_key_In :
  forall k props, has_key k props = true <-> In k (map fst props).
Proof.
  intros k props. induction props as [|[k' v'] rest IH]; cbn.
  - split; [discriminate|intros []].
  - rewrite orb_true_iff, IH. destruct (String.eqb_spec k k') as [E|N].
    + subst k'. intuition.
    + split; [intros [F|H]; [discriminate F|now right]|].
      intros [E|H]; [now destruct N|now right].
Qed.

Lemma replace_prop_keys :
  forall k v props, map fst (replace_prop k v props) = map fst props.
Proof.
  intros k v props. induction props as [|[k' v'] rest IH]; [reflexivity|].
  cbn [replace_prop]. destruct (String.eqb_spec k k') as [E|N].
  - now subst k'.
  - cbn [map fst]. now rewrite IH.
Qed.

Lemma insert_index_keys :
  forall n k v props x,
    In x (map fst (insert_index n k v props)) <-> x = k \/ In x (map fst props).
Proof.
  intros n k v props x. induction props as [|[k' v'] rest IH].
  - cbn. intuition.
  - cbn [insert_index]. destruct (array_index k') as [n'|].
    + destruct (N.ltb n' n).
      * cbn [map fst In]. rewrite IH. intuition.
      * cbn [map fst In]. intuition.
    + cbn [map fst In]. intuition.
Qed.

Lemma define_own_keys :
  forall k v props x,
    In x (map fst (define_own k v props)) <-> x = k \/ In x (map fst props).
Proof.
  intros k v props x. unfold define_own.
  destruct (has_key k props) eqn:Hk.
  - rewrite replace_prop_keys. apply has_key_In in Hk.
    split; [now right|]. intros [E|H]; [now subst x|exact H].
  - destruct (array_index k) as [n|].
    + apply insert_index_keys.
    + rewrite map_app, in_app_iff. cbn. intuition.
Qed.

Lemma set_prop_keys_in :
  forall k v o x,
    In x (map fst (own_props (set_prop k v o))) -> x = k \/ In x (map fst (own_props o)).
Proof.
  intros k v o x. unfold set_prop.
  destruct (String.eqb k "__proto__").
  - destruct (proto_accessor o).
    + destruct v; cbn [own_props]; now right.
    + cbn [own_props]. apply define_own_keys.
  - cbn [own_props]. apply define_own_keys.
Qed.

Lemma set_prop_keys :
  forall k v o x,
    x <> "__proto__" ->
    In x (map fst (own_props (set_prop k v o))) <-> x = k \/ In x (map fst (own_props o)).
Proof.
  intros k v o x Hx. split; [apply set_prop_keys_in|].
  unfold set_prop. destruct (String.eqb_spec k "__proto__") as [E|N].
  - subst k. intros [E|H]; [now destruct Hx|].
    destruct (proto_accessor o).
    + destruct v; exact H.
    + cbn [own_props]. apply define_own_keys. now right.
  - cbn [own_props]. apply define_own_keys.
Qed.

Lemma set_prop_fresh :
  forall k v o,
    plain_key k ->
    ~ In k (map fst (own_props o)) ->
    set_prop k v o
    = {| own_props := own_props o ++ [(k, v)]; proto_accessor := proto_accessor o |}.
Proof.
  intros k v o [Hp Hi] Hfresh. unfold set_prop.
  destruct (String.eqb_spec k "__proto__") as [E|_]; [now destruct Hp|].
  unfold define_own. destruct (has_key k (own_props o)) eqn:Hk.
  - apply has_key_In in Hk. now destruct Hfresh.
  - now rewrite Hi.
Qed.

Lemma for_each_table_keys_in :
  forall w names acc s snapshot s',
    Route.for_each_table w names acc s = (Ok snapshot, s') ->
    forall k, In k (map fst snapshot) -> In k (map fst (own_props acc)) \/ In k names.
Proof.
  intros w names. induction names as [|t rest IH]; intros acc s snapshot s' H k.
  - inversion H; subst. now left.
  - rewrite for_each_table_cons in H. cbv zeta in H.
    destruct (select_rows w (queries s) (Route.select_query t)) as [v|e];
      [|discriminate H].
    intro Hin. destruct (IH _ _ _ _ H k Hin) as [Hk|Hk].
    + apply set_prop_keys_in in Hk. cbn [In]. intuition.
    + right. now right.
Qed.

Lemma for_each_table_keys :
  forall w names acc s snapshot s',
    Route.for_each_table w names acc s = (Ok snapshot, s') ->
    forall k,
      k <> "__proto__" ->
      In k (map fst (own_props acc)) \/ In k names -> In k (map fst snapshot).
Proof.
  intros w names. induction names as [|t rest IH];
    intros acc s snapshot s' H k Hk.
  - inversion H; subst. intros [Hin|[]]. exact Hin.
  - rewrite for_each_table_cons in H. cbv zeta in H.
    destruct (select_rows w (queries s) (Route.select_query t)) as [v|e];
      [|discriminate H].
    intro Hin. apply (IH _ _ _ _ H k Hk).
    rewrite (set_prop_keys t v acc k Hk). cbn [In] in Hin. intuition.
Qed.

Lemma for_each_table_log :
  forall w names acc s snapshot s',
    Route.for_each_table w names acc s = (Ok snapshot, s') ->
    log s' = log s ++ select_events names
    /\ queries s' = queries s + length names.
Proof.
  intros w names. induction names as [|t rest IH]; intros acc s snapshot s' H.
  - inversion H; subst. cbn. now rewrite app_nil_r, Nat.add_0_r.
  - rewrite for_each_table_cons in H. cbv zeta in H.
    destruct (select_rows w (queries s) (Route.select_query t)) as [v|e];
      [|discriminate H].
    destruct (IH _ _ _ _ H) as (L & Q). rewrite L, Q. cbn.
    rewrite <- app_assoc. split; [reflexivity|lia].
Qed.

Lemma for_each_table_distinct :
  forall w names acc s snapshot s',
    NoDup names ->
    (forall k, In k names -> plain_key k) ->
    (forall k, In k names -> ~ In k (map fst (own_props acc))) ->
    Route.for_each_table w names acc s = (Ok snapshot, s') ->
    exists values,
      snapshot = own_props acc ++ combine names values
      /\ length values = length names
      /\ forall i t,
           nth_error names i = Some t ->
           exists v,
             nth_error values i = Some v
             /\ select_rows w (queries s + i) (Route.select_query t) = Ok v.
Proof.
  intros w names. induction names as [|t rest IH];
    intros acc s snapshot s' Hnd Hplain Hfresh H.
  - inversion H; subst. exists []. cbn. rewrite app_nil_r.
    repeat split. intros [|i] t E; discriminate E.
  - rewrite for_each_table_cons in H. cbv zeta in H.
    destruct (select_rows w (queries s) (Route.select_query t)) as [v|e] eqn:Ev;
      [|discriminate H].
    inversion Hnd as [|? ? Hnot Hnd']; subst.
    rewrite set_prop_fresh in H
      by (try apply Hplain; try apply Hfresh; now left).
    assert (Hplain' : forall k, In k rest -> plain_key k)
      by (intros k Hin; apply Hplain; now right).
    assert (Hfresh' : forall k, In k rest -> ~ In k (map fst (own_props acc ++ [(t, v)]))).
    { intros k Hin. rewrite map_app, in_app_iff. cbn. intros [Hk|[Hk|[]]].
      - apply (Hfresh k); [now right|exact Hk].
      - subst k. now apply Hnot. }
    destruct (IH {| own_props := own_props acc ++ [(t, v)];
                    proto_accessor := proto_accessor acc |} _ _ _
                Hnd' Hplain' Hfresh' H) as (values & E & Len & Vals).
    cbn [own_props] in E.
    exists (v :: values). split; [|split].
    + rewrite E, <- app_assoc. reflexivity.
    + cbn. now rewrite Len.
    + intros [|i] t' Et.
      * inversion Et; subst t'. exists v. rewrite Nat.add_0_r. now split.
      * destruct (Vals i t' Et) as (v' & Ev' & Es). exists v'.
        split; [exact Ev'|]. cbn [queries count_query log_event] in Es.
        now rewrite Nat.add_succ_r.
Qed.

Lemma nth_error_combine :
  forall (names : list string) (values : list JSON) i t v,
    nth_error names i = Some t -> nth_error values i = Some v ->
    nth_error (combine names values) i = Some (t, v).
Proof.
  intros names. induction names as [|n rest IH]; intros values i t v Hn Hv.
  - destruct i; discriminate Hn.
  - destruct values as [|x xs]; [destruct i; discriminate Hv|].
    destruct i as [|i]; cbn in *.
    + now inversion Hn; inversion Hv.
    + now apply IH.
Qed.

Lemma map_fst_combine :
  forall (names : list string) (values : list JSON),
    length values = length names -> map fst (combine names values) = names.
Proof.
  intros names. induction names as [|n rest IH]; intros [|x xs] H;
    try discriminate H; [reflexivity|].
  cbn. f_equal. apply IH. now inversion H.
Qed.

(** X9.  A snapshot that [getTableData] returns has an entry for no name
    but those that SHOW TABLES reported, and one for every reported name
    other than [__proto__]; it cost one statement per table after the SHOW
    TABLES, sent in the reported order.  When the reported names are
    distinct and none of them is [__proto__] or an array index, the entries
    stand in the reported order, each holding what the source answered to
    the statement for its table. *)
Theorem snapshot_covers_tables :
  forall w credentials s snapshot s1,
    Route.getTableData w credentials s = (Ok snapshot, s1) ->
    exists r,
      show_tables w (queries s) = Ok r
      /\ (forall k, In k (map fst snapshot) -> In k (map name (data r)))
      /\ (forall k, k <> "__proto__" ->
                    In k (map name (data r)) -> In k (map fst snapshot))
      /\ queries s1 = S (queries s) + length (data r)
      /\ log s1 = log s ++ EvQuery "SHOW TABLES"
                           :: select_events (map name (data r))
      /\ (NoDup (map name (data r)) ->
          (forall t, In t (map name (data r)) -> plain_key t) ->
          map fst snapshot = map name (data r)
          /\ forall i t,
               nth_error (map name (data r)) i = Some t ->
               exists v,
                 select_rows w (S (queries s) + i) (Route.select_query t) = Ok v
                 /\ nth_error snapshot i = Some (t, v)).
Proof.
  intros w credentials s snapshot s1 H.
  rewrite getTableData_eq in H.
  destruct (ClickhouseClient w _) as [[]|e]; [|discriminate H].
  rewrite getAllTables_eq in H.
  destruct (ClickhouseClient w _) as [[]|e]; [|discriminate H].
  destruct (show_tables w (queries s)) as [r|e]; [|discriminate H].
  exists r. split; [reflexivity|].
  destruct (for_each_table_log _ _ _ _ _ _ H) as (L & Q).
  cbn [log queries count_query log_event] in L, Q.
  split; [|split; [|split; [|split; [|]]]].
  - intros k Hin.
    destruct (for_each_table_keys_in _ _ _ _ _ _ H k Hin) as [[]|Hk]. exact Hk.
  - intros k Hk Hin. apply (for_each_table_keys _ _ _ _ _ _ H k Hk). now right.
  - rewrite Q, length_map. reflexivity.
  - rewrite L, <- app_assoc. reflexivity.
  - intros Hnd Hplain.
    destruct (for_each_table_distinct w _ empty_object _ _ _ Hnd Hplain
                (fun _ _ F => F) H)
      as (values & E & Len & Vals).
    cbn [app own_props empty_object] in E. subst snapshot. split.
    + apply map_fst_combine. exact Len.
    + intros i t Et. destruct (Vals i t Et) as (v & Ev & Es).
      exists v. split; [exact Es|]. now apply nth_error_combine.
Qed.

Lemma snapshot_covers_tables_witness :
  exists snapshot s1,
    Route.getTableData (Sample.happy Sample.scenario_request)
      Sample.clickhouse_credentials (initial [])
    = (Ok snapshot, s1)
    /\ map fst snapshot = ["events"]
    /\ queries s1 = 2.
Proof.
  do 2 eexists. split; [vm_compute; reflexivity|].
  destruct (snapshot_covers_tables (Sample.happy Sample.scenario_request)
              Sample.clickhouse_credentials (initial []) _ _ eq_refl)
    as (r & Hr & _ & _ & Q & _ & O).
  inversion Hr; subst r. split; [|exact Q].
  apply O.
  - cbn. repeat constructor; intros [].
  - cbn. intros t [E|[]]. subst t. split; [discriminate|reflexivity].
Defined.

Lemma for_each_table_fails :
  forall w pre t post e acc s,
    (forall i t',
        nth_error pre i = Some t' ->
        exists v, select_rows w (queries s + i) (Route.select_query t') = Ok v) ->
    select_rows w (queries s + length pre) (Route.select_query t) = Throw e ->
    exists s',
      Route.for_each_table w (pre ++ t :: post) acc s = (Throw e, s')
      /\ log s' = log s ++ select_events (pre ++ [t])
      /\ db s' = db s.
Proof.
  intros w pre t post e. induction pre as [|p rest IH]; intros acc s Hpre Hfail.
  - cbn [app length] in *. rewrite Nat.add_0_r in Hfail.
    rewrite for_each_table_cons. cbv zeta. rewrite Hfail.
    eexists. split; [reflexivity|]. split; reflexivity.
  - cbn [app]. rewrite for_each_table_cons. cbv zeta.
    destruct (Hpre 0 p eq_refl) as (v & Ev). rewrite Nat.add_0_r in Ev.
    rewrite Ev.
    destruct (IH (set_prop p v acc)
                (count_query (log_event (EvQuery (Route.select_query p)) s)))
      as (s' & H & L & D).
    + intros i t' Et. destruct (Hpre (S i) t' Et) as (v' & Ev').
      exists v'. cbn [queries count_query log_event].
      now rewrite Nat.add_succ_r in Ev'.
    + cbn [queries count_query log_event length] in *.
      now rewrite Nat.add_succ_r in Hfail.
    + exists s'. split; [exact H|]. split; [|exact D].
      rewrite L. cbn. now rewrite <- app_assoc.
Qed.

(** X10.  Extraction is all or nothing: when the statement for one table
    fails after those for the tables before it succeeded, [getTableData]
    throws that failure, returns no partial snapshot, and sends no
    statement for the tables after it. *)
Theorem extraction_stops_at_first_failure :
  forall w credentials s r pre t post e,
    ClickhouseClient w (Route.client_options credentials) = Ok tt ->
    show_tables w (queries s) = Ok r ->
    map name (data r) = pre ++ t :: post ->
    (forall i t',
        nth_error pre i = Some t' ->
        exists v,
          select_rows w (S (queries s) + i) (Route.select_query t') = Ok v) ->
    select_rows w (S (queries s) + length pre) (Route.select_query t) = Throw e ->
    exists s',
      Route.getTableData w credentials s = (Throw e, s')
      /\ log s' = log s ++ EvQuery "SHOW TABLES" :: select_events (pre ++ [t])
      /\ db s' = db s.
Proof.
  intros w credentials s r pre t post e Hc Hr Hnames Hpre Hfail.
  rewrite getTableData_eq, Hc, getAllTables_eq, Hc, Hr, Hnames.
  destruct (for_each_table_fails w pre t post e empty_object
              (count_query (log_event (EvQuery "SHOW TABLES") s)) Hpre Hfail)
    as (s' & H & L & D).
  exists s'. rewrite H. split; [reflexivity|]. split; [|exact D].
  rewrite L. cbn. now rewrite <- app_assoc.
Qed.

Lemma extraction_stops_at_first_failure_witness :
  exists s',
    Route.getTableData Cases.second_table_fails Sample.clickhouse_credentials
      (initial [])
    = (Throw (ErrorObj "Table default.users does not exist"), s')
    /\ log s' = [EvQuery "SHOW TABLES";
                 EvQuery (Route.select_query "events");
                 EvQuery (Route.select_query "users")]
    /\ db s' = [].
Proof.
  apply (extraction_stops_at_first_failure Cases.second_table_fails
           Sample.clickhouse_credentials (initial [])
           {| data := [ {| name := "events" |}; {| name := "users" |};
                        {| name := "orders" |} ] |}
           ["events"] "users" ["orders"]
           (ErrorObj "Table default.users does not exist")
           eq_refl eq_refl eq_refl).
  - intros [|[|i]] t' E; try discriminate E. eexists. reflexivity.
  - reflexivity.
Defined.

(** ** The source-registration route *)

Lemma every_field_accepts_iff :
  forall w creds fields,
    Sources.every_field w (Some (JObj creds)) fields = Ok true
    <-> Forall (filled w creds) fields.
Proof.
  intros w creds fields. induction fields as [|f rest IH].
  - split; [constructor|reflexivity].
  - cbn [Sources.every_field get_prop]. split.
    + intro H.
      destruct (lookup f creds) as [[| | |v| |]|] eqn:E; cbn in H;
        try discriminate H;
        try (destruct b; discriminate H);
        try (destruct (Qeq_bool _ _); discriminate H).
      destruct (String.eqb_spec v EmptyString) as [|Nv]; [discriminate H|].
      cbn in H.
      destruct (String.eqb_spec (String_trim w v) EmptyString) as [|Nt];
        [discriminate H|].
      constructor; [exists v; auto|now apply IH].
    + intro H. inversion H as [|? ? (v & E & Nv & Nt) Hrest]; subst.
      rewrite E. cbn.
      destruct (String.eqb_spec v EmptyString) as [|_]; [contradiction|].
      cbn.
      destruct (String.eqb_spec (String_trim w v) EmptyString) as [|_];
        [contradiction|].
      now apply IH.
Qed.

(** X11.  [validateCredentials] accepts credentials exactly when the type
    is one of the four of the registry and every field the registry
    requires for it holds a string that is neither empty nor blank. *)
Theorem validateCredentials_accepts_iff :
  forall w type creds,
    Sources.validateCredentials w type (Some (JObj creds)) = Ok true
    <-> exists fields,
          Sources.own type Sources.requiredFields = Some fields
          /\ Forall (filled w creds) fields.
Proof.
  intros w type creds. unfold Sources.validateCredentials. split.
  - intro H. destruct (Sources.own type Sources.requiredFields) as [fields|].
    + exists fields. split; [reflexivity|]. now apply every_field_accepts_iff.
    + destruct (existsb _ _); discriminate H.
  - intros (fields & E & H). rewrite E. now apply every_field_accepts_iff.
Qed.

Lemma every_field_raises :
  forall w creds pre f post v,
    Forall (filled w creds) pre ->
    lookup f creds = Some v ->
    Sources.truthy (Some v) = true ->
    (forall x, v <> JStr x) ->
    Sources.every_field w (Some (JObj creds)) (pre ++ f :: post)
    = Throw (ErrorObj "credentials[field].trim is not a function").
Proof.
  intros w creds pre f post v Hpre Hf Ht Hv.
  induction pre as [|p rest IH].
  - cbn [app Sources.every_field get_prop]. rewrite Hf, Ht.
    destruct v; try reflexivity. now destruct (Hv s).
  - inversion Hpre as [|? ? (x & E & Nx & Nt) Hrest]; subst.
    cbn [app Sources.every_field get_prop]. rewrite E. cbn.
    destruct (String.eqb_spec x EmptyString) as [|_]; [contradiction|].
    cbn.
    destruct (String.eqb_spec (String_trim w x) EmptyString) as [|_];
      [contradiction|].
    now apply IH.
Qed.

Lemma Sources_POST_eq :
  forall w s,
    Sources.POST w s =
    if (negb (Sources.truthy_string (userId (auth w)))
        || negb (Sources.truthy_string (orgId (auth w))))%bool
    then (Ok (Sources.error_response "Unauthorized" 401), s)
    else
      let unexpected :=
        Ok (Sources.error_response "An unexpected error occurred" 500) in
      match request_json w (reads s) with
      | Throw _ => (unexpected, count_read s)
      | Ok json =>
          match get_prop (Some json) "type" with
          | Throw _ => (unexpected, count_read s)
          | Ok type =>
              match get_prop (Some json) "credentials" with
              | Throw _ => (unexpected, count_read s)
              | Ok credentials =>
                  if (negb (Sources.truthy type)
                      || negb (Sources.truthy credentials))%bool
                  then (Ok (Sources.error_response
                              "Type and credentials are required" 400),
                        count_read s)
                  else
                    match Sources.validateCredentials w
                            (Sources.property_key w type) credentials with
                    | Throw _ => (unexpected, count_read s)
                    | Ok false =>
                        (Ok (Sources.error_response
                               "Invalid credentials for the selected type" 400),
                         count_read s)
                    | Ok true =>
                        insert_then
                          (fun r =>
                             match pg_error r with
                             | Some _ =>
                                 Sources.error_response "Failed to insert source" 500
                             | None =>
                                 NextResponse_json
                                   [("data", Sources.row_json (pg_data r))] None
                             end)
                          unexpected
                          (insert_single w "sources"
                             (JObj (prop "type" type
                                    ++ prop "credentials" credentials
                                    ++ prop "organization"
                                         (option_map JStr (orgId (auth w)))
                                    ++ prop "slug" (orgSlug (auth w))))
                             (count_read s))
                    end
              end
          end
      end.
Proof.
  intros w s. unfold Sources.POST, insert_then.
  destruct (negb _ || negb _)%bool; [reflexivity|].
  unfold try_catch, bind, request_json_call, lift, ret. cbv zeta.
  destruct (request_json w (reads s)) as [json|e]; [|reflexivity].
  destruct (get_prop (Some json) "type") as [type|e]; [|reflexivity].
  destruct (get_prop (Some json) "credentials") as [credentials|e];
    [|reflexivity].
  destruct (negb _ || negb _)%bool; [reflexivity|].
  destruct (Sources.validateCredentials w _ _) as [[|]|e]; cbn [negb];
    try reflexivity.
  destruct (insert_single w "sources" _ _) as [[r|e] s1]; [|reflexivity].
  destruct (pg_error r); reflexivity.
Qed.

Lemma own_type_not_empty :
  forall type fields,
    Sources.own type Sources.requiredFields = Some fields ->
    String.eqb type EmptyString = false.
Proof.
  intros type fields H. destruct (String.eqb_spec type EmptyString) as [E|_];
    [|reflexivity].
  subst type. discriminate H.
Qed.

(** X12.  A required field that holds a value other than a string (a
    number, [true], an array or an object) makes the registration fail
    with 500 'An unexpected error occurred' rather than 400: the fields
    before it being filled, the check calls [trim] on the value and raises,
    and nothing is inserted. *)
Theorem non_string_field_fails_registration :
  forall w s props type creds pre f post v,
    Sources.truthy_string (userId (auth w)) = true ->
    Sources.truthy_string (orgId (auth w)) = true ->
    request_json w (reads s) = Ok (JObj props) ->
    lookup "type" props = Some (JStr type) ->
    lookup "credentials" props = Some (JObj creds) ->
    Sources.own type Sources.requiredFields = Some (pre ++ f :: post) ->
    Forall (filled w creds) pre ->
    lookup f creds = Some v ->
    Sources.truthy (Some v) = true ->
    (forall x, v <> JStr x) ->
    exists s',
      Sources.POST w s
      = (Ok (Sources.error_response "An unexpected error occurred" 500), s')
      /\ db s' = db s /\ log s' = log s.
Proof.
  intros w s props type creds pre f post v Hu Ho Hreq Ht Hc Hown Hpre Hf Htr Hv.
  rewrite Sources_POST_eq, Hu, Ho. cbn [negb orb]. cbv zeta.
  rewrite Hreq. cbn [get_prop]. rewrite Ht, Hc.
  cbn [Sources.truthy Sources.property_key].
  rewrite (own_type_not_empty _ _ Hown). cbn [negb orb].
  unfold Sources.validateCredentials. rewrite Hown.
  rewrite (every_field_raises _ _ _ _ _ _ Hpre Hf Htr Hv).
  eexists. split; [reflexivity|]. split; reflexivity.
Qed.

Lemma non_string_field_fails_registration_witness :
  exists s',
    Sources.POST (Cases.registration Cases.numeric_port) (initial [])
    = (Ok (Sources.error_response "An unexpected error occurred" 500), s')
    /\ db s' = db (initial []) /\ log s' = log (initial []).
Proof.
  apply (non_string_field_fails_registration
           (Cases.registration Cases.numeric_port) (initial [])
           _ "clickhouse" Cases.numeric_port ["host"] "port"
           ["database"; "user"; "password"] (JNum (inject_Z 8123))
           eq_refl eq_refl eq_refl eq_refl eq_refl eq_refl).
  - constructor; [|constructor]. exists "h". repeat split; discriminate.
  - reflexivity.
  - reflexivity.
  - intros x H. discriminate H.
Defined.

Lemma insert_single_log :
  forall w table payload s o s',
    insert_single w table payload s = (o, s') ->
    log s' = log s ++ [EvInsert table payload]
    /\ (db s' = db s
        \/ exists id, db s' = db s ++ [{| row_table := table; row_id := id;
                                          row_fields := payload |}]).
Proof.
  intros w table payload s o s' H. unfold insert_single in H. cbv zeta in H.
  destruct (supabase_insert w table payload) as [[[id|] [er|]]|e];
    cbn [pg_error pg_data] in H; inversion H; subst; cbn; eauto.
Qed.

(** X13.  The registration handler sends an insert only for a signed-in
    member of an organization whose request passed the credential check,
    only into [sources], and the [organization] of the inserted record is
    the caller's own, whatever the body says. *)
Theorem registration_insert_guarded :
  forall w s o s' table payload,
    Sources.POST w s = (o, s') ->
    In (EvInsert table payload) (log s') ->
    In (EvInsert table payload) (log s)
    \/ (Sources.truthy_string (userId (auth w)) = true
        /\ table = "sources"
        /\ exists org json type creds,
             orgId (auth w) = Some org
             /\ org <> EmptyString
             /\ at_path ["organization"] payload = Some (JStr org)
             /\ request_json w (reads s) = Ok json
             /\ get_prop (Some json) "type" = Ok type
             /\ get_prop (Some json) "credentials" = Ok creds
             /\ Sources.validateCredentials w (Sources.property_key w type) creds
                = Ok true).
Proof.
  intros w s o s' table payload H Hin. rewrite Sources_POST_eq in H.
  destruct (Sources.truthy_string (userId (auth w))) eqn:Hu; cbn [negb orb] in H;
    [|inversion H; subst; now left].
  destruct (orgId (auth w)) as [org|] eqn:Ho; cbn [Sources.truthy_string] in H;
    [|inversion H; subst; now left].
  destruct (String.eqb_spec org EmptyString) as [|Norg]; cbn [negb] in H;
    [inversion H; subst; now left|].
  cbv zeta in H.
  destruct (request_json w (reads s)) as [json|e];
    [|inversion H; subst; now left].
  destruct (get_prop (Some json) "type") as [type|e] eqn:Ht;
    [|inversion H; subst; now left].
  destruct (get_prop (Some json) "credentials") as [creds|e] eqn:Hc;
    [|inversion H; subst; now left].
  destruct (Sources.truthy type) eqn:Tt; cbn [negb orb] in H;
    [|inversion H; subst; now left].
  destruct (Sources.truthy creds) eqn:Tc; cbn [negb] in H;
    [|inversion H; subst; now left].
  destruct (Sources.validateCredentials w _ creds) as [[|]|e] eqn:Hv;
    try (inversion H; subst; now left).
  unfold insert_then in H.
  destruct (insert_single w "sources" _ _) as [o1 s1] eqn:Hi.
  destruct (insert_single_log _ _ _ _ _ _ Hi) as (L & _).
  assert (E : s' = s1) by (destruct o1; now inversion H). subst s1.
  rewrite L in Hin. cbn [log count_read] in Hin. apply in_app_or in Hin.
  destruct Hin as [Hin|[Hin|[]]]; [now left|right].
  inversion Hin; subst table payload.
  split; [reflexivity|]. split; [reflexivity|].
  exists org, json, type, creds. repeat split; auto.
  destruct type as [x|]; [|discriminate Tt].
  destruct creds as [y|]; [|discriminate Tc].
  reflexivity.
Qed.

Lemma registration_insert_guarded_witness :
  exists o s' payload,
    Sources.POST (Cases.registration Cases.full_credentials) (initial [])
    = (o, s')
    /\ In (EvInsert "sources" payload) (log s')
    /\ at_path ["organization"] payload = Some (JStr "org_1").
Proof.
  do 3 eexists. split; [vm_compute; reflexivity|].
  split; [left; reflexivity|].
  destruct (registration_insert_guarded
              (Cases.registration Cases.full_credentials) (initial [])
              _ _ "sources" _ eq_refl (or_introl eq_refl))
    as [[]|(_ & _ & org & json & type & creds & Ho & _ & P & _)].
  inversion Ho; subst org. exact P.
Defined.

(** X14.  The validating handler, the handler of part_003 and the
    registration handler end every run with a response: whatever the
    request, the source, the store and the dispatcher do, nothing thrown
    inside them leaves the handler. *)
Theorem handlers_always_respond :
  forall w s,
    (exists response s', Route.POST w s = (Ok response, s'))
    /\ (exists response s', RouteLegacy.POST w s = (Ok response, s'))
    /\ (exists response s', Sources.POST w s = (Ok response, s')).
Proof.
  intros w s. split; [apply POST_always_responds|split].
  - rewrite legacy_POST_eq. cbv zeta.
    destruct (request_json w (reads s)) as [body|e]; [|eauto].
    destruct (get_prop (Some body) "link_type") as [link|e]; [|eauto].
    destruct (RouteLegacy.call_toLowerCase w link) as [l|e]; [|eauto].
    destruct (supabase_insert w "syncs" _) as [[[id|] [er|]]|e];
      cbn [pg_error pg_data]; eauto.
    destruct (RouteLegacy.dispatch_failure _); eauto.
  - rewrite Sources_POST_eq.
    destruct (negb _ || negb _)%bool; [eauto|]. cbv zeta.
    destruct (request_json w (reads s)) as [json|e]; [|eauto].
    destruct (get_prop (Some json) "type") as [type|e]; [|eauto].
    destruct (get_prop (Some json) "credentials") as [creds|e]; [|eauto].
    destruct (negb _ || negb _)%bool; [eauto|].
    destruct (Sources.validateCredentials w _ _) as [[|]|e]; eauto.
    unfold insert_then.
    destruct (insert_single w "sources" _ _) as [[r|e] s1]; eauto.
Qed.

(** X15.  The list handler asks the store nothing exactly when the
    [organizationId] parameter is absent or empty, and then answers 400
    'Organization ID is required'; otherwise it makes one select on
    [sources], filtered on [organization] by the first value of the
    parameter, and answers from what the store returned: 500 with the
    message of the store's error when there is one, 200 with the rows
    under [sources] when there is none; a select that rejects leaves the
    handler as a throw. *)
Theorem list_requires_organization :
  forall st params,
    let organizationId := SourcesRest.searchParams_get "organizationId" params in
    (Sources.truthy_string organizationId = false
     /\ SourcesRest.GET st params
        = (Ok (Sources.error_response "Organization ID is required" 400), []))
    \/ (exists id,
           organizationId = Some id
           /\ id <> EmptyString
           /\ snd (SourcesRest.GET st params)
              = [SourcesRest.SelectEq "sources" "organization" id]
           /\ (forall r error,
                  SourcesRest.select_eq st "sources" "organization" id = Ok r ->
                  SourcesRest.many_error r = Some error ->
                  exists response,
                    fst (SourcesRest.GET st params) = Ok response
                    /\ status response = 500
                    /\ field "error" response = Some (JStr (pg_message error))
                    /\ field "sources" response = None)
           /\ (forall r,
                  SourcesRest.select_eq st "sources" "organization" id = Ok r ->
                  SourcesRest.many_error r = None ->
                  exists response,
                    fst (SourcesRest.GET st params) = Ok response
                    /\ status response = 200
                    /\ field "sources" response
                       = Some (SourcesRest.rows_json (SourcesRest.many_data r))
                    /\ field "error" response = None)
           /\ (forall e,
                  SourcesRest.select_eq st "sources" "organization" id = Throw e ->
                  fst (SourcesRest.GET st params) = Throw e)).
Proof.
  intros st params organizationId. unfold SourcesRest.GET.
  fold organizationId.
  destruct organizationId as [id|]; [|left; split; reflexivity].
  cbn [Sources.truthy_string].
  destruct (String.eqb_spec id EmptyString) as [E|N]; cbn [negb];
    [left; split; reflexivity|].
  right. exists id. split; [reflexivity|]. split; [exact N|].
  destruct (SourcesRest.select_eq st "sources" "organization" id) as [[d [er|]]|e];
    cbn [SourcesRest.many_error SourcesRest.many_data fst snd];
    (split; [reflexivity|]); (split; [|split]).
  - intros r error E Er. inversion E; subst r. cbn in Er. inversion Er; subst er.
    eexists. split; [reflexivity|]. repeat split; reflexivity.
  - intros r E Er. inversion E; subst r. discriminate Er.
  - intros e E. discriminate E.
  - intros r error E Er. inversion E; subst r. discriminate Er.
  - intros r E _. inversion E; subst r.
    eexists. split; [reflexivity|]. repeat split; reflexivity.
  - intros e E. discriminate E.
  - intros r error E. discriminate E.
  - intros r E. discriminate E.
  - intros e' E. inversion E. reflexivity.
Qed.



(** ** The handler of part_003 *)

Lemma legacy_record_fields :
  forall props,
    at_path ["destination_config"] (RouteLegacy.sync_record props)
    = lookup "destinationConfig" props
    /\ at_path ["status"] (RouteLegacy.sync_record props) = Some (JStr "active").
Proof.
  intro props. unfold RouteLegacy.sync_record.
  destruct (lookup "organization" props), (lookup "internal_warehouse" props),
    (lookup "link_type" props), (lookup "internal_credentials" props),
    (lookup "destinationConfig" props); split; reflexivity.
Qed.

(** X17.  The handler of part_003 validates nothing beyond the link type
    being a string, and reads the destination under the camel-case key
    [destinationConfig]: for any object body with a string [link_type] it
    sends the insert with status "active", the stored [destination_config]
    and the body of the trigger are those of [body.destinationConfig], and a
    snake-case [destination_config] of the request is ignored. *)
Theorem legacy_reads_camel_case :
  forall w s props lt,
    request_json w (reads s) = Ok (JObj props) ->
    lookup "link_type" props = Some (JStr lt) ->
    exists response s' payload rest,
      RouteLegacy.POST w s = (Ok response, s')
      /\ log s' = log s ++ EvInsert "syncs" payload :: rest
      /\ at_path ["destination_config"] payload = lookup "destinationConfig" props
      /\ at_path ["status"] payload = Some (JStr "active")
      /\ forall url init,
           In (EvFetch url init) rest ->
           fetch_body init
           = option_map (JSON_stringify w) (lookup "destinationConfig" props).
Proof.
  intros w s props lt Hreq Hlt.
  rewrite legacy_POST_eq. cbv zeta. rewrite Hreq.
  cbn [get_prop RouteLegacy.props_of RouteLegacy.call_toLowerCase]. rewrite Hlt.
  destruct (legacy_record_fields props) as (F1 & F2).
  assert (Stop : forall id e,
             exists response s' payload rest,
               (Ok (Route.process_failed id e),
                log_event (EvInsert "syncs" (RouteLegacy.sync_record props))
                  (after_read s))
               = (Ok response, s')
               /\ log s' = log s ++ EvInsert "syncs" payload :: rest
               /\ at_path ["destination_config"] payload
                  = lookup "destinationConfig" props
               /\ at_path ["status"] payload = Some (JStr "active")
               /\ forall url init,
                    In (EvFetch url init) rest ->
                    fetch_body init
                    = option_map (JSON_stringify w)
                        (lookup "destinationConfig" props)).
  { intros id e. exists (Route.process_failed id e). eexists.
    exists (RouteLegacy.sync_record props), [].
    split; [reflexivity|]. split; [reflexivity|]. split; [exact F1|].
    split; [exact F2|]. intros url init []. }
  destruct (supabase_insert w "syncs" _) as [[[id|] [er|]]|e];
    cbn [pg_error pg_data]; try apply Stop.
  assert (Sent : forall response : NextResponse,
             exists response' s' payload rest,
               (Ok response,
                log_event
                  (EvFetch RouteLegacy.dispatch_url
                     (RouteLegacy.dispatch_init w props))
                  (set_syncId (Some id)
                     (add_row (sync_row id (RouteLegacy.sync_record props))
                        (log_event
                           (EvInsert "syncs" (RouteLegacy.sync_record props))
                           (after_read s)))))
               = (Ok response', s')
               /\ log s' = log s ++ EvInsert "syncs" payload :: rest
               /\ at_path ["destination_config"] payload
                  = lookup "destinationConfig" props
               /\ at_path ["status"] payload = Some (JStr "active")
               /\ forall url init,
                    In (EvFetch url init) rest ->
                    fetch_body init
                    = option_map (JSON_stringify w)
                        (lookup "destinationConfig" props)).
  { intro response. exists response. eexists.
    exists (RouteLegacy.sync_record props),
      [EvFetch RouteLegacy.dispatch_url (RouteLegacy.dispatch_init w props)].
    split; [reflexivity|]. split; [cbn; now rewrite <- app_assoc|].
    split; [exact F1|]. split; [exact F2|].
    intros url init [H|[]]. now inversion H. }
  destruct (RouteLegacy.dispatch_failure _); apply Sent.
Qed.

Lemma legacy_reads_camel_case_witness :
  exists response s' payload rest,
    RouteLegacy.POST (Sample.happy Sample.scenario_request) (initial [])
    = (Ok response, s')
    /\ log s' = log (initial []) ++ EvInsert "syncs" payload :: rest
    /\ at_path ["destination_config"] payload = None
    /\ at_path ["status"] payload = Some (JStr "active")
    /\ forall url init, In (EvFetch url init) rest -> fetch_body init = None.
Proof.
  apply (legacy_reads_camel_case (Sample.happy Sample.scenario_request)
           (initial []) _ "ClickHouse" eq_refl eq_refl).
Defined.

(** X18.  A body whose [link_type] is not a string (absent, null, a number,
    or a body that is itself null or not an object) is answered 500 by the
    handler of part_003 with a null [syncId], and nothing is inserted or
    triggered. *)
Theorem legacy_link_type_must_be_string :
  forall w s body,
    request_json w (reads s) = Ok body ->
    (forall lt, get_prop (Some body) "link_type" <> Ok (Some (JStr lt))) ->
    exists e s',
      RouteLegacy.POST w s = (Ok (Route.process_failed None e), s')
      /\ status (Route.process_failed None e) = 500
      /\ field "syncId" (Route.process_failed None e) = Some JNull
      /\ db s' = db s /\ log s' = log s.
Proof.
  intros w s body Hreq Hlt. rewrite legacy_POST_eq. cbv zeta. rewrite Hreq.
  destruct (get_prop (Some body) "link_type") as [link|e].
  - destruct link as [[| | |lt| |]|]; cbn [RouteLegacy.call_toLowerCase];
      try (do 2 eexists; split; [reflexivity|]; repeat split; reflexivity).
    now destruct (Hlt lt).
  - do 2 eexists. split; [reflexivity|]. repeat split; reflexivity.
Qed.

Lemma legacy_link_type_must_be_string_witness :
  exists e s',
    RouteLegacy.POST
      (Sample.happy (JObj [("organization", JStr "org_1");
                           ("link_type", JNum (inject_Z 7))]))
      (initial [])
    = (Ok (Route.process_failed None e), s')
    /\ status (Route.process_failed None e) = 500
    /\ field "syncId" (Route.process_failed None e) = Some JNull
    /\ db s' = db (initial []) /\ log s' = log (initial []).
Proof.
  apply (legacy_link_type_must_be_string
           (Sample.happy (JObj [("organization", JStr "org_1");
                                ("link_type", JNum (inject_Z 7))]))
           (initial []) _ eq_refl).
  intros lt H. discriminate H.
Defined.

(** X19.  In the handler of part_003 a store error ends the request with
    500, the error 'Failed to create sync record: ' followed by the store's
    message, and a null [syncId]; no row is added and the trigger is not
    sent.  With the row created and the trigger answered ok, the response is
    200 with [success: true] and the id of the row, after exactly the insert
    and the trigger. *)
Theorem legacy_store_error_and_success :
  forall w s props lt,
    request_json w (reads s) = Ok (JObj props) ->
    lookup "link_type" props = Some (JStr lt) ->
    (forall row syncError,
        supabase_insert w "syncs" (RouteLegacy.sync_record props)
        = Ok {| pg_data := row; pg_error := Some syncError |} ->
        exists response s',
          RouteLegacy.POST w s = (Ok response, s')
          /\ status response = 500
          /\ field "error" response
             = Some (JStr ("Failed to create sync record: "
                           ++ pg_message syncError))
          /\ field "syncId" response = Some JNull
          /\ db s' = db s
          /\ log s' = log s ++ [EvInsert "syncs" (RouteLegacy.sync_record props)])
    /\ (forall id provisionBulker,
           supabase_insert w "syncs" (RouteLegacy.sync_record props)
           = Ok {| pg_data := Some id; pg_error := None |} ->
           fetch w RouteLegacy.dispatch_url (RouteLegacy.dispatch_init w props)
           = Ok provisionBulker ->
           ok provisionBulker = true ->
           exists response s',
             RouteLegacy.POST w s = (Ok response, s')
             /\ status response = 200
             /\ field "success" response = Some (JBool true)
             /\ field "syncId" response = Some (JStr id)
             /\ db s' = db s ++ [sync_row id (RouteLegacy.sync_record props)]
             /\ log s' = log s
                         ++ [EvInsert "syncs" (RouteLegacy.sync_record props);
                             EvFetch RouteLegacy.dispatch_url
                               (RouteLegacy.dispatch_init w props)]).
Proof.
  intros w s props lt Hreq Hlt. split.
  - intros row syncError Hins. rewrite legacy_POST_eq. cbv zeta. rewrite Hreq.
    cbn [get_prop RouteLegacy.props_of RouteLegacy.call_toLowerCase].
    rewrite Hlt, Hins. cbn [pg_error pg_data].
    do 2 eexists. split; [reflexivity|]. repeat split; reflexivity.
  - intros id provisionBulker Hins Hfetch Hok.
    rewrite legacy_POST_eq. cbv zeta. rewrite Hreq.
    cbn [get_prop RouteLegacy.props_of RouteLegacy.call_toLowerCase].
    rewrite Hlt, Hins. cbn [pg_error pg_data].
    rewrite Hfetch. cbn [RouteLegacy.dispatch_failure]. rewrite Hok.
    do 2 eexists. split; [reflexivity|]. repeat (split; [reflexivity|]).
    cbn. now rewrite <- app_assoc.
Qed.

Lemma legacy_store_error_and_success_witness :
  (exists response s',
      RouteLegacy.POST Cases.store_refuses (initial []) = (Ok response, s')
      /\ status response = 500
      /\ field "error" response
         = Some (JStr "Failed to create sync record: permission denied")
      /\ db s' = db (initial []))
  /\ (exists response s',
         RouteLegacy.POST (Sample.happy Sample.scenario_request) (initial [])
         = (Ok response, s')
         /\ status response = 200
         /\ field "syncId" response = Some (JStr "job-1")).
Proof.
  split.
  - destruct (proj1 (legacy_store_error_and_success Cases.store_refuses
                       (initial []) _ "ClickHouse" eq_refl eq_refl)
                None {| pg_message := "permission denied" |} eq_refl)
      as (response & s' & H & H1 & H2 & _ & D & _).
    exists response, s'. repeat (split; [assumption|]). exact D.
  - destruct (proj2 (legacy_store_error_and_success
                       (Sample.happy Sample.scenario_request)
                       (initial []) _ "ClickHouse" eq_refl eq_refl)
                "job-1" Sample.accepted eq_refl eq_refl eq_refl)
      as (response & s' & H & H1 & _ & H3 & _).
    exists response, s'. repeat (split; [assumption|]). exact H3.
Defined.

(** ** The earlier revision *)

Lemma early_getAllTables_frame :
  forall w s o s',
    RouteEarly.getAllTables w s = (o, s') ->
    db s' = db s /\ syncId s' = syncId s /\ queries s <= queries s'
    /\ exists sqls, log s' = log s ++ map EvQuery sqls.
Proof.
  intros w s o s' H. rewrite early_getAllTables_eq in H.
  assert (Z : forall x, (x, count_read s) = (o, s') ->
              db s' = db s /\ syncId s' = syncId s /\ queries s <= queries s'
              /\ exists sqls, log s' = log s ++ map EvQuery sqls).
  { intros x E. inversion E; subst. cbn. repeat split; auto.
    exists []. cbn. now rewrite app_nil_r. }
  destruct (request_json w (reads s)) as [body|e]; [|now apply Z in H].
  destruct (RouteEarly.client_options body) as [opts|e]; [|now apply Z in H].
  destruct (ClickhouseClient w opts); [|now apply Z in H].
  inversion H; subst. cbn. repeat split; auto. now exists ["SHOW TABLES"].
Qed.

Lemma early_getTableData_frame :
  forall w s o s',
    RouteEarly.getTableData w s = (o, s') ->
    db s' = db s /\ syncId s' = syncId s /\ queries s <= queries s'
    /\ exists sqls, log s' = log s ++ map EvQuery sqls.
Proof.
  intros w s o s' H. rewrite early_getTableData_eq in H.
  assert (Z : forall x, (x, count_read s) = (o, s') ->
              db s' = db s /\ syncId s' = syncId s /\ queries s <= queries s'
              /\ exists sqls, log s' = log s ++ map EvQuery sqls).
  { intros x E. inversion E; subst. cbn. repeat split; auto.
    exists []. cbn. now rewrite app_nil_r. }
  destruct (request_json w (reads s)) as [body|e]; [|now apply Z in H].
  destruct (RouteEarly.client_options body) as [opts|e]; [|now apply Z in H].
  destruct (ClickhouseClient w opts); [|now apply Z in H].
  clear Z.
  destruct (RouteEarly.getAllTables w (count_read s)) as [[tables|e] s1] eqn:E;
    apply early_getAllTables_frame in E;
    destruct E as (D & I & Q & l1 & L1); cbn [db syncId log queries count_read] in *.
  - apply for_each_table_source_only in H.
    destruct H as (D2 & I2 & _ & Q2 & l2 & L2).
    repeat split; try congruence; try lia.
    exists (l1 ++ l2). now rewrite L2, L1, map_app, app_assoc.
  - inversion H; subst. repeat split; auto. now exists l1.
Qed.

Lemma early_process_eq :
  forall w body snapshot s,
    RouteEarly.process w body snapshot s =
    let record := Route.sync_record w body in
    let s1 := log_event (EvInsert "syncs" record) s in
    match supabase_insert w "syncs" record with
    | Throw e => (Throw e, s1)
    | Ok r =>
        match pg_error r, pg_data r with
        | Some syncError, _ => (Ok (Route.database_error syncError), s1)
        | None, None => (Ok Route.no_data_returned, s1)
        | None, Some id =>
            match RouteEarly.getAllTables w
                    (set_syncId (Some id) (add_row (sync_row id record) s1)) with
            | (Throw e, s2) => (Throw e, s2)
            | (Ok _, s2) => Route.dispatch w body snapshot s2
            end
        end
    end.
Proof.
  intros w body snapshot s.
  unfold RouteEarly.process, bind, insert_single, assign_syncId. cbv zeta.
  destruct (supabase_insert w "syncs" _) as [[[id|] [er|]]|e]; reflexivity.
Qed.

Lemma early_POST_eq :
  forall w s,
    RouteEarly.POST w s =
    match RouteEarly.getTableData w (set_syncId None s) with
    | (Throw e, s1) => (Throw e, s1)
    | (Ok snapshot, s1) =>
        match request_json w (reads s1) with
        | Throw _ =>
            (Ok (Route.process_failed (syncId s1)
                   (ErrorObj "Invalid JSON in request body")),
             count_read s1)
        | Ok rawBody =>
            match requestSchema_safeParse rawBody with
            | ParseFail issues =>
                (Ok (Route.validation_failed issues), count_read s1)
            | ParseOk body =>
                match RouteEarly.process w body snapshot (count_read s1) with
                | (Ok response, s') => (Ok response, s')
                | (Throw e, s') => (Ok (Route.process_failed (syncId s') e), s')
                end
            end
        end
    end.
Proof.
  intros w s.
  unfold RouteEarly.POST, bind, try_catch, request_json_call, ret, throw,
    get_syncId, assign_syncId.
  destruct (RouteEarly.getTableData w (set_syncId None s))
    as [[snapshot|e] s1]; [|reflexivity].
  destruct (request_json w (reads s1)) as [rawBody|e]; [|reflexivity].
  destruct (requestSchema_safeParse rawBody) as [body|issues]; [|reflexivity].
  destruct (RouteEarly.process w body snapshot (count_read s1))
    as [[response|e] s']; reflexivity.
Qed.

Lemma early_single_read_unhandled_witness :
  exists e s', RouteEarly.POST Cases.single_read (initial []) = (Throw e, s').
Proof.
  apply early_single_read_unhandled.
  intros [|k] H; [inversion H|].
  exists (ErrorObj "Body is unusable: Body has already been read"). reflexivity.
Defined.

(** ** The store *)

Lemma grows_same : forall s s', db s' = db s -> grows s s'.
Proof.
  intros s s' D. exists []. rewrite D, app_nil_r. split; [reflexivity|cbn; lia].
Qed.

Lemma grows_one : forall s s' row, db s' = db s ++ [row] -> grows s s'.
Proof. intros s s' row D. exists [row]. split; [exact D|reflexivity]. Qed.

Lemma dispatch_db :
  forall w body snapshot s o s',
    Route.dispatch w body snapshot s = (o, s') -> db s' = db s.
Proof.
  intros w body snapshot s o s' H. rewrite dispatch_eq in H. cbv zeta in H.
  destruct (octokit_request w _) as [[]|ge]; [now inversion H|].
  destruct (Route.thrown_message ge); now inversion H.
Qed.

(** X21.  No handler removes or rewrites a row: whatever the outcome of a
    run of the validating handler, of its earlier revision, of the handler
    of part_003 or of the registration handler, the store afterwards is the
    store before, in the same order, followed by at most one new row. *)
Theorem store_only_grows :
  forall w s o s',
    (Route.POST w s = (o, s') -> grows s s')
    /\ (RouteEarly.POST w s = (o, s') -> grows s s')
    /\ (RouteLegacy.POST w s = (o, s') -> grows s s')
    /\ (Sources.POST w s = (o, s') -> grows s s').
Proof.
  intros w s o s'. split; [|split; [|split]]; intro H.
  - destruct (POST_always_responds w s) as (response & s'' & E).
    rewrite E in H. inversion H; subst.
    destruct (POST_store _ _ _ _ E) as [D|(rawBody & body & id & _ & _ & D)].
    + now apply grows_same.
    + eapply grows_one, D.
  - rewrite early_POST_eq in H.
    destruct (RouteEarly.getTableData w _) as [[snapshot|e] s1] eqn:Hdata;
      apply early_getTableData_frame in Hdata; destruct Hdata as (D1 & _);
      cbn [db set_syncId] in D1;
      [|inversion H; subst; now apply grows_same].
    destruct (request_json w (reads s1)) as [rawBody|e];
      [|inversion H; subst; now apply grows_same].
    destruct (requestSchema_safeParse rawBody) as [body|issues];
      [|inversion H; subst; now apply grows_same].
    rewrite early_process_eq in H. cbv zeta in H.
    destruct (supabase_insert w "syncs" _) as [[[id|] [er|]]|e];
      cbn [pg_error pg_data] in H;
      try (inversion H; subst; now apply grows_same).
    destruct (RouteEarly.getAllTables w _) as [[tables|e] s2] eqn:E;
      apply early_getAllTables_frame in E; destruct E as (D2 & _);
      cbn [db set_syncId add_row log_event count_read] in D2.
    + destruct (Route.dispatch w body snapshot s2) as [[response|e] s3] eqn:Hd;
        apply dispatch_db in Hd; inversion H; subst;
        (eapply grows_one; rewrite Hd, D2, D1; reflexivity).
    + inversion H; subst. eapply grows_one. rewrite D2, D1. reflexivity.
  - rewrite legacy_POST_eq in H. cbv zeta in H.
    destruct (request_json w (reads s)) as [body|e];
      [|inversion H; subst; now apply grows_same].
    destruct (get_prop (Some body) "link_type") as [link|e];
      [|inversion H; subst; now apply grows_same].
    destruct (RouteLegacy.call_toLowerCase w link) as [l|e];
      [|inversion H; subst; now apply grows_same].
    destruct (supabase_insert w "syncs" _) as [[[id|] [er|]]|e];
      cbn [pg_error pg_data] in H;
      try (inversion H; subst; now apply grows_same).
    destruct (RouteLegacy.dispatch_failure _); inversion H; subst;
      (eapply grows_one; reflexivity).
  - rewrite Sources_POST_eq in H.
    destruct (negb _ || negb _)%bool; [inversion H; subst; now apply grows_same|].
    cbv zeta in H.
    destruct (request_json w (reads s)) as [json|e];
      [|inversion H; subst; now apply grows_same].
    destruct (get_prop (Some json) "type") as [type|e];
      [|inversion H; subst; now apply grows_same].
    destruct (get_prop (Some json) "credentials") as [creds|e];
      [|inversion H; subst; now apply grows_same].
    destruct (negb _ || negb _)%bool; [inversion H; subst; now apply grows_same|].
    destruct (Sources.validateCredentials w _ _) as [[|]|e];
      try (inversion H; subst; now apply grows_same).
    unfold insert_then in H.
    destruct (insert_single w "sources" _ _) as [o1 s1] eqn:Hi.
    destruct (insert_single_log _ _ _ _ _ _ Hi) as (_ & [D|(id & D)]);
      cbn [db count_read] in D;
      assert (E : s' = s1) by (destruct o1; now inversion H); subst s1.
    + now apply grows_same.
    + eapply grows_one, D.
Qed.

Lemma store_only_grows_witness :
  exists o s',
    RouteEarly.POST (Sample.happy Sample.scenario_request)
      (initial [sync_row "job-0" JNull])
    = (o, s')
    /\ grows (initial [sync_row "job-0" JNull]) s'.
Proof.
  do 2 eexists. split; [vm_compute; reflexivity|].
  eapply (proj1 (proj2 (store_only_grows (Sample.happy Sample.scenario_request)
                          (initial [sync_row "job-0" JNull]) _ _))).
  vm_compute. reflexivity.
Defined.
